(** * kube-fencing: the node controller's reconciliation pass

    A shallow embedding of [pkg/controller/node/node_controller.go]:
    the condition extractors, the job builder [newJobForNode] and the
    reconciliation pass [Reconcile], run against a model of the cluster
    API in which every client call can fail. *)

From Stdlib Require Import ZArith String Ascii List Lia.
From stdpp Require Import base option gmap strings list fin_maps.

Local Open Scope Z_scope.

(** ** Kubernetes objects

    Only the fields the controller reads or writes are kept.  Go's typed
    strings ([ConditionStatus], [NodeConditionType], ...) stay strings. *)

Record TypeMeta := {
  Kind : string;
  APIVersion : string
}.

Record OwnerReference := {
  owner_APIVersion : string;
  owner_Kind : string;
  owner_Name : string;
  owner_UID : string
}.

(** A nil Go map and an empty one read alike, so both are [∅]. *)
Record ObjectMeta := {
  Name : string;
  Namespace : string;
  UID : string;
  Labels : gmap string string;
  Annotations : gmap string string;
  OwnerReferences : list OwnerReference
}.

Record NodeCondition := {
  Type_ : string;
  Status : string;
  Reason : string
}.

Record NodeStatus := { Conditions : list NodeCondition }.

Record Node := {
  node_type : TypeMeta;
  node_meta : ObjectMeta;
  node_status : NodeStatus
}.

(** The pod spec is opaque to the controller: it is carried from the
    template into the job untouched. *)
Record PodSpec := { pod_payload : string }.

Record PodTemplateSpec := {
  pod_meta : ObjectMeta;
  pod_spec : PodSpec
}.

Record PodTemplate := {
  tpl_meta : ObjectMeta;
  Template : PodTemplateSpec
}.

Record JobCondition := {
  job_cond_Type : string;
  job_cond_Status : string
}.

Record JobStatus := { job_Conditions : list JobCondition }.

Record JobSpec := { spec_Template : PodTemplateSpec }.

Record Job := {
  job_meta : ObjectMeta;
  job_spec : JobSpec;
  job_status : JobStatus
}.

Definition ConditionTrue : string := "True".
Definition NodeReady : string := "Ready".
Definition JobComplete : string := "Complete".
Definition JobFailed : string := "Failed".

(** Go zero values. *)
Definition zero_TypeMeta : TypeMeta := {| Kind := ""; APIVersion := "" |}.

Definition zero_ObjectMeta : ObjectMeta :=
  {| Name := ""; Namespace := ""; UID := ""; Labels := ∅;
     Annotations := ∅; OwnerReferences := [] |}.

Definition zero_Node : Node :=
  {| node_type := zero_TypeMeta; node_meta := zero_ObjectMeta;
     node_status := {| Conditions := [] |} |}.

Definition zero_PodTemplateSpec : PodTemplateSpec :=
  {| pod_meta := zero_ObjectMeta; pod_spec := {| pod_payload := "" |} |}.

Definition zero_PodTemplate : PodTemplate :=
  {| tpl_meta := zero_ObjectMeta; Template := zero_PodTemplateSpec |}.

Definition zero_Job : Job :=
  {| job_meta := zero_ObjectMeta;
     job_spec := {| spec_Template := zero_PodTemplateSpec |};
     job_status := {| job_Conditions := [] |} |}.

(** [m[k]] on a Go [map[string]string]: the empty string when absent. *)
Definition index (m : gmap string string) (k : string) : string :=
  default "" (m !! k).

Definition set_Annotations (a : gmap string string) (m : ObjectMeta) : ObjectMeta :=
  {| Name := Name m; Namespace := Namespace m; UID := UID m;
     Labels := Labels m; Annotations := a;
     OwnerReferences := OwnerReferences m |}.

(** ** Condition extractors *)

Fixpoint node_condition_from (i : Z) (l : list NodeCondition) (conditionType : string)
  : Z * option NodeCondition :=
  match l with
  | [] => (-1, None)
  | c :: l' =>
      if decide (Type_ c = conditionType) then (i, Some c)
      else node_condition_from (i + 1) l' conditionType
  end.

(** [status] is a pointer in the source; [None] is nil. *)
Definition GetNodeCondition (status : option NodeStatus) (conditionType : string)
  : Z * option NodeCondition :=
  match status with
  | None => (-1, None)
  | Some st => node_condition_from 0 (Conditions st) conditionType
  end.

Fixpoint job_condition_from (i : Z) (l : list JobCondition) (conditionType : string)
  : Z * option JobCondition :=
  match l with
  | [] => (-1, None)
  | c :: l' =>
      if decide (job_cond_Type c = conditionType) then (i, Some c)
      else job_condition_from (i + 1) l' conditionType
  end.

Definition GetJobCondition (status : option JobStatus) (conditionType : string)
  : Z * option JobCondition :=
  match status with
  | None => (-1, None)
  | Some st => job_condition_from 0 (job_Conditions st) conditionType
  end.

(** ** strconv and int64

    [strconv.ParseInt(s, 10, 64)], [strconv.Atoi] and
    [strconv.FormatInt(i, 10)] as the Go library documents them; [int]
    is 64 bits wide on the platforms the controller is built for. *)

Inductive NumError := ErrSyntax | ErrRange.

Definition maxUint64 : Z := 2 ^ 64 - 1.
Definition maxInt64 : Z := 2 ^ 63 - 1.
Definition minInt64 : Z := - 2 ^ 63.

(** Two's-complement wrap-around of int64 arithmetic. *)
Definition wrap64 (z : Z) : Z := (z + 2 ^ 63) mod 2 ^ 64 - 2 ^ 63.

Definition is_digit (c : ascii) : bool :=
  let n := Z.of_N (N_of_ascii c) in (48 <=? n) && (n <=? 57).

Definition digit_value (c : ascii) : Z := Z.of_N (N_of_ascii c) - 48.

(** The digit loop of [ParseUint]: it stops at the first byte that is not
    a digit (syntax error, value 0) or at the first overflow (range
    error, value [maxUint64]), whichever comes first. *)
Fixpoint ParseUint_from (n : Z) (s : string) : Z * option NumError :=
  match s with
  | EmptyString => (n, None)
  | String c s' =>
      if negb (is_digit c) then (0, Some ErrSyntax)
      else if maxUint64 / 10 + 1 <=? n then (maxUint64, Some ErrRange)
      else
        let n1 := n * 10 + digit_value c in
        if maxUint64 <? n1 then (maxUint64, Some ErrRange)
        else ParseUint_from n1 s'
  end.

Definition ParseUint (s : string) : Z * option NumError :=
  match s with
  | EmptyString => (0, Some ErrSyntax)
  | _ => ParseUint_from 0 s
  end.

Definition ParseInt (s : string) : Z * option NumError :=
  match s with
  | EmptyString => (0, Some ErrSyntax)
  | String c s' =>
      let neg := bool_decide (c = "-"%char) in
      let s1 := if bool_decide (c = "+"%char) || neg then s' else s in
      let '(un, err) := ParseUint s1 in
      match err with
      | Some ErrSyntax => (0, Some ErrSyntax)
      | _ =>
          let cutoff := 2 ^ 63 in
          if negb neg && (cutoff <=? un) then (cutoff - 1, Some ErrRange)
          else if neg && (cutoff <? un) then (- cutoff, Some ErrRange)
          else (wrap64 (if neg then - un else un), None)
      end
  end.

Definition Atoi (s : string) : Z * option NumError := ParseInt s.

Fixpoint digits_of (fuel : nat) (n : Z) (acc : string) : string :=
  match fuel with
  | O => acc
  | S fuel' =>
      let acc' := String (ascii_of_N (Z.to_N (48 + n mod 10))) acc in
      if n <? 10 then acc' else digits_of fuel' (n / 10) acc'
  end.

(** [FormatInt(i, 10)] for an int64 [i]: at most 19 digits. *)
Definition FormatInt (i : Z) : string :=
  if i <? 0 then String "-"%char (digits_of 20 (- i) "")
  else digits_of 20 i "".

(** ** The job builder *)

Definition default_annotations : gmap string string :=
  <["fencing/mode" := "flush"]>
    (<["fencing/template" := "fencing"]>
       (<["fencing/timeout" := "0"]> ∅)).

(** The keys of [default_annotations], which the first loop ranges over. *)
Definition fixed_keys : list string :=
  ["fencing/mode"; "fencing/template"; "fencing/timeout"].

(** One iteration of the first loop of [newJobForNode]. *)
Definition override_key (node : Node) (podTemplate : PodTemplate)
    (annotations : gmap string string) (k : string) : gmap string string :=
  let annotations :=
    match Annotations (tpl_meta podTemplate) !! k with
    | Some v => <[k := v]> annotations
    | None => annotations
    end in
  match Annotations (node_meta node) !! k with
  | Some v => <[k := v]> annotations
  | None => annotations
  end.

(** The annotations [newJobForNode] computes.  The second loop writes
    every pod annotation over the map, which is the left-biased union. *)
Definition job_annotations (node : Node) (podTemplate : PodTemplate)
  : gmap string string :=
  let annotations := foldl (override_key node podTemplate) default_annotations fixed_keys in
  let pod := Template podTemplate in
  let annotations := Annotations (pod_meta pod) ∪ annotations in
  let annotations := <["fencing/node" := Name (node_meta node)]> annotations in
  let annotations :=
    match Annotations (node_meta node) !! "fencing/id" with
    | Some id => <["fencing/id" := id]> annotations
    | None =>
        match Annotations (tpl_meta podTemplate) !! "fencing/id" with
        | Some id => <["fencing/id" := id]> annotations
        | None => <["fencing/id" := Name (node_meta node)]> annotations
        end
    end in
  let annotations :=
    match Annotations (node_meta node) !! "fencing/after-hook" with
    | Some afterHook => <["fencing/after-hook" := afterHook]> annotations
    | None => annotations
    end in
  match Annotations (tpl_meta podTemplate) !! "fencing/after-hook" with
  | Some afterHook => <["fencing/after-hook" := afterHook]> annotations
  | None => annotations
  end.

(** [Namespace] is the package-level variable of the source. *)
Definition newJobForNode (Namespace : string) (node : Node) (podTemplate : PodTemplate) : Job :=
  let labels : gmap string string :=
    <["node" := Name (node_meta node)]> (<["fencing" := "fence"]> ∅) in
  let annotations := job_annotations node podTemplate in
  let pod := Template podTemplate in
  let pod :=
    {| pod_meta := set_Annotations annotations (pod_meta pod);
       pod_spec := pod_spec pod |} in
  let prefix := Name (pod_meta pod) in
  let prefix := if decide (prefix = "") then "fence" else prefix in
  {| job_meta :=
       {| Name := prefix +:+ "-" +:+ Name (node_meta node);
          Namespace := Namespace;
          UID := "";
          Labels := labels;
          Annotations := annotations;
          OwnerReferences :=
            [ {| owner_APIVersion := APIVersion (node_type node);
                 owner_Kind := Kind (node_type node);
                 owner_Name := Name (node_meta node);
                 owner_UID := UID (node_meta node) |} ] |};
     job_spec := {| spec_Template := pod |};
     job_status := {| job_Conditions := [] |} |}.

(** ** The cluster and its client

    The API server is a store of nodes, pod templates and jobs.  Every
    client call is appended to [calls]; the [n]-th call of a run fails
    with a transport error when [fails n] holds, and otherwise fails only
    for the reason the store gives (not found, already exists).  The
    cache the real client reads from is taken to agree with the store. *)

Inductive ApiError := NotFound | AlreadyExists | ServerError.

(** Go's [error]: [None] is nil. *)
Definition error := option ApiError.

Definition IsNotFound (err : error) : bool :=
  match err with
  | Some NotFound => true
  | _ => false
  end.

(** A merge patch of [metadata.annotations]: [None] is JSON null and
    removes the key. *)
Definition MergePatch := list (string * option string).

Inductive Call :=
| GetNode (name : string)
| GetPodTemplate (namespace name : string)
| GetJob (namespace name : string)
| PatchNode (name : string) (patch : MergePatch)
| DeleteJob (namespace name : string)
| CreateJob (job : Job).

(** The detached goroutine of the arming phase, as it is started:
    [timer_delay] is the [remainTime] it captures, in seconds, from which
    it computes its sleep (see [timer_sleep]); once the sleep is over it
    sends [timer_patch] to the node. *)
Record Timer := {
  timer_delay : Z;
  timer_node : string;
  timer_patch : MergePatch
}.

Record Env := {
  Namespace_ : string;
  fails : nat -> bool;
  clock : nat -> Z
}.

Record World := {
  nodes : gmap string Node;
  podTemplates : gmap (string * string) PodTemplate;
  jobs : gmap (string * string) Job;
  calls : list Call;
  ticks : nat;
  timers : list Timer
}.

Definition M (A : Type) : Type := World -> A * World.

#[global] Instance M_ret : MRet M := fun A (x : A) w => (x, w).
#[global] Instance M_bind : MBind M :=
  fun A B (f : A -> M B) (m : M A) w => let '(x, w') := m w in f x w'.

Definition apply_patch_entry (a : gmap string string) (e : string * option string)
  : gmap string string :=
  match e.2 with
  | Some v => <[e.1 := v]> a
  | None => delete e.1 a
  end.

Definition apply_patch (patch : MergePatch) (a : gmap string string) : gmap string string :=
  foldl apply_patch_entry a patch.

Definition patch_node (patch : MergePatch) (node : Node) : Node :=
  {| node_type := node_type node;
     node_meta := set_Annotations (apply_patch patch (Annotations (node_meta node))) (node_meta node);
     node_status := node_status node |}.

Definition add_call (c : Call) (w : World) : World :=
  {| nodes := nodes w; podTemplates := podTemplates w; jobs := jobs w;
     calls := calls w ++ [c]; ticks := ticks w; timers := timers w |}.

Definition put_nodes (n : gmap string Node) (w : World) : World :=
  {| nodes := n; podTemplates := podTemplates w; jobs := jobs w;
     calls := calls w; ticks := ticks w; timers := timers w |}.

Definition put_jobs (j : gmap (string * string) Job) (w : World) : World :=
  {| nodes := nodes w; podTemplates := podTemplates w; jobs := j;
     calls := calls w; ticks := ticks w; timers := timers w |}.

Definition tick (w : World) : World :=
  {| nodes := nodes w; podTemplates := podTemplates w; jobs := jobs w;
     calls := calls w; ticks := S (ticks w); timers := timers w |}.

Definition add_timer (t : Timer) (w : World) : World :=
  {| nodes := nodes w; podTemplates := podTemplates w; jobs := jobs w;
     calls := calls w; ticks := ticks w; timers := timers w ++ [t] |}.

(** Record a call; the result tells whether the transport failed. *)
Definition issue (E : Env) (c : Call) : M bool :=
  fun w => (fails E (length (calls w)), add_call c w).

Definition set_nodes (n : gmap string Node) : M unit := fun w => (tt, put_nodes n w).

Definition set_jobs (j : gmap (string * string) Job) : M unit := fun w => (tt, put_jobs j w).

Definition world : M World := fun w => (w, w).

(** [client.Get] fills [obj] and returns the error; on an error [obj]
    is left as it was passed in. *)
Definition client_Get_Node (E : Env) (name : string) (obj : Node) : M (Node * error) :=
  failed ← issue E (GetNode name);
  w ← world;
  if (failed : bool) then mret (obj, Some ServerError)
  else match nodes w !! name with
       | Some n => mret (n, None)
       | None => mret (obj, Some NotFound)
       end.

Definition client_Get_PodTemplate (E : Env) (namespace name : string) (obj : PodTemplate)
  : M (PodTemplate * error) :=
  failed ← issue E (GetPodTemplate namespace name);
  w ← world;
  if (failed : bool) then mret (obj, Some ServerError)
  else match podTemplates w !! (namespace, name) with
       | Some t => mret (t, None)
       | None => mret (obj, Some NotFound)
       end.

Definition client_Get_Job (E : Env) (namespace name : string) (obj : Job) : M (Job * error) :=
  failed ← issue E (GetJob namespace name);
  w ← world;
  if (failed : bool) then mret (obj, Some ServerError)
  else match jobs w !! (namespace, name) with
       | Some j => mret (j, None)
       | None => mret (obj, Some NotFound)
       end.

(** [client.Patch] with a merge patch: the server applies it to the node
    it stores and the reply is decoded into the object passed in. *)
Definition client_Patch (E : Env) (node : Node) (patch : MergePatch) : M (Node * error) :=
  let name := Name (node_meta node) in
  failed ← issue E (PatchNode name patch);
  w ← world;
  if (failed : bool) then mret (node, Some ServerError)
  else match nodes w !! name with
       | Some n =>
           let n' := patch_node patch n in
           set_nodes (<[name := n']> (nodes w));; mret (n', None)
       | None => mret (node, Some NotFound)
       end.

Definition client_Delete_Job (E : Env) (found : Job) : M error :=
  let key := (Namespace (job_meta found), Name (job_meta found)) in
  failed ← issue E (DeleteJob key.1 key.2);
  w ← world;
  if (failed : bool) then mret (Some ServerError)
  else match jobs w !! key with
       | Some _ => set_jobs (delete key (jobs w));; mret None
       | None => mret (Some NotFound)
       end.

Definition client_Create_Job (E : Env) (job : Job) : M error :=
  let key := (Namespace (job_meta job), Name (job_meta job)) in
  failed ← issue E (CreateJob job);
  w ← world;
  if (failed : bool) then mret (Some ServerError)
  else match jobs w !! key with
       | Some _ => mret (Some AlreadyExists)
       | None => set_jobs (<[key := job]> (jobs w));; mret None
       end.

(** [time.Now().Unix()]: the next reading of the clock, as an int64. *)
Definition time_Now_Unix (E : Env) : M Z :=
  fun w => (wrap64 (clock E (ticks w)), tick w).

(** [go func() { ... }()]: the goroutine is armed, not run. *)
Definition go (t : Timer) : M unit := fun w => (tt, add_timer t w).

(** ** The reconciliation pass *)

(** [reconcile.Result]; the controller only ever returns its zero value. *)
Record Result := {
  Requeue : bool;
  RequeueAfter : Z
}.

Definition Result_zero : Result := {| Requeue := false; RequeueAfter := 0 |}.

Definition patch_recovered : MergePatch :=
  [("fencing/state", None); ("fencing/timestamp", None)].

Definition patch_pending (fencingTimestampStr : string) : MergePatch :=
  [("fencing/state", Some "pending"); ("fencing/timestamp", Some fencingTimestampStr)].

Definition patch_started : MergePatch :=
  [("fencing/state", Some "started"); ("fencing/timestamp", None)].

Definition patch_timestamp : MergePatch := [("fencing/timestamp", None)].

(** "Remove previous fencing job": the body of [if fencingState ==
    "recovered"]. *)
Definition Reconcile_recovered (E : Env) (job : Job) : M (Result * error) :=
  '(found, err) ← client_Get_Job E (Namespace (job_meta job)) (Name (job_meta job)) zero_Job;
  match err with
  | None =>
      _ ← client_Delete_Job E found;
      mret (Result_zero, None)
  | Some _ => mret (Result_zero, None)
  end.

(** The timeout string: the node's annotation, else the template's,
    else "0". *)
Definition timeout_string (node : Node) (podTemplate : PodTemplate) : string :=
  match Annotations (node_meta node) !! "fencing/timeout" with
  | Some timeoutStr => timeoutStr
  | None =>
      match Annotations (tpl_meta podTemplate) !! "fencing/timeout" with
      | Some timeoutStr => timeoutStr
      | None => "0"
      end
  end.

(** The end of the arming phase: patch [fencing/state=started]. *)
Definition arming_start (E : Env) (node : Node) : M (Result * error) :=
  '(_, err) ← client_Patch E node patch_started;
  match err with
  | Some e => mret (Result_zero, Some e)
  | None => mret (Result_zero, None)
  end.

Definition remainTime (timeout now fencingTimestamp : Z) : Z :=
  wrap64 (timeout - wrap64 (now - fencingTimestamp)).

(** "Check remainTime": wait out the rest of the timeout, or start. *)
Definition arming_check (E : Env) (node : Node) (timeout fencingTimestamp : Z)
  : M (Result * error) :=
  now ← time_Now_Unix E;
  let remainTime := remainTime timeout now fencingTimestamp in
  if 0 <? remainTime then
    go {| timer_delay := remainTime; timer_node := Name (node_meta node);
          timer_patch := patch_timestamp |};;
    mret (Result_zero, None)
  else arming_start E node.

(** "Fencing procedure is not started yet": the body of
    [if fencingState != "started"]. *)
Definition Reconcile_arming (E : Env) (node : Node) (podTemplate : PodTemplate)
    (fencingState : string) : M (Result * error) :=
  let timeoutStr := timeout_string node podTemplate in
  let '(timeout, err) := Atoi timeoutStr in
  match err with
  | Some _ => mret (Result_zero, None)
  | None =>
      if 0 <? timeout then
        let fencingTimestampStr := index (Annotations (node_meta node)) "fencing/timestamp" in
        let '(fencingTimestamp, _) := ParseInt fencingTimestampStr in
        if bool_decide (fencingState = "") && (fencingTimestamp =? 0) then
          fencingTimestamp ← time_Now_Unix E;
          let fencingTimestampStr := FormatInt fencingTimestamp in
          '(node, err) ← client_Patch E node (patch_pending fencingTimestampStr);
          match err with
          | Some e => mret (Result_zero, Some e)
          | None => arming_check E node timeout fencingTimestamp
          end
        else arming_check E node timeout fencingTimestamp
      else arming_start E node
  end.

(** "Fencing procedure started": the rest of [Reconcile]. *)
Definition Reconcile_execution (E : Env) (job : Job) : M (Result * error) :=
  '(found, err) ← client_Get_Job E (Namespace (job_meta job)) (Name (job_meta job)) zero_Job;
  let create : M (Result * error) :=
    err ← client_Create_Job E job;
    match err with
    | Some e => mret (Result_zero, Some e)
    | None => mret (Result_zero, None)
    end in
  match err with
  | Some e =>
      if negb (IsNotFound err) then mret (Result_zero, Some e)
      else create
  | None =>
      let '(_, jc) := GetJobCondition (Some (job_status found)) JobComplete in
      let '(_, jf) := GetJobCondition (Some (job_status found)) JobFailed in
      match jc, jf with
      | None, None => mret (Result_zero, None)
      | _, _ =>
          err ← client_Delete_Job E found;
          match err with
          | Some e => mret (Result_zero, Some e)
          | None => create
          end
      end
  end.

(** From "Define a new Job object" to the end of [Reconcile]: what the
    pass does once it holds the node, its fencing state and the pod
    template. *)
Definition Reconcile_fence (E : Env) (node : Node) (podTemplate : PodTemplate)
    (fencingState : string) : M (Result * error) :=
  let job := newJobForNode (Namespace_ E) node podTemplate in
  if bool_decide (fencingState = "recovered") then Reconcile_recovered E job
  else if bool_decide (index (Annotations (node_meta node)) "fencing/enabled" ≠ "true")
  then mret (Result_zero, None)
  else if bool_decide (fencingState ≠ "started")
  then Reconcile_arming E node podTemplate fencingState
  else Reconcile_execution E job.

Definition Reconcile (E : Env) (request : string) : M (Result * error) :=
  '(node, err) ← client_Get_Node E request zero_Node;
  match err with
  | Some e =>
      if IsNotFound err then mret (Result_zero, None)
      else mret (Result_zero, Some e)
  | None =>
      let fencingState := index (Annotations (node_meta node)) "fencing/state" in
      let '(_, c) := GetNodeCondition (Some (node_status node)) NodeReady in
      match c with
      | None => mret (Result_zero, None)
      | Some c =>
          '(node, fencingState) ←
            (if bool_decide (Status c = ConditionTrue) then
               if bool_decide (fencingState = "pending")
                  || bool_decide (fencingState = "fenced")
               then
                 '(node, _) ← client_Patch E node patch_recovered;
                 mret (node, "recovered")
               else mret (node, fencingState)
             else mret (node, fencingState));
          if bool_decide (fencingState = "fenced") then mret (Result_zero, None)
          else if bool_decide (fencingState ≠ "recovered")
                  && bool_decide (Reason c ≠ "NodeStatusUnknown")
          then mret (Result_zero, None)
          else
            let templateName :=
              default "fencing" (Annotations (node_meta node) !! "fencing/template") in
            '(podTemplate, err) ←
              client_Get_PodTemplate E (Namespace_ E) templateName zero_PodTemplate;
            if IsNotFound err then mret (Result_zero, None)
            else Reconcile_fence E node podTemplate fencingState
      end
  end.

(** ** Vocabulary of the statements *)

(** No client call fails for a reason of the transport. *)
Definition reliable (E : Env) : Prop := forall n, fails E n = false.

Definition fencing_state (node : Node) : string :=
  index (Annotations (node_meta node)) "fencing/state".

Definition ready_condition (node : Node) : option NodeCondition :=
  (GetNodeCondition (Some (node_status node)) NodeReady).2.

Definition template_name (node : Node) : string :=
  default "fencing" (Annotations (node_meta node) !! "fencing/template").

(** The deterministic name of the node's remediation job. *)
Definition job_name (node : Node) (podTemplate : PodTemplate) : string :=
  (if decide (Name (pod_meta (Template podTemplate)) = "") then "fence"
   else Name (pod_meta (Template podTemplate)))
  +:+ "-" +:+ Name (node_meta node).

Definition is_write (c : Call) : bool :=
  match c with
  | PatchNode _ _ | DeleteJob _ _ | CreateJob _ => true
  | _ => false
  end.

(** The calls a run from [w] to [w'] has issued. *)
Definition new_calls (w w' : World) : list Call := drop (length (calls w)) (calls w').

(** Every stored job sits under its own namespace and name. *)
Definition jobs_wf (w : World) : Prop :=
  map_Forall (fun k j => (Namespace (job_meta j), Name (job_meta j)) = k) (jobs w).

(** A computation keeps an invariant of the cluster. *)
Definition preserves {A : Type} (P : World -> Prop) (m : M A) : Prop :=
  forall w, P w -> P (m w).2.

(** The job reports a Complete or a Failed condition. *)
Definition job_finished (found : Job) : bool :=
  bool_decide (is_Some (GetJobCondition (Some (job_status found)) JobComplete).2)
  || bool_decide (is_Some (GetJobCondition (Some (job_status found)) JobFailed).2).

(** The timestamp the arming phase reads off the node: [ParseInt]'s
    value, its error dropped. *)
Definition parsed_timestamp (node : Node) : Z :=
  (ParseInt (index (Annotations (node_meta node)) "fencing/timestamp")).1.

(** The template a pass holds after its second call, the fetch of the
    template: the stored one; the zero value when the transport fails;
    none, and the pass stops, when the store has none. *)
Definition fetched_template (E : Env) (w : World) (node : Node) : option PodTemplate :=
  if fails E (S (length (calls w))) then Some zero_PodTemplate
  else podTemplates w !! (Namespace_ E, template_name node).

(** ** A sample cluster

    One node, at most one pod template in the controller's namespace
    ["fencing"], and some jobs; used to run the pass on concrete input. *)

Definition sample_node (name : string) (annotations : list (string * string))
    (status reason : string) : Node :=
  {| node_type := {| Kind := "Node"; APIVersion := "v1" |};
     node_meta :=
       {| Name := name; Namespace := ""; UID := "5f1c"; Labels := ∅;
          Annotations := list_to_map annotations; OwnerReferences := [] |};
     node_status :=
       {| Conditions :=
            [ {| Type_ := "MemoryPressure"; Status := "False";
                 Reason := "KubeletHasSufficientMemory" |};
              {| Type_ := "Ready"; Status := status; Reason := reason |} ] |} |}.

Definition sample_template (annotations : list (string * string)) (podName : string)
    (podAnnotations : list (string * string)) : PodTemplate :=
  {| tpl_meta :=
       {| Name := "fencing"; Namespace := "fencing"; UID := ""; Labels := ∅;
          Annotations := list_to_map annotations; OwnerReferences := [] |};
     Template :=
       {| pod_meta :=
            {| Name := podName; Namespace := ""; UID := ""; Labels := ∅;
               Annotations := list_to_map podAnnotations; OwnerReferences := [] |};
          pod_spec := {| pod_payload := "fence-agent" |} |} |}.

Definition sample_job (name : string) (conditions : list string) : Job :=
  {| job_meta :=
       {| Name := name; Namespace := "fencing"; UID := ""; Labels := ∅;
          Annotations := ∅; OwnerReferences := [] |};
     job_spec := {| spec_Template := zero_PodTemplateSpec |};
     job_status :=
       {| job_Conditions :=
            (fun t => {| job_cond_Type := t; job_cond_Status := "True" |}) <$> conditions |} |}.

(** A client that never fails, with the clock stopped at [now]. *)
Definition sample_env (now : Z) : Env :=
  {| Namespace_ := "fencing"; fails := fun _ => false; clock := fun _ => now |}.

(** A client whose [k]-th call fails. *)
Definition flaky_env (k : nat) : Env :=
  {| Namespace_ := "fencing"; fails := fun n => bool_decide (n = k); clock := fun _ => 1000 |}.

Definition sample_world (node : Node) (templates : list PodTemplate) (js : list Job) : World :=
  {| nodes := {[ Name (node_meta node) := node ]};
     podTemplates :=
       list_to_map ((fun t => ((Namespace (tpl_meta t), Name (tpl_meta t)), t)) <$> templates);
     jobs := list_to_map ((fun j => ((Namespace (job_meta j), Name (job_meta j)), j)) <$> js);
     calls := []; ticks := 0; timers := [] |}.

Definition lost_node (annotations : list (string * string)) : Node :=
  sample_node "n1" annotations "Unknown" "NodeStatusUnknown".

Definition ready_node (annotations : list (string * string)) : Node :=
  sample_node "n1" annotations "True" "KubeletReady".

Definition plain_template : PodTemplate := sample_template [] "" [].

(** A node that came back while its fencing was pending, with the job
    of an earlier attempt still around. *)
Definition recovering_node : Node :=
  ready_node [("fencing/enabled", "true"); ("fencing/state", "pending");
              ("fencing/timestamp", "990")].

Definition recovering_world : World :=
  sample_world recovering_node [plain_template] [sample_job "fence-n1" ["Failed"]].

(** A lost node with fencing enabled and no timeout. *)
Definition lost_world : World :=
  sample_world (lost_node [("fencing/enabled", "true")]) [plain_template] [].

(** A lost node being fenced, next to the job [conditions] describes. *)
Definition started_node : Node :=
  lost_node [("fencing/enabled", "true"); ("fencing/state", "started")].

Definition started_world (conditions : list string) : World :=
  sample_world started_node [plain_template] [sample_job "fence-n1" conditions].

(** A lost node with a timeout of 60 seconds: first seen, then pending
    since second 1000. *)
Definition timed_node : Node :=
  lost_node [("fencing/enabled", "true"); ("fencing/timeout", "60")].

Definition pending_node : Node :=
  lost_node [("fencing/enabled", "true"); ("fencing/timeout", "60");
             ("fencing/state", "pending"); ("fencing/timestamp", "1000")].

(** A lost node whose timeout does not parse. *)
Definition garbled_node : Node :=
  lost_node [("fencing/enabled", "true"); ("fencing/timeout", "1m")].

(** ** Vocabulary of the further properties *)

(** From a cluster satisfying [P] the computation ends in one
    satisfying [Q]. *)
Definition leads {A : Type} (P Q : World -> Prop) (m : M A) : Prop :=
  forall w, P w -> Q (m w).2.

(** The computation only appends calls, each of them satisfying [ok]. *)
Definition issues {A : Type} (ok : Call -> Prop) (m : M A) : Prop :=
  forall w, exists l, calls (m w).2 = calls w ++ l /\ Forall ok l.

(** A patch that touches only [fencing/state] and [fencing/timestamp],
    and sets the state to nothing but "pending" or "started". *)
Definition fencing_patch (patch : MergePatch) : Prop :=
  Forall (fun e => (e.1 = "fencing/state"
                    /\ (e.2 = None \/ e.2 = Some "pending" \/ e.2 = Some "started"))
                   \/ e.1 = "fencing/timestamp") patch.

(** What a pass may send: patches of the fencing annotations, and
    template and job requests in the controller's namespace. *)
Definition pass_call (E : Env) (c : Call) : Prop :=
  match c with
  | PatchNode _ patch => fencing_patch patch
  | GetPodTemplate namespace _ | GetJob namespace _ => namespace = Namespace_ E
  | CreateJob job => Namespace (job_meta job) = Namespace_ E
  | GetNode _ | DeleteJob _ _ => True
  end.

(** [n'] is [n] up to the annotations [fencing/state] and
    [fencing/timestamp]. *)
Definition same_but_fencing (n n' : Node) : Prop :=
  node_type n' = node_type n
  /\ node_status n' = node_status n
  /\ Name (node_meta n') = Name (node_meta n)
  /\ Namespace (node_meta n') = Namespace (node_meta n)
  /\ UID (node_meta n') = UID (node_meta n)
  /\ Labels (node_meta n') = Labels (node_meta n)
  /\ OwnerReferences (node_meta n') = OwnerReferences (node_meta n)
  /\ forall k, k ≠ "fencing/state" -> k ≠ "fencing/timestamp" ->
               Annotations (node_meta n') !! k = Annotations (node_meta n) !! k.

(** The same nodes, each up to its fencing annotations. *)
Definition nodes_same_but_fencing (m m' : gmap string Node) : Prop :=
  forall k, match m !! k, m' !! k with
            | Some n, Some n' => same_but_fencing n n'
            | None, None => True
            | _, _ => False
            end.

(** Every stored node sits under its own name. *)
Definition nodes_wf (w : World) : Prop :=
  map_Forall (fun k n => Name (node_meta n) = k) (nodes w).

(** The two stores agree on every job but the one under [key]. *)
Definition jobs_agree_off (key : string * string) (j j' : gmap (string * string) Job) : Prop :=
  forall k, k ≠ key -> j' !! k = j !! k.

(** An invariant that looks neither at the calls, nor at the clock, nor
    at the timers. *)
Definition frame_stable (P : World -> Prop) : Prop :=
  (forall c w, P w -> P (add_call c w))
  /\ (forall w, P w -> P (tick w))
  /\ (forall t w, P w -> P (add_timer t w)).

(** An invariant that outlives a fencing patch of a stored node. *)
Definition patch_stable (P : World -> Prop) : Prop :=
  forall patch name n w,
    fencing_patch patch -> nodes w !! name = Some n -> P w ->
    P (put_nodes (<[name := patch_node patch n]> (nodes w)) w).

(** An invariant that outlives the deletion of a stored job and the
    creation of a job under its own name. *)
Definition jobs_stable (P : World -> Prop) : Prop :=
  (forall key w, is_Some (jobs w !! key) -> P w -> P (put_jobs (delete key (jobs w)) w))
  /\ (forall job w,
        jobs w !! (Namespace (job_meta job), Name (job_meta job)) = None -> P w ->
        P (put_jobs (<[(Namespace (job_meta job), Name (job_meta job)) := job]> (jobs w)) w)).

(** [time.Second]: a [time.Duration] counts nanoseconds in an int64. *)
Definition time_Second : Z := 1000000000.

(** The sleep of the goroutine, [time.Duration(remainTime) *
    time.Second]: an int64 product, which wraps around once [remainTime]
    is above 9223372036. *)
Definition timer_sleep (t : Timer) : Z := wrap64 (timer_delay t * time_Second).


(** A node without a Ready condition. *)
Definition unreported_node : Node :=
  {| node_type := {| Kind := "Node"; APIVersion := "v1" |};
     node_meta :=
       {| Name := "n1"; Namespace := ""; UID := "5f1c"; Labels := ∅;
          Annotations := {[ "fencing/enabled" := "true" ]}; OwnerReferences := [] |};
     node_status :=
       {| Conditions :=
            [ {| Type_ := "MemoryPressure"; Status := "False";
                 Reason := "KubeletHasSufficientMemory" |} ] |} |}.

(** A client that never fails, whose clock gives [readings] in turn. *)
Definition clock_env (readings : list Z) : Env :=
  {| Namespace_ := "fencing"; fails := fun _ => false;
     clock := fun n => default 0 (readings !! n) |}.

(** * Properties *)

(** ** strconv *)

Example ParseInt_plain : ParseInt "60" = (60, None).
Proof. reflexivity. Qed.

Example ParseInt_signed : ParseInt "-15" = (-15, None) /\ ParseInt "+7" = (7, None).
Proof. split; reflexivity. Qed.

Example ParseInt_syntax :
  ParseInt "" = (0, Some ErrSyntax) /\ ParseInt "1m" = (0, Some ErrSyntax)
  /\ ParseInt "-" = (0, Some ErrSyntax) /\ ParseInt "1_000" = (0, Some ErrSyntax).
Proof. repeat split; reflexivity. Qed.

Example ParseInt_range :
  ParseInt "9223372036854775808" = (maxInt64, Some ErrRange)
  /\ ParseInt "-9223372036854775809" = (minInt64, Some ErrRange)
  /\ ParseInt "-9223372036854775808" = (minInt64, None).
Proof. repeat split; reflexivity. Qed.

Example FormatInt_samples :
  FormatInt 0 = "0" /\ FormatInt 1700000000 = "1700000000" /\ FormatInt (-15) = "-15"
  /\ FormatInt minInt64 = "-9223372036854775808".
Proof. repeat split; reflexivity. Qed.

Lemma wrap64_range (z : Z) : minInt64 <= wrap64 z <= maxInt64.
Proof.
  unfold wrap64, minInt64, maxInt64.
  pose proof (Z.mod_pos_bound (z + 2 ^ 63) (2 ^ 64) ltac:(lia)). lia.
Qed.

Lemma wrap64_small (z : Z) : minInt64 <= z <= maxInt64 -> wrap64 z = z.
Proof.
  unfold wrap64, minInt64, maxInt64. intros Hz.
  rewrite Z.mod_small by lia. lia.
Qed.

Lemma digit_char (r : Z) :
  0 <= r < 10 ->
  let ch := ascii_of_N (Z.to_N (48 + r)) in
  is_digit ch = true /\ digit_value ch = r /\ ch ≠ "+"%char /\ ch ≠ "-"%char.
Proof.
  intros Hr.
  assert (r = 0 \/ r = 1 \/ r = 2 \/ r = 3 \/ r = 4 \/ r = 5 \/ r = 6 \/ r = 7 \/ r = 8 \/ r = 9)
    as Hcases by lia.
  destruct Hcases as [->|[->|[->|[->|[->|[->|[->|[->|[->| ->]]]]]]]]];
    by repeat split.
Qed.

(** Reading back the digits [digits_of] writes in front of [acc]. *)
Lemma ParseUint_from_digits (fuel : nat) (n : Z) (acc : string) :
  0 <= n <= maxUint64 -> n < 10 ^ Z.of_nat fuel ->
  ParseUint_from 0 (digits_of fuel n acc) = ParseUint_from n acc.
Proof.
  revert n acc. induction fuel as [|fuel IH]; intros n acc Hn Hfuel.
  { cbn in Hfuel. assert (n = 0) as -> by lia. done. }
  cbn [digits_of].
  destruct (digit_char (n mod 10) (Z.mod_pos_bound n 10 ltac:(lia))) as (Hd & Hv & _).
  assert (maxUint64 = 18446744073709551615) as Hmax by reflexivity.
  assert (maxUint64 / 10 + 1 = 1844674407370955162) as Hcut by reflexivity.
  destruct (n <? 10) eqn:Hlt.
  - apply Z.ltb_lt in Hlt. rewrite Z.mod_small in * by lia.
    cbn [ParseUint_from]. rewrite Hd, Hv. cbn [negb].
    rewrite Hcut, (proj2 (Z.leb_gt _ _)) by lia.
    cbv zeta. rewrite (proj2 (Z.ltb_ge _ _)) by lia. done.
  - apply Z.ltb_ge in Hlt.
    pose proof (Z.div_mod n 10 ltac:(lia)) as Hdm.
    pose proof (Z.mod_pos_bound n 10 ltac:(lia)) as Hmod.
    rewrite IH.
    + cbn [ParseUint_from]. rewrite Hd, Hv. cbn [negb].
      rewrite Hcut, (proj2 (Z.leb_gt _ _)) by lia.
      cbv zeta. rewrite (proj2 (Z.ltb_ge _ _)) by lia.
      f_equal. lia.
    + lia.
    + rewrite Nat2Z.inj_succ, Z.pow_succ_r in Hfuel by lia. lia.
Qed.

Lemma digits_of_head (fuel : nat) (n : Z) (acc : string) :
  exists ch rest,
    digits_of (S fuel) n acc = String ch rest /\ ch ≠ "+"%char /\ ch ≠ "-"%char.
Proof.
  revert n acc. induction fuel as [|fuel IH]; intros n acc.
  - destruct (digit_char (n mod 10) (Z.mod_pos_bound n 10 ltac:(lia))) as (_ & _ & Hp & Hm).
    cbn [digits_of]. destruct (n <? 10); eauto.
  - destruct (digit_char (n mod 10) (Z.mod_pos_bound n 10 ltac:(lia))) as (_ & _ & Hp & Hm).
    change (digits_of (S (S fuel)) n acc)
      with (let acc' := String (ascii_of_N (Z.to_N (48 + n mod 10))) acc in
            if n <? 10 then acc' else digits_of (S fuel) (n / 10) acc').
    cbv zeta. destruct (n <? 10); eauto.
Qed.

Lemma ParseUint_digits (n : Z) :
  0 <= n <= maxUint64 -> ParseUint (digits_of 20 n "") = (n, None).
Proof.
  intros Hn. destruct (digits_of_head 19 n "") as (ch & rest & Heq & _).
  unfold ParseUint. rewrite Heq, <- Heq.
  rewrite ParseUint_from_digits; [done|done|].
  assert (maxUint64 = 18446744073709551615) as Hmax by reflexivity.
  change (10 ^ Z.of_nat 20) with 100000000000000000000. lia.
Qed.

(** What [FormatInt] writes, [ParseInt] reads back: the timestamp the
    arming phase records is the one a later pass computes with. *)
Lemma ParseInt_FormatInt (i : Z) :
  minInt64 <= i <= maxInt64 -> ParseInt (FormatInt i) = (i, None).
Proof.
  intros Hi.
  assert (minInt64 = -9223372036854775808) as Hmin by reflexivity.
  assert (maxInt64 = 9223372036854775807) as Hmax by reflexivity.
  assert (maxUint64 = 18446744073709551615) as Humax by reflexivity.
  assert (2 ^ 63 = 9223372036854775808) as Hcut by reflexivity.
  unfold FormatInt. destruct (i <? 0) eqn:Hneg.
  - apply Z.ltb_lt in Hneg. unfold ParseInt.
    rewrite (bool_decide_eq_true_2 ("-"%char = "-"%char)) by done.
    rewrite orb_true_r, ParseUint_digits by lia. cbv zeta iota beta.
    rewrite Hcut. cbn [negb andb].
    rewrite (proj2 (Z.ltb_ge _ _)) by lia.
    rewrite wrap64_small by lia. f_equal. lia.
  - apply Z.ltb_ge in Hneg.
    destruct (digits_of_head 19 i "") as (ch & rest & Heq & Hp & Hm).
    unfold ParseInt. rewrite Heq.
    rewrite (bool_decide_eq_false_2 _ Hp), (bool_decide_eq_false_2 _ Hm). cbn [orb].
    rewrite <- Heq, ParseUint_digits by lia. cbv zeta iota beta.
    rewrite Hcut. cbn [negb andb].
    rewrite (proj2 (Z.leb_gt _ _)) by lia.
    by rewrite wrap64_small by lia.
Qed.

(** ** The job builder *)

(** Close a decidable goal over concrete data by evaluation. *)
Ltac by_compute := apply (bool_decide_unpack _); vm_compute; exact I.

Section JobBuilder.
Variables (ns : string) (node : Node) (podTemplate : PodTemplate).

Lemma override_key_same (a : gmap string string) (k : string) :
  override_key node podTemplate a k !! k
  = match Annotations (node_meta node) !! k with
    | Some v => Some v
    | None => match Annotations (tpl_meta podTemplate) !! k with Some v => Some v | None => a !! k end
    end.
Proof.
  unfold override_key.
  destruct (Annotations (node_meta node) !! k), (Annotations (tpl_meta podTemplate) !! k);
    by simplify_map_eq.
Qed.

Lemma override_key_other (a : gmap string string) (k k' : string) :
  k' ≠ k -> override_key node podTemplate a k' !! k = a !! k.
Proof.
  intros Hne. unfold override_key.
  destruct (Annotations (node_meta node) !! k'), (Annotations (tpl_meta podTemplate) !! k');
    by simplify_map_eq.
Qed.

Lemma overrides_not_in (ks : list string) (a : gmap string string) (k : string) :
  k ∉ ks -> foldl (override_key node podTemplate) a ks !! k = a !! k.
Proof.
  revert a. induction ks as [|k' ks IH]; intros a Hk; [done|].
  apply not_elem_of_cons in Hk as [Hne Hk]. cbn [foldl].
  rewrite IH by done. by apply override_key_other.
Qed.

Lemma overrides_in (ks : list string) (a : gmap string string) (k : string) :
  NoDup ks -> k ∈ ks ->
  foldl (override_key node podTemplate) a ks !! k
  = match Annotations (node_meta node) !! k with
    | Some v => Some v
    | None => match Annotations (tpl_meta podTemplate) !! k with Some v => Some v | None => a !! k end
    end.
Proof.
  revert a. induction ks as [|k' ks IH]; intros a Hnd Hk.
  { by apply elem_of_nil in Hk. }
  apply NoDup_cons in Hnd as [Hk' Hnd]. cbn [foldl].
  destruct (decide (k = k')) as [->|Hne].
  - rewrite overrides_not_in by done. apply override_key_same.
  - apply elem_of_cons in Hk as [?|Hk]; [done|].
    rewrite IH by done. by rewrite override_key_other.
Qed.

Lemma fixed_keys_NoDup : NoDup fixed_keys.
Proof. by_compute. Qed.

(** The map as it stands after the two loops, before the forced keys. *)
Lemma job_annotations_lookup (k : string) :
  k ≠ "fencing/node" -> k ≠ "fencing/id" -> k ≠ "fencing/after-hook" ->
  job_annotations node podTemplate !! k
  = match Annotations (pod_meta (Template podTemplate)) !! k with
    | Some v => Some v
    | None => foldl (override_key node podTemplate) default_annotations fixed_keys !! k
    end.
Proof.
  intros Hn Hi Ha. unfold job_annotations.
  repeat match goal with
         | |- context [match Annotations ?m !! ?s with _ => _ end] =>
             destruct (Annotations m !! s) eqn:?
         end;
    rewrite ?lookup_insert_ne by done;
    rewrite lookup_union;
    repeat match goal with H : _ !! k = _ |- _ => rewrite H end;
    by destruct (foldl _ _ _ !! k).
Qed.

Lemma job_annotations_fixed (k d : string) :
  k ∈ fixed_keys -> default_annotations !! k = Some d ->
  job_annotations node podTemplate !! k
  = Some (default (default (default d (Annotations (tpl_meta podTemplate) !! k)) (Annotations (node_meta node) !! k)) (Annotations (pod_meta (Template podTemplate)) !! k)).
Proof.
  intros Hk Hd.
  rewrite job_annotations_lookup.
  - rewrite (overrides_in _ _ _ fixed_keys_NoDup Hk), Hd.
    by destruct (Annotations (pod_meta (Template podTemplate)) !! k), (Annotations (node_meta node) !! k), (Annotations (tpl_meta podTemplate) !! k).
  - intros ->. revert Hk. by_compute.
  - intros ->. revert Hk. by_compute.
  - intros ->. revert Hk. by_compute.
Qed.

Lemma job_annotations_node :
  job_annotations node podTemplate !! "fencing/node" = Some (Name (node_meta node)).
Proof.
  unfold job_annotations.
  repeat match goal with
         | |- context [match Annotations ?m !! ?s with _ => _ end] =>
             destruct (Annotations m !! s)
         end;
    by simplify_map_eq.
Qed.

Lemma job_annotations_id :
  job_annotations node podTemplate !! "fencing/id"
  = Some (default (default (Name (node_meta node)) (Annotations (tpl_meta podTemplate) !! "fencing/id"))
                  (Annotations (node_meta node) !! "fencing/id")).
Proof.
  unfold job_annotations.
  repeat match goal with
         | |- context [match Annotations ?m !! ?s with _ => _ end] =>
             destruct (Annotations m !! s)
         end;
    by simplify_map_eq.
Qed.

Lemma job_annotations_after_hook :
  job_annotations node podTemplate !! "fencing/after-hook"
  = match Annotations (tpl_meta podTemplate) !! "fencing/after-hook" with
    | Some v => Some v
    | None =>
        match Annotations (node_meta node) !! "fencing/after-hook" with
        | Some v => Some v
        | None => Annotations (pod_meta (Template podTemplate)) !! "fencing/after-hook"
        end
    end.
Proof.
  unfold job_annotations.
  destruct (Annotations (tpl_meta podTemplate) !! "fencing/after-hook");
    destruct (Annotations (node_meta node) !! "fencing/after-hook");
    rewrite ?lookup_insert_eq; try done.
  repeat match goal with
         | |- context [match Annotations ?m !! ?s with _ => _ end !! _] =>
             destruct (Annotations m !! s)
         end;
    rewrite ?lookup_insert_ne by done;
    rewrite lookup_union, overrides_not_in by by_compute;
    by destruct (Annotations (pod_meta (Template podTemplate)) !! "fencing/after-hook").
Qed.

Lemma newJobForNode_name :
  Name (job_meta (newJobForNode ns node podTemplate))
  = (if decide (Name (pod_meta (Template podTemplate)) = "") then "fence"
     else Name (pod_meta (Template podTemplate)))
    +:+ "-" +:+ Name (node_meta node).
Proof. reflexivity. Qed.

Lemma newJobForNode_annotations :
  Annotations (job_meta (newJobForNode ns node podTemplate))
  = job_annotations node podTemplate.
Proof. reflexivity. Qed.

Lemma newJobForNode_namespace :
  Namespace (job_meta (newJobForNode ns node podTemplate)) = ns.
Proof. reflexivity. Qed.

End JobBuilder.



(** C7. In the job [newJobForNode] builds, each of [fencing/mode],
    [fencing/template] and [fencing/timeout] holds the default literal,
    overridden by the template's annotation, overridden by the node's,
    overridden last by the annotation of the template's pod; then
    [fencing/node] is the node's name and [fencing/id] is the node's
    [fencing/id], else the template's, else the node's name, whatever
    the pod's annotations say.  The job and the pod it embeds carry
    the same annotations. *)
Theorem job_annotation_precedence (ns : string) (node : Node) (podTemplate : PodTemplate) :
  let job := newJobForNode ns node podTemplate in
  let node_ann := Annotations (node_meta node) in
  let tpl_ann := Annotations (tpl_meta podTemplate) in
  let pod_ann := Annotations (pod_meta (Template podTemplate)) in
  let resolved k d :=
    default (default (default d (tpl_ann !! k)) (node_ann !! k)) (pod_ann !! k) in
  Annotations (job_meta job) !! "fencing/mode" = Some (resolved "fencing/mode" "flush")
  /\ Annotations (job_meta job) !! "fencing/template"
     = Some (resolved "fencing/template" "fencing")
  /\ Annotations (job_meta job) !! "fencing/timeout" = Some (resolved "fencing/timeout" "0")
  /\ Annotations (job_meta job) !! "fencing/node" = Some (Name (node_meta node))
  /\ Annotations (job_meta job) !! "fencing/id"
     = Some (default (default (Name (node_meta node)) (tpl_ann !! "fencing/id"))
                     (node_ann !! "fencing/id"))
  /\ Annotations (pod_meta (spec_Template (job_spec job))) = Annotations (job_meta job).
Proof.
  cbv zeta.
  cbn [newJobForNode job_meta job_spec spec_Template pod_meta Annotations set_Annotations].
  split_and!.
  - by apply job_annotations_fixed; [by_compute|].
  - by apply job_annotations_fixed; [by_compute|].
  - by apply job_annotations_fixed; [by_compute|].
  - apply job_annotations_node.
  - apply job_annotations_id.
  - done.
Qed.

(** C8. For [fencing/after-hook] the precedence is the other way
    round.  The node's value is written first and the template's value
    is written over it whenever the template defines one: the job has
    the template's value if there is one, whatever the node carries;
    else the node's value if there is one; else what the annotations of
    the template's pod give.  So when node and template both carry the
    annotation, the job has the template's value. *)
Theorem after_hook_template_wins (ns : string) (node : Node) (podTemplate : PodTemplate) :
  Annotations (job_meta (newJobForNode ns node podTemplate)) !! "fencing/after-hook"
  = match Annotations (tpl_meta podTemplate) !! "fencing/after-hook" with
    | Some v' => Some v'
    | None =>
        match Annotations (node_meta node) !! "fencing/after-hook" with
        | Some v => Some v
        | None => Annotations (pod_meta (Template podTemplate)) !! "fencing/after-hook"
        end
    end.
Proof.
  cbn [newJobForNode job_meta Annotations]. apply job_annotations_after_hook.
Qed.

(** A job built from a node and a template that both carry
    [fencing/after-hook]: the template's value is the one it has. *)
Example after_hook_on_node_and_template :
  Annotations
    (job_meta
       (newJobForNode "fencing" (lost_node [("fencing/after-hook", "notify")])
          (sample_template [("fencing/after-hook", "fencing-after")] "" [])))
  !! "fencing/after-hook" = Some "fencing-after".
Proof. vm_compute. reflexivity. Qed.

(** The node's value is copied when the template has none, even over
    the value of the template's pod. *)
Example after_hook_on_node_only :
  Annotations
    (job_meta
       (newJobForNode "fencing" (lost_node [("fencing/after-hook", "notify")])
          (sample_template [] "" [("fencing/after-hook", "pod-hook")])))
  !! "fencing/after-hook" = Some "notify".
Proof. vm_compute. reflexivity. Qed.

(** ** The client *)

Section Client.
Variable E : Env.

Lemma client_Get_Node_run (name : string) (obj : Node) (w : World) :
  client_Get_Node E name obj w
  = (if fails E (length (calls w)) then (obj, Some ServerError)
     else match nodes w !! name with
          | Some n => (n, None)
          | None => (obj, Some NotFound)
          end,
     add_call (GetNode name) w).
Proof.
  unfold client_Get_Node, issue, world, mbind, M_bind, mret, M_ret.
  destruct (fails E _); [done|]. cbn. by destruct (nodes w !! name).
Qed.

Lemma client_Get_PodTemplate_run (namespace name : string) (obj : PodTemplate) (w : World) :
  client_Get_PodTemplate E namespace name obj w
  = (if fails E (length (calls w)) then (obj, Some ServerError)
     else match podTemplates w !! (namespace, name) with
          | Some t => (t, None)
          | None => (obj, Some NotFound)
          end,
     add_call (GetPodTemplate namespace name) w).
Proof.
  unfold client_Get_PodTemplate, issue, world, mbind, M_bind, mret, M_ret.
  destruct (fails E _); [done|]. cbn. by destruct (podTemplates w !! _).
Qed.

Lemma client_Get_Job_run (namespace name : string) (obj : Job) (w : World) :
  client_Get_Job E namespace name obj w
  = (if fails E (length (calls w)) then (obj, Some ServerError)
     else match jobs w !! (namespace, name) with
          | Some j => (j, None)
          | None => (obj, Some NotFound)
          end,
     add_call (GetJob namespace name) w).
Proof.
  unfold client_Get_Job, issue, world, mbind, M_bind, mret, M_ret.
  destruct (fails E _); [done|]. cbn. by destruct (jobs w !! _).
Qed.

Lemma client_Patch_run (node : Node) (patch : MergePatch) (w : World) :
  client_Patch E node patch w
  = let name := Name (node_meta node) in
    let w1 := add_call (PatchNode name patch) w in
    if fails E (length (calls w)) then ((node, Some ServerError), w1)
    else match nodes w !! name with
         | Some n =>
             ((patch_node patch n, None),
              put_nodes (<[name := patch_node patch n]> (nodes w)) w1)
         | None => ((node, Some NotFound), w1)
         end.
Proof.
  unfold client_Patch, issue, world, set_nodes, mbind, M_bind, mret, M_ret.
  destruct (fails E _); [done|]. cbn. by destruct (nodes w !! _).
Qed.

Lemma client_Delete_Job_run (found : Job) (w : World) :
  client_Delete_Job E found w
  = let key := (Namespace (job_meta found), Name (job_meta found)) in
    let w1 := add_call (DeleteJob key.1 key.2) w in
    if fails E (length (calls w)) then (Some ServerError, w1)
    else match jobs w !! key with
         | Some _ => (None, put_jobs (delete key (jobs w)) w1)
         | None => (Some NotFound, w1)
         end.
Proof.
  unfold client_Delete_Job, issue, world, set_jobs, mbind, M_bind, mret, M_ret.
  destruct (fails E _); [done|]. cbn. by destruct (jobs w !! _).
Qed.

Lemma client_Create_Job_run (job : Job) (w : World) :
  client_Create_Job E job w
  = let key := (Namespace (job_meta job), Name (job_meta job)) in
    let w1 := add_call (CreateJob job) w in
    if fails E (length (calls w)) then (Some ServerError, w1)
    else match jobs w !! key with
         | Some _ => (Some AlreadyExists, w1)
         | None => (None, put_jobs (<[key := job]> (jobs w)) w1)
         end.
Proof.
  unfold client_Create_Job, issue, world, set_jobs, mbind, M_bind, mret, M_ret.
  destruct (fails E _); [done|]. cbn. by destruct (jobs w !! _).
Qed.

End Client.

(** ** The pass, phase by phase *)

Ltac decide_tests :=
  repeat match goal with
         | |- context [bool_decide ?P] =>
             first [ rewrite (bool_decide_eq_true_2 P) by (done || congruence)
                   | rewrite (bool_decide_eq_false_2 P) by (done || congruence) ]
         end.

Ltac unfold_monad := unfold mbind, M_bind, mret, M_ret.

Lemma length_calls_add_call (c : Call) (w : World) :
  length (calls (add_call c w)) = S (length (calls w)).
Proof. cbn. rewrite length_app. cbn. lia. Qed.

Lemma new_calls_app (w w' : World) (l : list Call) :
  calls w' = calls w ++ l -> new_calls w w' = l.
Proof. unfold new_calls. intros ->. by rewrite drop_app_length. Qed.

Ltac solve_new_calls :=
  apply new_calls_app;
  cbn [calls put_nodes put_jobs add_call add_timer tick];
  by rewrite <- ?app_assoc.

Section Head.
Variables (E : Env) (w : World) (name : string) (node : Node).
Hypothesis Hnode : nodes w !! name = Some node.
Hypothesis Hget : fails E (length (calls w)) = false.

(** The node has no Ready condition: the pass stops. *)
Lemma Reconcile_no_condition :
  ready_condition node = None ->
  Reconcile E name w = ((Result_zero, None), add_call (GetNode name) w).
Proof.
  unfold ready_condition. intros Hc.
  unfold Reconcile. unfold_monad.
  rewrite client_Get_Node_run, Hget, Hnode.
  destruct (GetNodeCondition _ _) as [i oc]. cbn in Hc. by subst oc.
Qed.

Variable c : NodeCondition.
Hypothesis Hready : ready_condition node = Some c.

(** A fenced node that is not Ready: the pass stops. *)
Lemma Reconcile_fenced :
  fencing_state node = "fenced" -> Status c ≠ ConditionTrue ->
  Reconcile E name w = ((Result_zero, None), add_call (GetNode name) w).
Proof.
  unfold ready_condition, fencing_state in *. intros Hs Ht.
  unfold Reconcile. unfold_monad.
  rewrite client_Get_Node_run, Hget, Hnode.
  destruct (GetNodeCondition _ _) as [i oc]. cbn in Hready. subst oc.
  rewrite Hs. by decide_tests.
Qed.

(** No recovery and an unreachable node: the pass fetches the
    template and goes on with it, unless it is not found. *)
Lemma Reconcile_candidate :
  (Status c = ConditionTrue -> fencing_state node ≠ "pending") ->
  fencing_state node ≠ "fenced" ->
  Reason c = "NodeStatusUnknown" ->
  Reconcile E name w
  = let r := client_Get_PodTemplate E (Namespace_ E) (template_name node) zero_PodTemplate
               (add_call (GetNode name) w) in
    if IsNotFound r.1.2 then ((Result_zero, None), r.2)
    else Reconcile_fence E node r.1.1 (fencing_state node) r.2.
Proof.
  unfold ready_condition, fencing_state in *. intros Hp Hf Hr.
  unfold Reconcile. unfold_monad.
  rewrite client_Get_Node_run, Hget, Hnode.
  destruct (GetNodeCondition _ _) as [i oc]. cbn in Hready. subst oc.
  destruct (bool_decide (Status c = ConditionTrue)) eqn:Ht;
    [ apply bool_decide_eq_true in Ht;
      rewrite (bool_decide_eq_false_2 _ (Hp Ht)), (bool_decide_eq_false_2 _ Hf); cbn [orb] | ];
    cbv beta iota zeta;
    rewrite (bool_decide_eq_false_2 _ Hf);
    rewrite (bool_decide_eq_false_2 (Reason c ≠ "NodeStatusUnknown")) by (intros H; by apply H);
    rewrite andb_false_r; unfold template_name;
    destruct (client_Get_PodTemplate _ _ _ _ _) as [[t e] w2]; cbn [fst snd];
    by destruct (IsNotFound e).
Qed.

(** A Ready node in state pending or fenced: the pass clears the
    fencing annotations and goes on as recovered, whatever the
    reason of the condition. *)
Lemma Reconcile_recovering :
  Status c = ConditionTrue ->
  fencing_state node = "pending" \/ fencing_state node = "fenced" ->
  Reconcile E name w
  = let p := client_Patch E node patch_recovered (add_call (GetNode name) w) in
    let r := client_Get_PodTemplate E (Namespace_ E) (template_name p.1.1) zero_PodTemplate p.2 in
    if IsNotFound r.1.2 then ((Result_zero, None), r.2)
    else Reconcile_recovered E (newJobForNode (Namespace_ E) p.1.1 r.1.1) r.2.
Proof.
  unfold ready_condition, fencing_state in *. intros Ht Hs.
  unfold Reconcile. unfold_monad.
  rewrite client_Get_Node_run, Hget, Hnode.
  destruct (GetNodeCondition _ _) as [i oc]. cbn in Hready. subst oc.
  rewrite (bool_decide_eq_true_2 _ Ht).
  assert (bool_decide (index (Annotations (node_meta node)) "fencing/state" = "pending")
          || bool_decide (index (Annotations (node_meta node)) "fencing/state" = "fenced")
          = true) as ->.
  { destruct Hs as [-> | ->]; by decide_tests. }
  destruct (client_Patch _ _ _ _) as [[node' e'] w1]. cbv beta iota zeta.
  decide_tests. cbn [andb fst snd]. unfold template_name, Reconcile_fence.
  destruct (client_Get_PodTemplate _ _ _ _ _) as [[t e] w2]. cbn [fst snd].
  decide_tests. by destruct (IsNotFound e).
Qed.

End Head.

Section Phases.
Variable E : Env.

Lemma Reconcile_get_failed (name : string) (w : World) :
  fails E (length (calls w)) = true ->
  Reconcile E name w = ((Result_zero, Some ServerError), add_call (GetNode name) w).
Proof.
  intros Hf. unfold Reconcile. unfold_monad.
  by rewrite client_Get_Node_run, Hf.
Qed.

Lemma Reconcile_node_not_found (name : string) (w : World) :
  fails E (length (calls w)) = false -> nodes w !! name = None ->
  Reconcile E name w = ((Result_zero, None), add_call (GetNode name) w).
Proof.
  intros Hf Hn. unfold Reconcile. unfold_monad.
  by rewrite client_Get_Node_run, Hf, Hn.
Qed.

(** The cleanup of a recovered node never fails the pass and never
    touches the nodes. *)
Lemma Reconcile_recovered_frame (job : Job) (w : World) :
  (Reconcile_recovered E job w).1 = (Result_zero, None)
  /\ nodes (Reconcile_recovered E job w).2 = nodes w.
Proof.
  unfold Reconcile_recovered. unfold_monad.
  rewrite client_Get_Job_run.
  destruct (fails E (length (calls w))); [done|].
  destruct (jobs w !! _); [|done].
  rewrite client_Delete_Job_run. cbv zeta.
  destruct (fails E _); [done|].
  by destruct (jobs (add_call _ w) !! _).
Qed.

Hypothesis Hrel : reliable E.

(** With a working client the cleanup removes the job of that name,
    if there is one. *)
Lemma Reconcile_recovered_run (job : Job) (w : World) :
  jobs_wf w ->
  Reconcile_recovered E job w
  = let key := (Namespace (job_meta job), Name (job_meta job)) in
    let w1 := add_call (GetJob key.1 key.2) w in
    ((Result_zero, None),
     match jobs w !! key with
     | Some _ => put_jobs (delete key (jobs w)) (add_call (DeleteJob key.1 key.2) w1)
     | None => w1
     end).
Proof.
  intros Hwf. unfold Reconcile_recovered. unfold_monad.
  rewrite client_Get_Job_run, Hrel. cbv zeta.
  destruct (jobs w !! _) as [found|] eqn:Hj; [|done].
  rewrite client_Delete_Job_run, Hrel. cbv zeta.
  rewrite (Hwf _ _ Hj). cbn [jobs add_call fst snd]. by rewrite Hj.
Qed.

Lemma arming_start_run (node : Node) (w : World) :
  nodes w !! Name (node_meta node) = Some node ->
  arming_start E node w
  = ((Result_zero, None),
     put_nodes (<[Name (node_meta node) := patch_node patch_started node]> (nodes w))
       (add_call (PatchNode (Name (node_meta node)) patch_started) w)).
Proof.
  intros Hn. unfold arming_start. unfold_monad.
  rewrite client_Patch_run, Hrel. cbv zeta. by rewrite Hn.
Qed.

Lemma arming_check_run (node : Node) (timeout fencingTimestamp : Z) (w : World) :
  arming_check E node timeout fencingTimestamp w
  = let remain := remainTime timeout (wrap64 (clock E (ticks w))) fencingTimestamp in
    if 0 <? remain then
      ((Result_zero, None),
       add_timer {| timer_delay := remain; timer_node := Name (node_meta node);
                    timer_patch := patch_timestamp |} (tick w))
    else arming_start E node (tick w).
Proof.
  unfold arming_check, time_Now_Unix, go. unfold_monad. cbv zeta.
  by destruct (0 <? _).
Qed.

Lemma create_run (job : Job) (w : World) :
  jobs w !! (Namespace (job_meta job), Name (job_meta job)) = None ->
  client_Create_Job E job w
  = (None,
     put_jobs (<[(Namespace (job_meta job), Name (job_meta job)) := job]> (jobs w))
       (add_call (CreateJob job) w)).
Proof.
  intros Hj. rewrite client_Create_Job_run, Hrel. cbv zeta. by rewrite Hj.
Qed.

(** The execution phase, with a working client. *)
Lemma Reconcile_execution_run (job : Job) (w : World) :
  jobs_wf w ->
  Reconcile_execution E job w
  = let key := (Namespace (job_meta job), Name (job_meta job)) in
    let w1 := add_call (GetJob key.1 key.2) w in
    ((Result_zero, None),
     match jobs w !! key with
     | None => put_jobs (<[key := job]> (jobs w)) (add_call (CreateJob job) w1)
     | Some found =>
         if job_finished found then
           put_jobs (<[key := job]> (jobs w))
             (add_call (CreateJob job) (add_call (DeleteJob key.1 key.2) w1))
         else w1
     end).
Proof.
  intros Hwf. unfold Reconcile_execution. unfold_monad.
  rewrite client_Get_Job_run, Hrel. cbv zeta.
  destruct (jobs w !! _) as [found|] eqn:Hj.
  - unfold job_finished.
    destruct (GetJobCondition _ JobComplete) as [i jc].
    destruct (GetJobCondition _ JobFailed) as [i' jf]. cbn [snd].
    assert (client_Delete_Job E found
              (add_call (GetJob (Namespace (job_meta job)) (Name (job_meta job))) w)
            = (None,
               put_jobs (delete (Namespace (job_meta job), Name (job_meta job)) (jobs w))
                 (add_call (DeleteJob (Namespace (job_meta job)) (Name (job_meta job)))
                    (add_call (GetJob (Namespace (job_meta job)) (Name (job_meta job))) w))))
      as Hdel.
    { rewrite client_Delete_Job_run, Hrel. cbv zeta.
      rewrite (Hwf _ _ Hj). cbn [jobs add_call fst snd]. by rewrite Hj. }
    assert (forall w', jobs w' = delete (Namespace (job_meta job), Name (job_meta job)) (jobs w) ->
              client_Create_Job E job w'
              = (None,
                 put_jobs (<[(Namespace (job_meta job), Name (job_meta job)) := job]> (jobs w))
                   (add_call (CreateJob job) w'))) as Hcre.
    { intros w' Hw'. rewrite create_run by (by rewrite Hw', lookup_delete_eq).
      by rewrite Hw', insert_delete_eq. }
    destruct jc as [jc|], jf as [jf|]; cbn [fst snd];
      rewrite ?(bool_decide_eq_true_2 (is_Some (Some _))) by (by eexists);
      rewrite ?(bool_decide_eq_false_2 (is_Some None)) by (by intros [? ?]);
      cbn [orb]; try done;
      rewrite Hdel, Hcre by done; done.
  - cbn [IsNotFound negb]. by rewrite create_run by done.
Qed.

End Phases.

(** ** The job store stays well keyed *)

Lemma preserves_ret {A : Type} (P : World -> Prop) (x : A) : preserves P (mret x).
Proof. by intros w Hw. Qed.

Lemma preserves_bind {A B : Type} (P : World -> Prop) (m : M A) (f : A -> M B) :
  preserves P m -> (forall x, preserves P (f x)) -> preserves P (m ≫= f).
Proof.
  intros Hm Hf w Hw. unfold mbind, M_bind.
  specialize (Hm w Hw). destruct (m w) as [x w']. by apply Hf.
Qed.

Section JobsWf.
Variable E : Env.

Lemma client_Get_Node_jobs_wf (name : string) (obj : Node) :
  preserves jobs_wf (client_Get_Node E name obj).
Proof. intros w Hw. by rewrite client_Get_Node_run. Qed.

Lemma client_Get_PodTemplate_jobs_wf (namespace name : string) (obj : PodTemplate) :
  preserves jobs_wf (client_Get_PodTemplate E namespace name obj).
Proof. intros w Hw. by rewrite client_Get_PodTemplate_run. Qed.

Lemma client_Get_Job_jobs_wf (namespace name : string) (obj : Job) :
  preserves jobs_wf (client_Get_Job E namespace name obj).
Proof. intros w Hw. by rewrite client_Get_Job_run. Qed.

Lemma client_Patch_jobs_wf (node : Node) (patch : MergePatch) :
  preserves jobs_wf (client_Patch E node patch).
Proof.
  intros w Hw. rewrite client_Patch_run. cbv zeta.
  destruct (fails E _); [done|]. by destruct (nodes w !! _).
Qed.

Lemma client_Delete_Job_jobs_wf (found : Job) :
  preserves jobs_wf (client_Delete_Job E found).
Proof.
  intros w Hw. rewrite client_Delete_Job_run. cbv zeta.
  destruct (fails E _); [done|]. destruct (jobs w !! _); [|done].
  by apply map_Forall_delete.
Qed.

Lemma client_Create_Job_jobs_wf (job : Job) :
  preserves jobs_wf (client_Create_Job E job).
Proof.
  intros w Hw. rewrite client_Create_Job_run. cbv zeta.
  destruct (fails E _); [done|]. destruct (jobs w !! _); [done|].
  by apply map_Forall_insert_2.
Qed.

Lemma time_Now_Unix_jobs_wf : preserves jobs_wf (time_Now_Unix E).
Proof. by intros w Hw. Qed.

Lemma go_jobs_wf (t : Timer) : preserves jobs_wf (go t).
Proof. by intros w Hw. Qed.

End JobsWf.

Create HintDb jobs_wf.

#[local] Hint Resolve client_Get_Node_jobs_wf client_Get_PodTemplate_jobs_wf
  client_Get_Job_jobs_wf client_Patch_jobs_wf client_Delete_Job_jobs_wf
  client_Create_Job_jobs_wf time_Now_Unix_jobs_wf go_jobs_wf : jobs_wf.

Ltac preserve :=
  repeat first
    [ solve [auto with jobs_wf]
    | apply preserves_ret
    | apply preserves_bind; [| intros]
    | progress cbv zeta
    | match goal with
      | |- preserves _ (let '(_, _) := ?x in _) => destruct x
      | |- preserves _ (match ?x with _ => _ end) => destruct x
      end ].

Lemma arming_start_jobs_wf (E : Env) (node : Node) : preserves jobs_wf (arming_start E node).
Proof. unfold arming_start. preserve. Qed.

Lemma arming_check_jobs_wf (E : Env) (node : Node) (timeout fencingTimestamp : Z) :
  preserves jobs_wf (arming_check E node timeout fencingTimestamp).
Proof.
  unfold arming_check. apply preserves_bind; [auto with jobs_wf|]. intros now.
  cbv zeta. destruct (0 <? _); [preserve|apply arming_start_jobs_wf].
Qed.

Lemma Reconcile_arming_jobs_wf (E : Env) (node : Node) (podTemplate : PodTemplate)
    (fencingState : string) :
  preserves jobs_wf (Reconcile_arming E node podTemplate fencingState).
Proof.
  pose proof arming_start_jobs_wf. pose proof arming_check_jobs_wf.
  unfold Reconcile_arming. cbv zeta. preserve.
Qed.

Lemma Reconcile_recovered_jobs_wf (E : Env) (job : Job) :
  preserves jobs_wf (Reconcile_recovered E job).
Proof. unfold Reconcile_recovered. preserve. Qed.

Lemma Reconcile_execution_jobs_wf (E : Env) (job : Job) :
  preserves jobs_wf (Reconcile_execution E job).
Proof. unfold Reconcile_execution. cbv zeta. preserve. Qed.

(** Whatever fails, a pass keeps every job under its own name. *)
Lemma Reconcile_jobs_wf (E : Env) (request : string) :
  preserves jobs_wf (Reconcile E request).
Proof.
  pose proof Reconcile_arming_jobs_wf. pose proof Reconcile_recovered_jobs_wf.
  pose proof Reconcile_execution_jobs_wf.
  unfold Reconcile, Reconcile_fence. cbv zeta. preserve.
Qed.

(** ** Fenced and recovered nodes *)

(** C1 (as stated, refuted). A pass over a node in state "fenced" is
    not always free of side effects: when the node is Ready the pass
    patches the node and its annotations change. *)
Lemma fenced_ready_node_is_patched :
  ~ (forall (E : Env) (w : World) (name : string) (node : Node),
        nodes w !! name = Some node ->
        fencing_state node = "fenced" ->
        let w' := (Reconcile E name w).2 in
        Forall (fun c => is_write c = false) (new_calls w w')
        /\ jobs w' = jobs w
        /\ nodes w' = nodes w).
Proof.
  intros H.
  destruct (H (sample_env 1000)
              (sample_world (ready_node [("fencing/state", "fenced")]) [plain_template] [])
              "n1" (ready_node [("fencing/state", "fenced")]) eq_refl eq_refl)
    as (Hcalls & _ & _).
  revert Hcalls. by_compute.
Qed.

Example fenced_ready_node_trace :
  let w := sample_world (ready_node [("fencing/state", "fenced")]) [plain_template] [] in
  let w' := (Reconcile (sample_env 1000) "n1" w).2 in
  new_calls w w'
  = [GetNode "n1"; PatchNode "n1" patch_recovered; GetPodTemplate "fencing" "fencing";
     GetJob "fencing" "fence-n1"]
  /\ fencing_state <$> nodes w !! "n1" = Some "fenced"
  /\ fencing_state <$> nodes w' !! "n1" = Some "".
Proof. repeat split; vm_compute; reflexivity. Qed.

(** C1 (amended). A pass over a node in state "fenced" whose Ready
    condition is absent or has a status other than True has no side
    effect, whatever the reason and the other annotations: its only call
    is the fetch of the node, and nodes, jobs, templates and timers are
    as before. *)
Theorem fenced_node_is_left_alone (E : Env) (w : World) (name : string) (node : Node) :
  nodes w !! name = Some node ->
  fencing_state node = "fenced" ->
  (forall c, ready_condition node = Some c -> Status c ≠ ConditionTrue) ->
  let w' := (Reconcile E name w).2 in
  new_calls w w' = [GetNode name]
  /\ nodes w' = nodes w /\ jobs w' = jobs w
  /\ podTemplates w' = podTemplates w /\ timers w' = timers w.
Proof.
  intros Hn Hs Hc.
  assert ((Reconcile E name w).2 = add_call (GetNode name) w) as ->.
  { destruct (fails E (length (calls w))) eqn:Hf.
    - by rewrite Reconcile_get_failed.
    - destruct (ready_condition node) as [c|] eqn:Hr.
      + by rewrite (Reconcile_fenced E w name node Hn Hf c Hr Hs (Hc c eq_refl)).
      + by rewrite (Reconcile_no_condition E w name node Hn Hf Hr). }
  cbv zeta. split; [solve_new_calls|done].
Qed.

Lemma fenced_node_is_left_alone_witness :
  let w := sample_world (lost_node [("fencing/state", "fenced"); ("fencing/enabled", "true")])
             [plain_template] [sample_job "fence-n1" ["Complete"]] in
  let w' := (Reconcile (sample_env 1000) "n1" w).2 in
  new_calls w w' = [GetNode "n1"]
  /\ nodes w' = nodes w /\ jobs w' = jobs w
  /\ podTemplates w' = podTemplates w /\ timers w' = timers w.
Proof.
  apply (fenced_node_is_left_alone (sample_env 1000) _ "n1"
           (lost_node [("fencing/state", "fenced"); ("fencing/enabled", "true")])).
  - reflexivity.
  - reflexivity.
  - intros c Hc. injection Hc as <-. vm_compute. discriminate.
Defined.

Lemma patch_recovered_state (a : gmap string string) :
  apply_patch patch_recovered a !! "fencing/state" = None.
Proof. cbn. by rewrite lookup_delete_ne, lookup_delete_eq. Qed.

Lemma patch_recovered_timestamp (a : gmap string string) :
  apply_patch patch_recovered a !! "fencing/timestamp" = None.
Proof. cbn. by rewrite lookup_delete_eq. Qed.

Lemma patch_recovered_other (a : gmap string string) (k : string) :
  k ≠ "fencing/state" -> k ≠ "fencing/timestamp" ->
  apply_patch patch_recovered a !! k = a !! k.
Proof. intros ? ?. cbn. by rewrite !lookup_delete_ne. Qed.

Lemma template_name_recovered (node : Node) :
  template_name (patch_node patch_recovered node) = template_name node.
Proof.
  unfold template_name. cbn [patch_node node_meta set_Annotations Annotations].
  by rewrite patch_recovered_other.
Qed.

(** C4. When the node is Ready and its state is "pending" or "fenced",
    and the fetch of the node and the patch go through, the pass leaves
    the node without [fencing/state] and without [fencing/timestamp],
    and the rest of the pass is the one of a recovered node: it fetches
    the template whatever the reason of the Ready condition, removes the
    job and returns no error. *)
Theorem ready_clears_fencing_annotations (E : Env) (w : World) (name : string)
    (node : Node) (c : NodeCondition) :
  nodes w !! name = Some node ->
  Name (node_meta node) = name ->
  ready_condition node = Some c ->
  Status c = ConditionTrue ->
  fencing_state node = "pending" \/ fencing_state node = "fenced" ->
  fails E (length (calls w)) = false ->
  fails E (S (length (calls w))) = false ->
  let r := Reconcile E name w in
  let node' := patch_node patch_recovered node in
  let w1 := put_nodes (<[name := node']> (nodes w))
              (add_call (PatchNode name patch_recovered) (add_call (GetNode name) w)) in
  let t := client_Get_PodTemplate E (Namespace_ E) (template_name node) zero_PodTemplate w1 in
  nodes r.2 !! name = Some node'
  /\ Annotations (node_meta node') !! "fencing/state" = None
  /\ Annotations (node_meta node') !! "fencing/timestamp" = None
  /\ r = (if IsNotFound t.1.2 then ((Result_zero, None), t.2)
          else Reconcile_recovered E (newJobForNode (Namespace_ E) node' t.1.1) t.2)
  /\ r.1 = (Result_zero, None).
Proof.
  intros Hn Hname Hc Ht Hs Hf0 Hf1. cbv zeta.
  rewrite (Reconcile_recovering E w name node Hn Hf0 c Hc Ht Hs).
  rewrite client_Patch_run, length_calls_add_call, Hf1, Hname. cbv zeta.
  cbn [nodes add_call]. rewrite Hn. cbn [fst snd].
  rewrite template_name_recovered.
  rewrite client_Get_PodTemplate_run. cbn [fst snd].
  set (t := if fails E _ then _ else _).
  split_and!.
  - match goal with |- context [if ?b then _ else _] => destruct b end;
      cbn [snd nodes add_call put_nodes].
    + apply lookup_insert_eq.
    + rewrite (proj2 (Reconcile_recovered_frame _ _ _)). apply lookup_insert_eq.
  - apply patch_recovered_state.
  - apply patch_recovered_timestamp.
  - done.
  - match goal with |- context [if ?b then _ else _] => destruct b end; [done|].
    apply Reconcile_recovered_frame.
Qed.

Lemma ready_clears_fencing_annotations_witness :
  let node := sample_node "n1" [("fencing/state", "fenced"); ("fencing/timestamp", "990")]
                "True" "KubeletReady" in
  let w := sample_world node [plain_template] [sample_job "fence-n1" []] in
  let r := Reconcile (sample_env 1000) "n1" w in
  nodes r.2 !! "n1" = Some (patch_node patch_recovered node)
  /\ Annotations (node_meta (patch_node patch_recovered node)) !! "fencing/state" = None
  /\ Annotations (node_meta (patch_node patch_recovered node)) !! "fencing/timestamp" = None
  /\ r.1 = (Result_zero, None).
Proof.
  pose proof (ready_clears_fencing_annotations (sample_env 1000)
                (sample_world
                   (sample_node "n1" [("fencing/state", "fenced"); ("fencing/timestamp", "990")]
                      "True" "KubeletReady")
                   [plain_template] [sample_job "fence-n1" []])
                "n1"
                (sample_node "n1" [("fencing/state", "fenced"); ("fencing/timestamp", "990")]
                   "True" "KubeletReady")
                {| Type_ := "Ready"; Status := "True"; Reason := "KubeletReady" |}
                eq_refl eq_refl eq_refl eq_refl (or_intror eq_refl) eq_refl eq_refl)
    as (H1 & H2 & H3 & _ & H5).
  cbv zeta. by split_and!.
Defined.

(** C3 (as stated, refuted). A Ready node is not recovered from every
    persisted state: in state "started" the pass leaves the annotation
    in place. *)
Lemma ready_started_node_is_not_recovered :
  ~ (forall (E : Env) (w : World) (name : string) (node : Node) (c : NodeCondition)
            (podTemplate : PodTemplate),
        reliable E ->
        nodes w !! name = Some node ->
        ready_condition node = Some c ->
        Status c = ConditionTrue ->
        podTemplates w !! (Namespace_ E, template_name node) = Some podTemplate ->
        let w' := (Reconcile E name w).2 in
        (forall node', nodes w' !! name = Some node' ->
           Annotations (node_meta node') !! "fencing/state" = None
           /\ Annotations (node_meta node') !! "fencing/timestamp" = None)
        /\ jobs w' !! (Namespace_ E, job_name node podTemplate) = None).
Proof.
  intros H.
  destruct (H (sample_env 1000)
              (sample_world (ready_node [("fencing/state", "started")]) [plain_template] [])
              "n1" (ready_node [("fencing/state", "started")])
              {| Type_ := "Ready"; Status := "True"; Reason := "KubeletReady" |}
              plain_template (fun _ => eq_refl) eq_refl eq_refl eq_refl eq_refl)
    as [Hann _].
  destruct (Hann (ready_node [("fencing/state", "started")]) eq_refl) as [Hstate _].
  vm_compute in Hstate. discriminate.
Qed.

Example ready_started_node_trace :
  let w := sample_world (ready_node [("fencing/state", "started")]) [plain_template] [] in
  let r := Reconcile (sample_env 1000) "n1" w in
  r.1 = (Result_zero, None)
  /\ new_calls w r.2 = [GetNode "n1"]
  /\ fencing_state <$> nodes r.2 !! "n1" = Some "started".
Proof. repeat split; vm_compute; reflexivity. Qed.

(** C3 (amended). From the persisted states "pending" and "fenced", a
    pass over a Ready node, with a working client and the template in
    place, clears [fencing/state] and [fencing/timestamp] and deletes the
    job of the deterministic name if there is one. *)
Theorem ready_recovers_pending_or_fenced (E : Env) (w : World) (name : string)
    (node : Node) (c : NodeCondition) (podTemplate : PodTemplate) :
  reliable E ->
  jobs_wf w ->
  nodes w !! name = Some node ->
  Name (node_meta node) = name ->
  ready_condition node = Some c ->
  Status c = ConditionTrue ->
  fencing_state node = "pending" \/ fencing_state node = "fenced" ->
  podTemplates w !! (Namespace_ E, template_name node) = Some podTemplate ->
  let r := Reconcile E name w in
  let ns := Namespace_ E in
  let jn := job_name node podTemplate in
  r.1 = (Result_zero, None)
  /\ nodes r.2 = <[name := patch_node patch_recovered node]> (nodes w)
  /\ Annotations (node_meta (patch_node patch_recovered node)) !! "fencing/state" = None
  /\ Annotations (node_meta (patch_node patch_recovered node)) !! "fencing/timestamp" = None
  /\ jobs r.2 = delete (ns, jn) (jobs w)
  /\ new_calls w r.2
     = [GetNode name; PatchNode name patch_recovered;
        GetPodTemplate ns (template_name node); GetJob ns jn]
       ++ match jobs w !! (ns, jn) with
          | Some _ => [DeleteJob ns jn]
          | None => []
          end.
Proof.
  intros Hrel Hwf Hn Hname Hc Ht Hs Htpl. cbv zeta.
  rewrite (Reconcile_recovering E w name node Hn (Hrel _) c Hc Ht Hs).
  rewrite client_Patch_run, Hrel, Hname. cbv zeta.
  cbn [nodes add_call]. rewrite Hn. cbn [fst snd].
  rewrite template_name_recovered.
  rewrite client_Get_PodTemplate_run, Hrel. cbn [fst snd podTemplates put_nodes add_call].
  rewrite Htpl. cbn [fst snd IsNotFound].
  rewrite Reconcile_recovered_run by done. cbv zeta.
  change (Name (job_meta (newJobForNode (Namespace_ E) (patch_node patch_recovered node)
                            podTemplate)))
    with (job_name node podTemplate).
  change (Namespace (job_meta (newJobForNode (Namespace_ E) (patch_node patch_recovered node)
                                 podTemplate)))
    with (Namespace_ E).
  cbn [fst snd jobs put_nodes add_call].
  split_and!; [done| | apply patch_recovered_state | apply patch_recovered_timestamp | |].
  - by destruct (jobs w !! _).
  - destruct (jobs w !! _) eqn:Hj; [done|]. cbn. by rewrite delete_id.
  - apply new_calls_app.
    destruct (jobs w !! _); cbn; by rewrite <- !app_assoc.
Qed.

Lemma ready_recovers_pending_or_fenced_witness :
  let r := Reconcile (sample_env 1000) "n1" recovering_world in
  r.1 = (Result_zero, None)
  /\ nodes r.2 = <["n1" := patch_node patch_recovered recovering_node]> (nodes recovering_world)
  /\ jobs r.2 = delete ("fencing", "fence-n1") (jobs recovering_world)
  /\ new_calls recovering_world r.2
     = [GetNode "n1"; PatchNode "n1" patch_recovered;
        GetPodTemplate "fencing" "fencing"; GetJob "fencing" "fence-n1";
        DeleteJob "fencing" "fence-n1"].
Proof.
  assert (jobs_wf recovering_world) as Hwf by (unfold jobs_wf; by_compute).
  pose proof (ready_recovers_pending_or_fenced (sample_env 1000) recovering_world "n1"
                recovering_node
                {| Type_ := "Ready"; Status := "True"; Reason := "KubeletReady" |}
                plain_template (fun _ => eq_refl) Hwf eq_refl eq_refl eq_refl eq_refl
                (or_introl eq_refl) eq_refl)
    as (H1 & H2 & _ & _ & H5 & H6).
  cbv zeta. by split_and!.
Defined.

(** ** Unreachable nodes *)

Lemma patch_started_state (a : gmap string string) :
  apply_patch patch_started a !! "fencing/state" = Some "started".
Proof. cbn. by rewrite lookup_delete_ne, lookup_insert_eq. Qed.

Lemma patch_started_timestamp (a : gmap string string) :
  apply_patch patch_started a !! "fencing/timestamp" = None.
Proof. cbn. by rewrite lookup_delete_eq. Qed.

Lemma patch_started_other (a : gmap string string) (k : string) :
  k ≠ "fencing/state" -> k ≠ "fencing/timestamp" ->
  apply_patch patch_started a !! k = a !! k.
Proof. intros ? ?. cbn. by rewrite lookup_delete_ne, lookup_insert_ne. Qed.

Lemma patch_pending_state (s : string) (a : gmap string string) :
  apply_patch (patch_pending s) a !! "fencing/state" = Some "pending".
Proof. cbn. by rewrite lookup_insert_ne, lookup_insert_eq. Qed.

Lemma patch_pending_timestamp (s : string) (a : gmap string string) :
  apply_patch (patch_pending s) a !! "fencing/timestamp" = Some s.
Proof. cbn. by rewrite lookup_insert_eq. Qed.

Lemma job_name_fence (node : Node) (podTemplate : PodTemplate) :
  Name (pod_meta (Template podTemplate)) = "" ->
  job_name node podTemplate = "fence-" +:+ Name (node_meta node).
Proof. intros Hpod. unfold job_name. by rewrite Hpod. Qed.

Section Candidate.
Variables (E : Env) (w : World) (name : string) (node : Node) (c : NodeCondition).
Variable podTemplate : PodTemplate.
Hypothesis Hnode : nodes w !! name = Some node.
Hypothesis Hget : fails E (length (calls w)) = false.
Hypothesis Hready : ready_condition node = Some c.
Hypothesis Hreason : Reason c = "NodeStatusUnknown".
Hypothesis Htpl : fetched_template E w node = Some podTemplate.

(** The node is unreachable and not recovering: the pass gets as far
    as the template and goes on with it. *)
Lemma Reconcile_fences :
  (Status c = ConditionTrue -> fencing_state node ≠ "pending") ->
  fencing_state node ≠ "fenced" ->
  Reconcile E name w
  = Reconcile_fence E node podTemplate (fencing_state node)
      (add_call (GetPodTemplate (Namespace_ E) (template_name node))
         (add_call (GetNode name) w)).
Proof.
  intros Hp Hf.
  rewrite (Reconcile_candidate E w name node Hnode Hget c Hready Hp Hf Hreason).
  rewrite client_Get_PodTemplate_run, length_calls_add_call. cbv zeta.
  unfold fetched_template in Htpl. cbn [fst snd podTemplates add_call].
  destruct (fails E (S (length (calls w)))).
  - by injection Htpl as <-.
  - by rewrite Htpl.
Qed.

Hypothesis Henabled : index (Annotations (node_meta node)) "fencing/enabled" = "true".

Lemma Reconcile_arms :
  (Status c = ConditionTrue -> fencing_state node ≠ "pending") ->
  fencing_state node ≠ "fenced" ->
  fencing_state node ≠ "recovered" ->
  fencing_state node ≠ "started" ->
  Reconcile E name w
  = Reconcile_arming E node podTemplate (fencing_state node)
      (add_call (GetPodTemplate (Namespace_ E) (template_name node))
         (add_call (GetNode name) w)).
Proof.
  intros Hp Hf Hr Hs. rewrite Reconcile_fences by done.
  unfold Reconcile_fence. by decide_tests.
Qed.

Lemma Reconcile_executes :
  fencing_state node = "started" ->
  Reconcile E name w
  = Reconcile_execution E (newJobForNode (Namespace_ E) node podTemplate)
      (add_call (GetPodTemplate (Namespace_ E) (template_name node))
         (add_call (GetNode name) w)).
Proof.
  intros Hs. rewrite Reconcile_fences by (rewrite Hs; done).
  unfold Reconcile_fence. rewrite Hs. by decide_tests.
Qed.

End Candidate.

(** The arming phase, case by case. *)
Section Arming.
Variables (E : Env) (node : Node) (podTemplate : PodTemplate).
Variables (fencingState : string) (w : World) (timeout : Z).

Lemma Reconcile_arming_unparsable :
  (Atoi (timeout_string node podTemplate)).2 ≠ None ->
  Reconcile_arming E node podTemplate fencingState w = ((Result_zero, None), w).
Proof.
  intros Herr. unfold Reconcile_arming.
  destruct (Atoi _) as [t [e|]]; [done|]. by destruct Herr.
Qed.

Hypothesis Htimeout : Atoi (timeout_string node podTemplate) = (timeout, None).

(** No timeout: start at once. *)
Lemma Reconcile_arming_now :
  timeout <= 0 ->
  Reconcile_arming E node podTemplate fencingState w = arming_start E node w.
Proof.
  intros Hle. unfold Reconcile_arming. rewrite Htimeout.
  by rewrite (proj2 (Z.ltb_ge 0 timeout) Hle).
Qed.

(** A timeout and a node seen before: check the time that remains. *)
Lemma Reconcile_arming_seen :
  0 < timeout ->
  fencingState ≠ "" \/ parsed_timestamp node ≠ 0 ->
  Reconcile_arming E node podTemplate fencingState w
  = arming_check E node timeout (parsed_timestamp node) w.
Proof.
  intros Hlt Hseen. unfold Reconcile_arming, parsed_timestamp in *. rewrite Htimeout.
  rewrite (proj2 (Z.ltb_lt 0 timeout) Hlt).
  destruct (ParseInt _) as [ts e]. cbn [fst] in Hseen.
  destruct Hseen as [Hs|Ht].
  - by rewrite (bool_decide_eq_false_2 _ Hs).
  - rewrite (proj2 (Z.eqb_neq ts 0) Ht). by rewrite andb_false_r.
Qed.

(** A timeout and a node seen for the first time: record the state
    "pending" and the time, then check the time that remains. *)
Lemma Reconcile_arming_first :
  0 < timeout ->
  fencingState = "" -> parsed_timestamp node = 0 ->
  fails E (length (calls w)) = false ->
  nodes w !! Name (node_meta node) = Some node ->
  Reconcile_arming E node podTemplate fencingState w
  = let now := wrap64 (clock E (ticks w)) in
    let patch := patch_pending (FormatInt now) in
    arming_check E (patch_node patch node) timeout now
      (put_nodes (<[Name (node_meta node) := patch_node patch node]> (nodes w))
         (add_call (PatchNode (Name (node_meta node)) patch) (tick w))).
Proof.
  intros Hlt Hs Ht Hf Hn. unfold Reconcile_arming, parsed_timestamp in *. rewrite Htimeout.
  rewrite (proj2 (Z.ltb_lt 0 timeout) Hlt).
  destruct (ParseInt _) as [ts e]. cbn [fst] in Ht. subst ts fencingState.
  rewrite (bool_decide_eq_true_2 ("" = "")) by done. cbn [andb Z.eqb].
  unfold time_Now_Unix. unfold_monad.
  rewrite client_Patch_run. cbv zeta. cbn [calls nodes tick]. by rewrite Hf, Hn.
Qed.

End Arming.

(** The execution phase when there is no job yet. *)
Lemma Reconcile_execution_absent (E : Env) (job : Job) (w : World) :
  fails E (length (calls w)) = false ->
  fails E (S (length (calls w))) = false ->
  jobs w !! (Namespace (job_meta job), Name (job_meta job)) = None ->
  Reconcile_execution E job w
  = ((Result_zero, None),
     put_jobs (<[(Namespace (job_meta job), Name (job_meta job)) := job]> (jobs w))
       (add_call (CreateJob job)
          (add_call (GetJob (Namespace (job_meta job)) (Name (job_meta job))) w))).
Proof.
  intros Hf0 Hf1 Hj. unfold Reconcile_execution. unfold_monad.
  rewrite client_Get_Job_run, Hf0, Hj. cbn [IsNotFound negb].
  rewrite client_Create_Job_run, length_calls_add_call, Hf1. cbv zeta.
  cbn [jobs add_call]. by rewrite Hj.
Qed.

Lemma fetched_template_reliable (E : Env) (w : World) (node : Node) :
  reliable E ->
  fetched_template E w node = podTemplates w !! (Namespace_ E, template_name node).
Proof. intros Hrel. unfold fetched_template. by rewrite Hrel. Qed.

(** C2 (as stated, refuted). The pass that patches the state to
    "started" does not create the job. *)
Lemma started_pass_creates_no_job :
  ~ (forall (E : Env) (w : World) (name : string) (node : Node) (c : NodeCondition)
            (podTemplate : PodTemplate),
        reliable E ->
        nodes w !! name = Some node ->
        Name (node_meta node) = name ->
        ready_condition node = Some c ->
        Reason c = "NodeStatusUnknown" ->
        Annotations (node_meta node) !! "fencing/enabled" = Some "true" ->
        Annotations (node_meta node) !! "fencing/state" = None ->
        timeout_string node podTemplate = "0" ->
        podTemplates w !! (Namespace_ E, template_name node) = Some podTemplate ->
        Name (pod_meta (Template podTemplate)) = "" ->
        let w' := (Reconcile E name w).2 in
        (exists node', nodes w' !! name = Some node' /\ fencing_state node' = "started")
        /\ (exists job, jobs w' !! (Namespace_ E, "fence-" +:+ name) = Some job)).
Proof.
  intros H.
  destruct (H (sample_env 1000) lost_world "n1" (lost_node [("fencing/enabled", "true")])
              {| Type_ := "Ready"; Status := "Unknown"; Reason := "NodeStatusUnknown" |}
              plain_template (fun _ => eq_refl) eq_refl eq_refl eq_refl eq_refl eq_refl
              eq_refl eq_refl eq_refl eq_refl)
    as [_ [job Hjob]].
  vm_compute in Hjob. discriminate.
Qed.

Example started_pass_trace :
  let r := Reconcile (sample_env 1000) "n1" lost_world in
  r.1 = (Result_zero, None)
  /\ new_calls lost_world r.2
     = [GetNode "n1"; GetPodTemplate "fencing" "fencing"; PatchNode "n1" patch_started]
  /\ fencing_state <$> nodes r.2 !! "n1" = Some "started"
  /\ jobs r.2 = ∅.
Proof. repeat split; vm_compute; reflexivity. Qed.

(** C2 (amended). For such a node a pass patches the state to
    "started", clearing the timestamp, and creates no job; the job named
    "fence-" + node name is created by the pass after it, which finds the
    state "started" and no job of that name. *)
Theorem start_then_create (E : Env) (w : World) (name : string) (node : Node)
    (c : NodeCondition) (podTemplate : PodTemplate) :
  reliable E ->
  nodes w !! name = Some node ->
  Name (node_meta node) = name ->
  ready_condition node = Some c ->
  Reason c = "NodeStatusUnknown" ->
  Annotations (node_meta node) !! "fencing/enabled" = Some "true" ->
  Annotations (node_meta node) !! "fencing/state" = None ->
  timeout_string node podTemplate = "0" ->
  podTemplates w !! (Namespace_ E, template_name node) = Some podTemplate ->
  Name (pod_meta (Template podTemplate)) = "" ->
  jobs w !! (Namespace_ E, "fence-" +:+ name) = None ->
  let ns := Namespace_ E in
  let first := Reconcile E name w in
  let second := Reconcile E name first.2 in
  let node' := patch_node patch_started node in
  let job := newJobForNode ns node' podTemplate in
  (first.1 = (Result_zero, None)
   /\ new_calls w first.2
      = [GetNode name; GetPodTemplate ns (template_name node); PatchNode name patch_started]
   /\ nodes first.2 = <[name := node']> (nodes w)
   /\ Annotations (node_meta node') !! "fencing/state" = Some "started"
   /\ Annotations (node_meta node') !! "fencing/timestamp" = None
   /\ jobs first.2 = jobs w)
  /\ (second.1 = (Result_zero, None)
      /\ new_calls first.2 second.2
         = [GetNode name; GetPodTemplate ns (template_name node);
            GetJob ns ("fence-" +:+ name); CreateJob job]
      /\ Name (job_meta job) = "fence-" +:+ name
      /\ jobs second.2 = <[(ns, "fence-" +:+ name) := job]> (jobs w)).
Proof.
  intros Hrel Hn Hname Hc Hr Hen Hst Hto Htpl Hpod Hjob. cbv zeta.
  assert (fencing_state node = "") as Hfs by (unfold fencing_state, index; by rewrite Hst).
  assert (index (Annotations (node_meta node)) "fencing/enabled" = "true") as Hen'
    by (unfold index; by rewrite Hen).
  assert (Reconcile E name w
          = ((Result_zero, None),
             put_nodes (<[name := patch_node patch_started node]> (nodes w))
               (add_call (PatchNode name patch_started)
                  (add_call (GetPodTemplate (Namespace_ E) (template_name node))
                     (add_call (GetNode name) w))))) as ->.
  { rewrite (Reconcile_arms E w name node c podTemplate Hn (Hrel _) Hc Hr)
      by (rewrite ?fetched_template_reliable, ?Hfs; done).
    rewrite (Reconcile_arming_now E node podTemplate _ _ 0) by (by rewrite ?Hto).
    rewrite arming_start_run by (by rewrite ?Hname).
    by rewrite Hname. }
  cbn [fst snd]. split.
  { split_and!; [done| solve_new_calls | done | apply patch_started_state
                | apply patch_started_timestamp | done]. }
  set (node' := patch_node patch_started node).
  set (w1 := put_nodes _ _).
  assert (Name (job_meta (newJobForNode (Namespace_ E) node' podTemplate)) = "fence-" +:+ name)
    as Hjn.
  { change (job_name node' podTemplate = "fence-" +:+ name).
    rewrite job_name_fence by done. by rewrite <- Hname. }
  assert (Reconcile E name w1
          = ((Result_zero, None),
             put_jobs (<[(Namespace_ E, "fence-" +:+ name)
                         := newJobForNode (Namespace_ E) node' podTemplate]> (jobs w))
               (add_call (CreateJob (newJobForNode (Namespace_ E) node' podTemplate))
                  (add_call (GetJob (Namespace_ E) ("fence-" +:+ name))
                     (add_call (GetPodTemplate (Namespace_ E) (template_name node))
                        (add_call (GetNode name) w1)))))) as ->.
  { assert (template_name node' = template_name node) as Htn.
    { unfold template_name, node'. cbn [patch_node node_meta set_Annotations Annotations].
      by rewrite patch_started_other. }
    rewrite (Reconcile_executes E w1 name node' c podTemplate).
    - rewrite Reconcile_execution_absent; rewrite ?Hjn, ?Htn; try done; by apply Hrel.
    - apply lookup_insert_eq.
    - apply Hrel.
    - done.
    - done.
    - by rewrite fetched_template_reliable, Htn.
    - unfold index, node'. cbn [patch_node node_meta set_Annotations Annotations].
      by rewrite patch_started_other, Hen.
    - unfold fencing_state, index, node'.
      cbn [patch_node node_meta set_Annotations Annotations].
      by rewrite patch_started_state. }
  cbn [fst snd]. split_and!; [done| solve_new_calls | done | done].
Qed.

Lemma start_then_create_witness :
  let first := Reconcile (sample_env 1000) "n1" lost_world in
  let second := Reconcile (sample_env 1000) "n1" first.2 in
  new_calls lost_world first.2
  = [GetNode "n1"; GetPodTemplate "fencing" "fencing"; PatchNode "n1" patch_started]
  /\ jobs first.2 = jobs lost_world
  /\ jobs second.2
     = <[("fencing", "fence-n1")
         := newJobForNode "fencing"
              (patch_node patch_started (lost_node [("fencing/enabled", "true")]))
              plain_template]> (jobs lost_world).
Proof.
  pose proof (start_then_create (sample_env 1000) lost_world "n1"
                (lost_node [("fencing/enabled", "true")])
                {| Type_ := "Ready"; Status := "Unknown"; Reason := "NodeStatusUnknown" |}
                plain_template (fun _ => eq_refl) eq_refl eq_refl eq_refl eq_refl eq_refl
                eq_refl eq_refl eq_refl eq_refl eq_refl)
    as [(_ & H2 & _ & _ & _ & H6) (_ & _ & _ & H10)].
  cbv zeta. by split_and!.
Defined.

(** C5. In the execution phase (state "started"), with a working
    client: when the job of the deterministic name exists and reports a
    Complete or a Failed condition, the pass deletes it and then creates
    a fresh job under the same name, the same way for either condition;
    when the job reports neither, the pass changes nothing. *)
Theorem finished_job_is_replaced (E : Env) (w : World) (name : string) (node : Node)
    (c : NodeCondition) (podTemplate : PodTemplate) (found : Job) :
  reliable E ->
  jobs_wf w ->
  nodes w !! name = Some node ->
  ready_condition node = Some c ->
  Reason c = "NodeStatusUnknown" ->
  index (Annotations (node_meta node)) "fencing/enabled" = "true" ->
  fencing_state node = "started" ->
  podTemplates w !! (Namespace_ E, template_name node) = Some podTemplate ->
  jobs w !! (Namespace_ E, job_name node podTemplate) = Some found ->
  let ns := Namespace_ E in
  let jn := job_name node podTemplate in
  let job := newJobForNode ns node podTemplate in
  let r := Reconcile E name w in
  r.1 = (Result_zero, None)
  /\ nodes r.2 = nodes w
  /\ Name (job_meta job) = jn
  /\ if job_finished found then
       new_calls w r.2
       = [GetNode name; GetPodTemplate ns (template_name node); GetJob ns jn;
          DeleteJob ns jn; CreateJob job]
       /\ jobs r.2 = <[(ns, jn) := job]> (jobs w)
     else
       new_calls w r.2 = [GetNode name; GetPodTemplate ns (template_name node); GetJob ns jn]
       /\ jobs r.2 = jobs w.
Proof.
  intros Hrel Hwf Hn Hc Hr Hen Hs Htpl Hj. cbv zeta.
  rewrite (Reconcile_executes E w name node c podTemplate Hn (Hrel _) Hc Hr)
    by (rewrite ?fetched_template_reliable; done).
  rewrite Reconcile_execution_run by done. cbv zeta.
  change (Name (job_meta (newJobForNode (Namespace_ E) node podTemplate)))
    with (job_name node podTemplate).
  change (Namespace (job_meta (newJobForNode (Namespace_ E) node podTemplate)))
    with (Namespace_ E).
  cbn [fst snd jobs add_call]. rewrite Hj.
  destruct (job_finished found); (split_and!; [done|done|done|solve_new_calls|done]).
Qed.

Lemma finished_job_is_replaced_witness :
  let job := newJobForNode "fencing" started_node plain_template in
  (let r := Reconcile (sample_env 1000) "n1" (started_world ["Complete"]) in
   new_calls (started_world ["Complete"]) r.2
   = [GetNode "n1"; GetPodTemplate "fencing" "fencing"; GetJob "fencing" "fence-n1";
      DeleteJob "fencing" "fence-n1"; CreateJob job])
  /\ (let r := Reconcile (sample_env 1000) "n1" (started_world ["Failed"]) in
      new_calls (started_world ["Failed"]) r.2
      = [GetNode "n1"; GetPodTemplate "fencing" "fencing"; GetJob "fencing" "fence-n1";
         DeleteJob "fencing" "fence-n1"; CreateJob job])
  /\ (let r := Reconcile (sample_env 1000) "n1" (started_world []) in
      new_calls (started_world []) r.2
      = [GetNode "n1"; GetPodTemplate "fencing" "fencing"; GetJob "fencing" "fence-n1"]
      /\ jobs r.2 = jobs (started_world [])).
Proof.
  assert (forall l, jobs_wf (started_world l)) as Hwf.
  { intros l k j. unfold started_world, sample_world. cbn [jobs fmap list_fmap list_to_map foldr].
    rewrite insert_empty. intros [<- <-]%lookup_singleton_Some. reflexivity. }
  split_and!.
  - pose proof (finished_job_is_replaced (sample_env 1000) (started_world ["Complete"]) "n1"
                  started_node
                  {| Type_ := "Ready"; Status := "Unknown"; Reason := "NodeStatusUnknown" |}
                  plain_template (sample_job "fence-n1" ["Complete"])
                  (fun _ => eq_refl) (Hwf _) eq_refl eq_refl eq_refl eq_refl eq_refl
                  eq_refl eq_refl) as (_ & _ & _ & H & _).
    exact H.
  - pose proof (finished_job_is_replaced (sample_env 1000) (started_world ["Failed"]) "n1"
                  started_node
                  {| Type_ := "Ready"; Status := "Unknown"; Reason := "NodeStatusUnknown" |}
                  plain_template (sample_job "fence-n1" ["Failed"])
                  (fun _ => eq_refl) (Hwf _) eq_refl eq_refl eq_refl eq_refl eq_refl
                  eq_refl eq_refl) as (_ & _ & _ & H & _).
    exact H.
  - pose proof (finished_job_is_replaced (sample_env 1000) (started_world []) "n1"
                  started_node
                  {| Type_ := "Ready"; Status := "Unknown"; Reason := "NodeStatusUnknown" |}
                  plain_template (sample_job "fence-n1" [])
                  (fun _ => eq_refl) (Hwf _) eq_refl eq_refl eq_refl eq_refl eq_refl
                  eq_refl eq_refl) as (_ & _ & _ & H).
    exact H.
Defined.

(** The timestamp recorded with the state "pending" is read back as
    it was written. *)
Lemma parsed_timestamp_pending (E : Env) (w : World) (node : Node) :
  parsed_timestamp (patch_node (patch_pending (FormatInt (wrap64 (clock E (ticks w))))) node)
  = wrap64 (clock E (ticks w)).
Proof.
  unfold parsed_timestamp, index.
  cbn [patch_node node_meta set_Annotations Annotations].
  rewrite patch_pending_timestamp. cbn [default from_option id].
  by rewrite ParseInt_FormatInt by apply wrap64_range.
Qed.

(** C6. A node with a timeout that parses to a positive number, with a
    working client.  Seen for the first time (no state, no timestamp),
    the pass patches the state to "pending" with the timestamp of its
    first clock reading, and creates no job; it stops there when time
    remains at its second reading.  In state "pending" the pass patches
    nothing and creates no job while [timeout - (now - timestamp)] is
    positive, and patches the state to "started", clearing the timestamp,
    once it is not. *)
Theorem timeout_arms_then_starts (E : Env) (w : World) (name : string) (node : Node)
    (c : NodeCondition) (podTemplate : PodTemplate) (timeout : Z) :
  reliable E ->
  nodes w !! name = Some node ->
  Name (node_meta node) = name ->
  ready_condition node = Some c ->
  Reason c = "NodeStatusUnknown" ->
  index (Annotations (node_meta node)) "fencing/enabled" = "true" ->
  podTemplates w !! (Namespace_ E, template_name node) = Some podTemplate ->
  Atoi (timeout_string node podTemplate) = (timeout, None) ->
  0 < timeout ->
  let ns := Namespace_ E in
  let r := Reconcile E name w in
  let now := wrap64 (clock E (ticks w)) in
  let timestamp := parsed_timestamp node in
  let fetch := [GetNode name; GetPodTemplate ns (template_name node)] in
  (Annotations (node_meta node) !! "fencing/state" = None ->
   Annotations (node_meta node) !! "fencing/timestamp" = None ->
   let pending := patch_pending (FormatInt now) in
   let later := wrap64 (clock E (S (ticks w))) in
   take 3 (new_calls w r.2) = fetch ++ [PatchNode name pending]
   /\ Forall (fun call => forall job, call ≠ CreateJob job) (new_calls w r.2)
   /\ jobs r.2 = jobs w
   /\ (0 < remainTime timeout later now ->
       r.1 = (Result_zero, None)
       /\ new_calls w r.2 = fetch ++ [PatchNode name pending]
       /\ nodes r.2 = <[name := patch_node pending node]> (nodes w)
       /\ Annotations (node_meta (patch_node pending node)) !! "fencing/state" = Some "pending"
       /\ Annotations (node_meta (patch_node pending node)) !! "fencing/timestamp"
          = Some (FormatInt now)
       /\ parsed_timestamp (patch_node pending node) = now))
  /\ (fencing_state node = "pending" -> Status c ≠ ConditionTrue ->
      0 < remainTime timeout now timestamp ->
      r.1 = (Result_zero, None)
      /\ new_calls w r.2 = fetch
      /\ nodes r.2 = nodes w
      /\ jobs r.2 = jobs w)
  /\ (fencing_state node = "pending" -> Status c ≠ ConditionTrue ->
      remainTime timeout now timestamp <= 0 ->
      r.1 = (Result_zero, None)
      /\ new_calls w r.2 = fetch ++ [PatchNode name patch_started]
      /\ nodes r.2 = <[name := patch_node patch_started node]> (nodes w)
      /\ Annotations (node_meta (patch_node patch_started node)) !! "fencing/state"
         = Some "started"
      /\ Annotations (node_meta (patch_node patch_started node)) !! "fencing/timestamp" = None
      /\ jobs r.2 = jobs w).
Proof.
  intros Hrel Hn Hname Hc Hr Hen Htpl Hto Hpos. cbv zeta.
  pose proof (fun H1 H2 H3 H4 =>
                Reconcile_arms E w name node c podTemplate Hn (Hrel _) Hc Hr
                  (eq_trans (fetched_template_reliable E w node Hrel) Htpl) Hen H1 H2 H3 H4)
    as Harms.
  split_and!.
  - intros Hst Hts.
    assert (fencing_state node = "") as Hfs by (unfold fencing_state, index; by rewrite Hst).
    rewrite Harms by (rewrite Hfs; done).
    rewrite (Reconcile_arming_first E node podTemplate _ _ timeout Hto Hpos Hfs);
      [| unfold parsed_timestamp, index; by rewrite Hts | apply Hrel | by rewrite Hname].
    cbv zeta. rewrite arming_check_run. cbv zeta.
    cbn [ticks put_nodes add_call tick]. rewrite Hname.
    destruct (0 <? remainTime _ _ _) eqn:Hrem.
    + cbn [fst snd]. split_and!.
      * unfold new_calls. cbn [calls put_nodes add_call add_timer tick].
        by rewrite <- !app_assoc, drop_app_length.
      * unfold new_calls. cbn [calls put_nodes add_call add_timer tick].
        rewrite <- !app_assoc, drop_app_length. by repeat constructor.
      * done.
      * intros _.
        split_and!; [done|solve_new_calls|done|apply patch_pending_state
                    |apply patch_pending_timestamp|apply parsed_timestamp_pending].
    + rewrite (arming_start_run E Hrel);
        cbn [fst snd nodes put_nodes add_call tick Name node_meta patch_node set_Annotations];
        rewrite ?Hname; [|apply lookup_insert_eq].
      split_and!.
      * unfold new_calls. cbn [calls put_nodes add_call add_timer tick].
        by rewrite <- !app_assoc, drop_app_length.
      * unfold new_calls. cbn [calls put_nodes add_call add_timer tick].
        rewrite <- !app_assoc, drop_app_length. by repeat constructor.
      * done.
      * intros Hlt. apply Z.ltb_lt in Hlt. congruence.
  - intros Hfs Hnt Hrem.
    rewrite Harms by (rewrite ?Hfs; done).
    rewrite (Reconcile_arming_seen E node podTemplate _ _ timeout Hto Hpos)
      by (left; by rewrite Hfs).
    rewrite arming_check_run. cbv zeta. cbn [ticks add_call].
    rewrite (proj2 (Z.ltb_lt _ _) Hrem). cbn [fst snd].
    split_and!; [done|solve_new_calls|done|done].
  - intros Hfs Hnt Hrem.
    rewrite Harms by (rewrite ?Hfs; done).
    rewrite (Reconcile_arming_seen E node podTemplate _ _ timeout Hto Hpos)
      by (left; by rewrite Hfs).
    rewrite arming_check_run. cbv zeta. cbn [ticks add_call].
    rewrite (proj2 (Z.ltb_ge _ _) Hrem).
    rewrite (arming_start_run E Hrel) by (by rewrite Hname). rewrite Hname. cbn [fst snd].
    split_and!; [done|solve_new_calls|done|apply patch_started_state
                |apply patch_started_timestamp|done].
Qed.

Lemma timeout_arms_then_starts_witness :
  (let w := sample_world timed_node [plain_template] [] in
   let r := Reconcile (sample_env 1000) "n1" w in
   new_calls w r.2
   = [GetNode "n1"; GetPodTemplate "fencing" "fencing"; PatchNode "n1" (patch_pending "1000")]
   /\ jobs r.2 = jobs w)
  /\ (let w := sample_world pending_node [plain_template] [] in
      let r := Reconcile (sample_env 1030) "n1" w in
      new_calls w r.2 = [GetNode "n1"; GetPodTemplate "fencing" "fencing"]
      /\ nodes r.2 = nodes w /\ jobs r.2 = jobs w)
  /\ (let w := sample_world pending_node [plain_template] [] in
      let r := Reconcile (sample_env 1060) "n1" w in
      new_calls w r.2
      = [GetNode "n1"; GetPodTemplate "fencing" "fencing"; PatchNode "n1" patch_started]
      /\ nodes r.2 = <["n1" := patch_node patch_started pending_node]> (nodes w)
      /\ jobs r.2 = jobs w).
Proof.
  split_and!.
  - pose proof (timeout_arms_then_starts (sample_env 1000)
                  (sample_world timed_node [plain_template] []) "n1" timed_node
                  {| Type_ := "Ready"; Status := "Unknown"; Reason := "NodeStatusUnknown" |}
                  plain_template 60 (fun _ => eq_refl) eq_refl eq_refl eq_refl eq_refl
                  eq_refl eq_refl eq_refl eq_refl) as [H _].
    destruct (H eq_refl eq_refl) as (_ & _ & Hjobs & Hrest).
    destruct (Hrest eq_refl) as (_ & Hcalls & _).
    cbv zeta. by split.
  - pose proof (timeout_arms_then_starts (sample_env 1030)
                  (sample_world pending_node [plain_template] []) "n1" pending_node
                  {| Type_ := "Ready"; Status := "Unknown"; Reason := "NodeStatusUnknown" |}
                  plain_template 60 (fun _ => eq_refl) eq_refl eq_refl eq_refl eq_refl
                  eq_refl eq_refl eq_refl eq_refl) as (_ & H & _).
    destruct (H eq_refl ltac:(discriminate) eq_refl) as (_ & Hcalls & Hnodes & Hjobs).
    cbv zeta. by split_and!.
  - pose proof (timeout_arms_then_starts (sample_env 1060)
                  (sample_world pending_node [plain_template] []) "n1" pending_node
                  {| Type_ := "Ready"; Status := "Unknown"; Reason := "NodeStatusUnknown" |}
                  plain_template 60 (fun _ => eq_refl) eq_refl eq_refl eq_refl eq_refl
                  eq_refl eq_refl eq_refl eq_refl) as (_ & _ & H).
    destruct (H eq_refl ltac:(discriminate) ltac:(discriminate))
      as (_ & Hcalls & Hnodes & _ & _ & Hjobs).
    cbv zeta. by split_and!.
Defined.

(** C9. When the pass reaches the arming phase and the timeout string
    it resolves, the node's or else the template's, does not parse as an
    integer, the pass stops: it returns no error and asks for no requeue,
    and after the two fetches it issues no call, so no annotation changes
    and no job is created. *)
Theorem unparsable_timeout_stops (E : Env) (w : World) (name : string) (node : Node)
    (c : NodeCondition) (podTemplate : PodTemplate) :
  nodes w !! name = Some node ->
  fails E (length (calls w)) = false ->
  ready_condition node = Some c ->
  Reason c = "NodeStatusUnknown" ->
  index (Annotations (node_meta node)) "fencing/enabled" = "true" ->
  (Status c = ConditionTrue -> fencing_state node ≠ "pending") ->
  fencing_state node ≠ "fenced" ->
  fencing_state node ≠ "recovered" ->
  fencing_state node ≠ "started" ->
  fetched_template E w node = Some podTemplate ->
  (Atoi (timeout_string node podTemplate)).2 ≠ None ->
  let r := Reconcile E name w in
  r.1 = ({| Requeue := false; RequeueAfter := 0 |}, None)
  /\ new_calls w r.2 = [GetNode name; GetPodTemplate (Namespace_ E) (template_name node)]
  /\ nodes r.2 = nodes w /\ jobs r.2 = jobs w /\ timers r.2 = timers w.
Proof.
  intros Hn Hget Hc Hr Hen Hp Hf Hrec Hs Htpl Herr. cbv zeta.
  rewrite (Reconcile_arms E w name node c podTemplate Hn Hget Hc Hr Htpl Hen Hp Hf Hrec Hs).
  rewrite Reconcile_arming_unparsable by done. cbn [fst snd].
  split_and!; [done|solve_new_calls|done|done|done].
Qed.

Lemma unparsable_timeout_stops_witness :
  let w := sample_world garbled_node [plain_template] [] in
  let r := Reconcile (sample_env 1000) "n1" w in
  r.1 = ({| Requeue := false; RequeueAfter := 0 |}, None)
  /\ new_calls w r.2 = [GetNode "n1"; GetPodTemplate "fencing" "fencing"]
  /\ nodes r.2 = nodes w /\ jobs r.2 = jobs w /\ timers r.2 = timers w.
Proof.
  apply (unparsable_timeout_stops (sample_env 1000)
           (sample_world garbled_node [plain_template] []) "n1" garbled_node
           {| Type_ := "Ready"; Status := "Unknown"; Reason := "NodeStatusUnknown" |}
           plain_template);
    try reflexivity; vm_compute; discriminate.
Defined.



(** * Further properties of the controller *)

(** ** Condition extractors *)

Lemma node_condition_from_spec (l : list NodeCondition) (ty : string) (i0 : Z) :
  match node_condition_from i0 l ty with
  | (i, Some c) =>
      i0 <= i /\ l !! Z.to_nat (i - i0) = Some c /\ Type_ c = ty
      /\ forall j c', (j < Z.to_nat (i - i0))%nat -> l !! j = Some c' -> Type_ c' ≠ ty
  | (i, None) => i = -1 /\ Forall (fun c => Type_ c ≠ ty) l
  end.
Proof.
  revert i0. induction l as [|c l IH]; intros i0; cbn [node_condition_from].
  { by split. }
  destruct (decide (Type_ c = ty)) as [Heq|Hne].
  - rewrite Z.sub_diag. split_and!; [lia|done|done|]. intros j c' Hj. cbn in Hj. lia.
  - specialize (IH (i0 + 1)). destruct (node_condition_from (i0 + 1) l ty) as [i [c1|]].
    + destruct IH as (Hle & Hat & Hty & Hbefore).
      replace (Z.to_nat (i - i0)) with (S (Z.to_nat (i - (i0 + 1)))) by lia.
      split_and!; [lia|done|done|].
      intros [|j] c' Hj Hc'.
      * by injection Hc' as <-.
      * apply (Hbefore j c'); [lia|done].
    + destruct IH as [-> Hall]. split; [done|]. by constructor.
Qed.

(** X1. [GetNodeCondition] returns the first condition of the type asked
    for, with its position in the list; when no condition has that type,
    or the status is nil, it returns nil and -1. *)
Theorem GetNodeCondition_first_match (status : option NodeStatus) (conditionType : string) :
  match GetNodeCondition status conditionType with
  | (i, Some c) =>
      exists st, status = Some st
      /\ 0 <= i /\ Conditions st !! Z.to_nat i = Some c /\ Type_ c = conditionType
      /\ forall j c', (j < Z.to_nat i)%nat -> Conditions st !! j = Some c' ->
                      Type_ c' ≠ conditionType
  | (i, None) =>
      i = -1
      /\ forall st, status = Some st -> Forall (fun c => Type_ c ≠ conditionType) (Conditions st)
  end.
Proof.
  destruct status as [st|]; cbn [GetNodeCondition]; [|by split].
  pose proof (node_condition_from_spec (Conditions st) conditionType 0) as H.
  destruct (node_condition_from 0 (Conditions st) conditionType) as [i [c|]].
  - rewrite Z.sub_0_r in H. by exists st.
  - destruct H as [-> Hall]. split; [done|]. by intros ? [= <-].
Qed.

Lemma job_condition_from_spec (l : list JobCondition) (ty : string) (i0 : Z) :
  match job_condition_from i0 l ty with
  | (i, Some c) =>
      i0 <= i /\ l !! Z.to_nat (i - i0) = Some c /\ job_cond_Type c = ty
      /\ forall j c', (j < Z.to_nat (i - i0))%nat -> l !! j = Some c' -> job_cond_Type c' ≠ ty
  | (i, None) => i = -1 /\ Forall (fun c => job_cond_Type c ≠ ty) l
  end.
Proof.
  revert i0. induction l as [|c l IH]; intros i0; cbn [job_condition_from].
  { by split. }
  destruct (decide (job_cond_Type c = ty)) as [Heq|Hne].
  - rewrite Z.sub_diag. split_and!; [lia|done|done|]. intros j c' Hj. cbn in Hj. lia.
  - specialize (IH (i0 + 1)). destruct (job_condition_from (i0 + 1) l ty) as [i [c1|]].
    + destruct IH as (Hle & Hat & Hty & Hbefore).
      replace (Z.to_nat (i - i0)) with (S (Z.to_nat (i - (i0 + 1)))) by lia.
      split_and!; [lia|done|done|].
      intros [|j] c' Hj Hc'.
      * by injection Hc' as <-.
      * apply (Hbefore j c'); [lia|done].
    + destruct IH as [-> Hall]. split; [done|]. by constructor.
Qed.

(** X2. [GetJobCondition] does the same for the conditions of a job. *)
Theorem GetJobCondition_first_match (status : option JobStatus) (conditionType : string) :
  match GetJobCondition status conditionType with
  | (i, Some c) =>
      exists st, status = Some st
      /\ 0 <= i /\ job_Conditions st !! Z.to_nat i = Some c /\ job_cond_Type c = conditionType
      /\ forall j c', (j < Z.to_nat i)%nat -> job_Conditions st !! j = Some c' ->
                      job_cond_Type c' ≠ conditionType
  | (i, None) =>
      i = -1
      /\ forall st, status = Some st ->
                    Forall (fun c => job_cond_Type c ≠ conditionType) (job_Conditions st)
  end.
Proof.
  destruct status as [st|]; cbn [GetJobCondition]; [|by split].
  pose proof (job_condition_from_spec (job_Conditions st) conditionType 0) as H.
  destruct (job_condition_from 0 (job_Conditions st) conditionType) as [i [c|]].
  - rewrite Z.sub_0_r in H. by exists st.
  - destruct H as [-> Hall]. split; [done|]. by intros ? [= <-].
Qed.

(** A job counts as finished exactly when one of its conditions has
    the type Complete or the type Failed, whatever the status of that
    condition and wherever it stands in the list. *)
Lemma job_finished_iff (found : Job) :
  job_finished found = true
  <-> exists c, c ∈ job_Conditions (job_status found)
                /\ (job_cond_Type c = JobComplete \/ job_cond_Type c = JobFailed).
Proof.
  unfold job_finished, GetJobCondition.
  pose proof (job_condition_from_spec (job_Conditions (job_status found)) JobComplete 0) as Hc.
  pose proof (job_condition_from_spec (job_Conditions (job_status found)) JobFailed 0) as Hf.
  destruct (job_condition_from 0 _ JobComplete) as [i [jc|]];
    destruct (job_condition_from 0 _ JobFailed) as [i' [jf|]]; cbn [snd].
  all: rewrite ?(bool_decide_eq_true_2 (is_Some (Some _))) by (by eexists).
  all: rewrite ?(bool_decide_eq_false_2 (is_Some None)) by (by intros [? ?]).
  all: cbn [orb].
  - split; [intros _|done]. destruct Hc as (_ & Hat & Hty & _).
    exists jc. split; [by eapply list_elem_of_lookup_2|by left].
  - split; [intros _|done]. destruct Hc as (_ & Hat & Hty & _).
    exists jc. split; [by eapply list_elem_of_lookup_2|by left].
  - split; [intros _|done]. destruct Hf as (_ & Hat & Hty & _).
    exists jf. split; [by eapply list_elem_of_lookup_2|by right].
  - split; [done|]. intros (c & Hin & Hty).
    destruct Hc as [_ Hc]. destruct Hf as [_ Hf].
    rewrite Forall_forall in Hc, Hf.
    destruct Hty as [Hty|Hty]; [by destruct (Hc c Hin)|by destruct (Hf c Hin)].
Qed.

(** ** What a pass keeps *)

Lemma leads_ret {A : Type} (P Q : World -> Prop) (x : A) :
  (forall w, P w -> Q w) -> leads P Q (mret x).
Proof. intros HPQ w Hw. by apply HPQ. Qed.

Lemma leads_bind {A B : Type} (P Q : World -> Prop) (m : M A) (f : A -> M B) :
  leads P P m -> (forall x, leads P Q (f x)) -> leads P Q (m ≫= f).
Proof.
  intros Hm Hf w Hw. unfold mbind, M_bind.
  specialize (Hm w Hw). destruct (m w) as [x w']. by apply Hf.
Qed.

Lemma fencing_patch_recovered : fencing_patch patch_recovered.
Proof. repeat constructor; cbn; tauto. Qed.

Lemma fencing_patch_pending (s : string) : fencing_patch (patch_pending s).
Proof. repeat constructor; cbn; tauto. Qed.

Lemma fencing_patch_started : fencing_patch patch_started.
Proof. repeat constructor; cbn; tauto. Qed.

Create HintDb pass.

#[local] Hint Resolve fencing_patch_recovered fencing_patch_pending fencing_patch_started : pass.

Ltac follow :=
  repeat first
    [ solve [eauto with pass]
    | apply leads_ret; solve [eauto with pass]
    | apply leads_bind; [| intros]
    | progress cbv zeta
    | match goal with
      | |- leads _ _ (let '(_, _) := ?x in _) => destruct x
      | |- leads _ _ (match ?x with _ => _ end) => destruct x
      end ].

Section Stable.
Variable E : Env.
Variable P : World -> Prop.
Hypothesis Hframe : frame_stable P.

Lemma client_Get_Node_stable (name : string) (obj : Node) :
  leads P P (client_Get_Node E name obj).
Proof. intros w Hw. rewrite client_Get_Node_run. by apply Hframe. Qed.

Lemma client_Get_PodTemplate_stable (namespace name : string) (obj : PodTemplate) :
  leads P P (client_Get_PodTemplate E namespace name obj).
Proof. intros w Hw. rewrite client_Get_PodTemplate_run. by apply Hframe. Qed.

Lemma client_Get_Job_stable (namespace name : string) (obj : Job) :
  leads P P (client_Get_Job E namespace name obj).
Proof. intros w Hw. rewrite client_Get_Job_run. by apply Hframe. Qed.

Lemma time_Now_Unix_stable : leads P P (time_Now_Unix E).
Proof. intros w Hw. by apply Hframe. Qed.

Lemma go_stable (t : Timer) : leads P P (go t).
Proof. intros w Hw. by apply Hframe. Qed.

Hypothesis Hpatch : patch_stable P.

Lemma client_Patch_stable (node : Node) (patch : MergePatch) :
  fencing_patch patch -> leads P P (client_Patch E node patch).
Proof.
  intros Hp w Hw. rewrite client_Patch_run. cbv zeta.
  destruct (fails E _); [by apply Hframe|].
  destruct (nodes w !! _) as [n|] eqn:Hn; [|by apply Hframe].
  cbn [snd].
  apply (Hpatch patch _ n (add_call (PatchNode (Name (node_meta node)) patch) w));
    [done|done|by apply Hframe].
Qed.

#[local] Hint Resolve client_Get_Node_stable client_Get_PodTemplate_stable
  client_Get_Job_stable time_Now_Unix_stable go_stable client_Patch_stable : pass.

Lemma arming_start_stable (node : Node) : leads P P (arming_start E node).
Proof. unfold arming_start. follow. Qed.

Lemma arming_check_stable (node : Node) (timeout fencingTimestamp : Z) :
  leads P P (arming_check E node timeout fencingTimestamp).
Proof.
  pose proof arming_start_stable.
  unfold arming_check. apply leads_bind; [auto with pass|]. intros now. follow.
Qed.

(** The arming phase does nothing but patch the node and arm a timer. *)
Lemma Reconcile_arming_stable (node : Node) (podTemplate : PodTemplate)
    (fencingState : string) :
  leads P P (Reconcile_arming E node podTemplate fencingState).
Proof.
  pose proof arming_start_stable. pose proof arming_check_stable.
  unfold Reconcile_arming. follow.
Qed.

(** The pass up to its last part: once [Reconcile_fence] leads from [P]
    to [Q], and [Q] holds wherever the pass stops before, so does the
    pass. *)
Lemma Reconcile_leads (Q : World -> Prop) (request : string) :
  (forall w, P w -> Q w) ->
  (forall node podTemplate fencingState,
      leads P Q (Reconcile_fence E node podTemplate fencingState)) ->
  leads P Q (Reconcile E request).
Proof.
  intros HPQ Htail. unfold Reconcile. follow.
Qed.

Hypothesis Hjobs : jobs_stable P.

Lemma client_Delete_Job_stable (found : Job) : leads P P (client_Delete_Job E found).
Proof.
  intros w Hw. rewrite client_Delete_Job_run. cbv zeta.
  destruct (fails E _); [by apply Hframe|].
  destruct (jobs w !! _) eqn:Hj; [|by apply Hframe]. cbn [snd].
  apply (proj1 Hjobs _ (add_call _ w)); [cbn [jobs add_call]; by rewrite Hj|by apply Hframe].
Qed.

Lemma client_Create_Job_stable (job : Job) : leads P P (client_Create_Job E job).
Proof.
  intros w Hw. rewrite client_Create_Job_run. cbv zeta.
  destruct (fails E _); [by apply Hframe|].
  destruct (jobs w !! _) eqn:Hj; [by apply Hframe|]. cbn [snd].
  apply (proj2 Hjobs job (add_call _ w)); [done|by apply Hframe].
Qed.

#[local] Hint Resolve client_Delete_Job_stable client_Create_Job_stable
  Reconcile_arming_stable : pass.

Lemma Reconcile_fence_stable (node : Node) (podTemplate : PodTemplate)
    (fencingState : string) :
  leads P P (Reconcile_fence E node podTemplate fencingState).
Proof.
  unfold Reconcile_fence, Reconcile_recovered, Reconcile_execution. follow.
Qed.

(** An invariant of the three kinds is kept by a whole pass, whatever
    fails. *)
Lemma Reconcile_stable (request : string) : leads P P (Reconcile E request).
Proof. apply Reconcile_leads; [done|apply Reconcile_fence_stable]. Qed.

End Stable.

Lemma apply_patch_other (patch : MergePatch) (a : gmap string string) (k : string) :
  fencing_patch patch -> k ≠ "fencing/state" -> k ≠ "fencing/timestamp" ->
  apply_patch patch a !! k = a !! k.
Proof.
  intros Hp Hs Ht. unfold apply_patch. revert a.
  induction Hp as [|[k' v] patch Hk' _ IH]; intros a; [done|].
  cbn [foldl]. rewrite IH. unfold apply_patch_entry. cbn [fst snd] in *.
  assert (k' ≠ k) by (destruct Hk' as [[-> _]| ->]; done).
  destruct v; by rewrite ?lookup_insert_ne, ?lookup_delete_ne.
Qed.

Lemma same_but_fencing_refl (n : Node) : same_but_fencing n n.
Proof. by repeat split. Qed.

Lemma same_but_fencing_patch (patch : MergePatch) (n0 n : Node) :
  fencing_patch patch -> same_but_fencing n0 n -> same_but_fencing n0 (patch_node patch n).
Proof.
  intros Hp (? & ? & ? & ? & ? & ? & ? & Hann). repeat split; try done.
  intros k Hs Ht. cbn [patch_node node_meta set_Annotations Annotations].
  rewrite apply_patch_other by done. by apply Hann.
Qed.

(** X22. A pass never touches the pod templates, whatever fails. *)
Theorem pass_keeps_templates (E : Env) (request : string) (w : World) :
  podTemplates (Reconcile E request w).2 = podTemplates w.
Proof.
  apply (Reconcile_stable E (fun w' => podTemplates w' = podTemplates w)).
  - by repeat split.
  - by intros patch name n w' _ _ Hw'.
  - by split.
  - done.
Qed.

(** X23. A pass changes no node but in its annotations [fencing/state] and
    [fencing/timestamp]: it adds no node and removes none, and every
    other annotation, the labels, the conditions and the identity of
    each node are as before, whatever fails. *)
Theorem pass_changes_only_fencing_annotations (E : Env) (request : string) (w : World) :
  nodes_same_but_fencing (nodes w) (nodes (Reconcile E request w).2).
Proof.
  apply (Reconcile_stable E (fun w' => nodes_same_but_fencing (nodes w) (nodes w'))).
  - by repeat split.
  - intros patch name n w' Hp Hn Hw' k. specialize (Hw' k).
    cbn [nodes put_nodes]. destruct (decide (k = name)) as [->|Hne].
    + rewrite lookup_insert_eq. rewrite Hn in Hw'.
      destruct (nodes w !! name); [|done]. by apply same_but_fencing_patch.
    + by rewrite lookup_insert_ne.
  - by split.
  - intros k. destruct (nodes w !! k); [apply same_but_fencing_refl|done].
Qed.

(** X24. A pass keeps the stores well keyed: every node stays under its
    own name and every job under its own namespace and name, whatever
    fails. *)
Theorem pass_keeps_stores_well_keyed (E : Env) (request : string) (w : World) :
  nodes_wf w -> jobs_wf w ->
  nodes_wf (Reconcile E request w).2 /\ jobs_wf (Reconcile E request w).2.
Proof.
  intros Hn Hj.
  apply (Reconcile_stable E (fun w' => nodes_wf w' /\ jobs_wf w')); [| | |done].
  - unfold frame_stable. split_and!; intros; assumption.
  - intros patch name n w' Hp Hlook [Hnw Hjw]. split; [|done].
    apply map_Forall_insert_2; [|done]. apply (Hnw _ _ Hlook).
  - split.
    + intros key w' _ [Hnw Hjw]. split; [done|]. by apply map_Forall_delete.
    + intros job w' _ [Hnw Hjw]. split; [done|]. by apply map_Forall_insert_2.
Qed.

Lemma pass_keeps_stores_well_keyed_witness :
  nodes_wf (Reconcile (sample_env 1000) "n1" (started_world ["Failed"])).2
  /\ jobs_wf (Reconcile (sample_env 1000) "n1" (started_world ["Failed"])).2.
Proof.
  apply (pass_keeps_stores_well_keyed (sample_env 1000) "n1" (started_world ["Failed"])).
  - unfold nodes_wf. by_compute.
  - unfold jobs_wf. by_compute.
Defined.

Section OneJob.
Variable E : Env.
Variable jobs0 : gmap (string * string) Job.

(** Where the pass stands before it looks at jobs. *)
Lemma jobs_untouched_frame_stable : frame_stable (fun w => jobs w = jobs0 /\ jobs_wf w).
Proof. unfold frame_stable. split_and!; intros; assumption. Qed.

Lemma jobs_untouched_patch_stable : patch_stable (fun w => jobs w = jobs0 /\ jobs_wf w).
Proof. by intros patch name n w _ _ Hw. Qed.

Lemma Reconcile_recovered_one_job (job : Job) :
  leads (fun w => jobs w = jobs0 /\ jobs_wf w)
        (fun w => jobs_agree_off (Namespace (job_meta job), Name (job_meta job)) jobs0 (jobs w))
        (Reconcile_recovered E job).
Proof.
  intros w [<- Hwf]. unfold Reconcile_recovered. unfold_monad.
  rewrite client_Get_Job_run.
  destruct (fails E (length (calls w))); [by intros k|].
  destruct (jobs w !! _) as [found|] eqn:Hj; [|by intros k].
  rewrite client_Delete_Job_run. cbv zeta. rewrite (Hwf _ _ Hj).
  destruct (fails E _); [by intros k|].
  cbn [jobs add_call]. rewrite Hj. cbn [snd jobs put_jobs add_call].
  intros k Hk. by rewrite lookup_delete_ne.
Qed.

Lemma Reconcile_execution_one_job (job : Job) :
  leads (fun w => jobs w = jobs0 /\ jobs_wf w)
        (fun w => jobs_agree_off (Namespace (job_meta job), Name (job_meta job)) jobs0 (jobs w))
        (Reconcile_execution E job).
Proof.
  intros w [<- Hwf]. unfold Reconcile_execution. unfold_monad.
  rewrite client_Get_Job_run.
  destruct (fails E (length (calls w))); [by intros k|].
  destruct (jobs w !! _) as [found|] eqn:Hj.
  - destruct (GetJobCondition _ JobComplete) as [i [jc|]];
      destruct (GetJobCondition _ JobFailed) as [i' [jf|]]; try (by intros k).
    all: rewrite client_Delete_Job_run; cbv zeta; rewrite (Hwf _ _ Hj).
    all: destruct (fails E _); [by intros k|].
    all: cbn [jobs add_call]; rewrite Hj.
    all: rewrite client_Create_Job_run; cbv zeta.
    all: destruct (fails E _);
      [cbn [snd jobs put_jobs add_call]; intros k Hk; by rewrite lookup_delete_ne|].
    all: cbn [jobs put_jobs add_call]; rewrite lookup_delete_eq.
    all: cbn [snd jobs put_jobs add_call]; intros k Hk.
    all: by rewrite lookup_insert_ne, lookup_delete_ne.
  - cbn [IsNotFound negb]. rewrite client_Create_Job_run. cbv zeta.
    destruct (fails E _); [by intros k|].
    cbn [jobs add_call]. rewrite Hj. cbn [snd jobs put_jobs add_call].
    intros k Hk. by rewrite lookup_insert_ne.
Qed.

Lemma Reconcile_fence_one_job (node : Node) (podTemplate : PodTemplate)
    (fencingState : string) :
  leads (fun w => jobs w = jobs0 /\ jobs_wf w)
        (fun w => exists jn, jobs_agree_off (Namespace_ E, jn) jobs0 (jobs w))
        (Reconcile_fence E node podTemplate fencingState).
Proof.
  intros w Hw. unfold Reconcile_fence. cbv zeta.
  destruct (bool_decide (fencingState = "recovered")).
  { eexists. by apply (Reconcile_recovered_one_job
                         (newJobForNode (Namespace_ E) node podTemplate) w Hw). }
  destruct (bool_decide (_ ≠ "true")).
  { exists "". intros k _. by destruct Hw as [<- _]. }
  destruct (bool_decide (fencingState ≠ "started")).
  - exists "". intros k _.
    by destruct (Reconcile_arming_stable E _ jobs_untouched_frame_stable
                   jobs_untouched_patch_stable node podTemplate fencingState w Hw) as [-> _].
  - eexists. by apply (Reconcile_execution_one_job
                         (newJobForNode (Namespace_ E) node podTemplate) w Hw).
Qed.

End OneJob.

(** X25. A pass changes at most one job, one of the controller's
    namespace: every job stored under another key is as before, whatever
    fails. *)
Theorem pass_changes_at_most_one_job (E : Env) (request : string) (w : World) :
  jobs_wf w ->
  exists jn, jobs_agree_off (Namespace_ E, jn) (jobs w) (jobs (Reconcile E request w).2).
Proof.
  intros Hwf.
  apply (Reconcile_leads E (fun w' => jobs w' = jobs w /\ jobs_wf w')
           (jobs_untouched_frame_stable (jobs w)) (jobs_untouched_patch_stable (jobs w))
           (fun w' => exists jn, jobs_agree_off (Namespace_ E, jn) (jobs w) (jobs w'))).
  - intros w' [-> _]. by exists "".
  - apply Reconcile_fence_one_job.
  - done.
Qed.

Lemma pass_changes_at_most_one_job_witness :
  exists jn,
    jobs_agree_off ("fencing", jn) (jobs (started_world ["Complete"]))
      (jobs (Reconcile (sample_env 1000) "n1" (started_world ["Complete"])).2).
Proof.
  apply (pass_changes_at_most_one_job (sample_env 1000) "n1" (started_world ["Complete"])).
  unfold jobs_wf. by_compute.
Defined.

(** ** What a pass sends *)

Lemma issues_ret {A : Type} (ok : Call -> Prop) (x : A) : issues ok (mret x).
Proof. intros w. exists []. split; [by rewrite app_nil_r|done]. Qed.

Lemma issues_bind {A B : Type} (ok : Call -> Prop) (m : M A) (f : A -> M B) :
  issues ok m -> (forall x, issues ok (f x)) -> issues ok (m ≫= f).
Proof.
  intros Hm Hf w. unfold mbind, M_bind.
  destruct (Hm w) as (l1 & Hl1 & Hok1). destruct (m w) as [x w'].
  destruct (Hf x w') as (l2 & Hl2 & Hok2).
  exists (l1 ++ l2). split.
  - cbn [snd] in Hl1. by rewrite Hl2, Hl1, app_assoc.
  - by apply Forall_app.
Qed.

Lemma issues_one {A : Type} (ok : Call -> Prop) (m : M A) (c : Call) :
  ok c -> (forall w, calls (m w).2 = calls w ++ [c]) -> issues ok m.
Proof. intros Hok Hm w. exists [c]. split; [done|by constructor]. Qed.

Lemma issues_none {A : Type} (ok : Call -> Prop) (m : M A) :
  (forall w, calls (m w).2 = calls w) -> issues ok m.
Proof. intros Hm w. exists []. split; [by rewrite app_nil_r|done]. Qed.

Section Sends.
Variable E : Env.

Lemma client_Get_Node_sends (name : string) (obj : Node) :
  issues (pass_call E) (client_Get_Node E name obj).
Proof.
  apply (issues_one _ _ (GetNode name)); [done|].
  intros w. by rewrite client_Get_Node_run.
Qed.

Lemma client_Get_PodTemplate_sends (name : string) (obj : PodTemplate) :
  issues (pass_call E) (client_Get_PodTemplate E (Namespace_ E) name obj).
Proof.
  apply (issues_one _ _ (GetPodTemplate (Namespace_ E) name)); [done|].
  intros w. by rewrite client_Get_PodTemplate_run.
Qed.

Lemma client_Get_Job_sends (namespace name : string) (obj : Job) :
  namespace = Namespace_ E ->
  issues (pass_call E) (client_Get_Job E namespace name obj).
Proof.
  intros Hns. apply (issues_one _ _ (GetJob namespace name)); [done|].
  intros w. by rewrite client_Get_Job_run.
Qed.

Lemma client_Patch_sends (node : Node) (patch : MergePatch) :
  fencing_patch patch -> issues (pass_call E) (client_Patch E node patch).
Proof.
  intros Hp. apply (issues_one _ _ (PatchNode (Name (node_meta node)) patch)); [done|].
  intros w. rewrite client_Patch_run. cbv zeta.
  destruct (fails E _); [done|]. by destruct (nodes w !! _).
Qed.

Lemma client_Delete_Job_sends (found : Job) :
  issues (pass_call E) (client_Delete_Job E found).
Proof.
  apply (issues_one _ _ (DeleteJob (Namespace (job_meta found)) (Name (job_meta found))));
    [done|].
  intros w. rewrite client_Delete_Job_run. cbv zeta.
  destruct (fails E _); [done|]. by destruct (jobs w !! _).
Qed.

Lemma client_Create_Job_sends (job : Job) :
  Namespace (job_meta job) = Namespace_ E ->
  issues (pass_call E) (client_Create_Job E job).
Proof.
  intros Hns. apply (issues_one _ _ (CreateJob job)); [done|].
  intros w. rewrite client_Create_Job_run. cbv zeta.
  destruct (fails E _); [done|]. by destruct (jobs w !! _).
Qed.

Lemma time_Now_Unix_sends : issues (pass_call E) (time_Now_Unix E).
Proof. by apply issues_none. Qed.

Lemma go_sends (t : Timer) : issues (pass_call E) (go t).
Proof. by apply issues_none. Qed.

#[local] Hint Resolve client_Get_Node_sends client_Get_PodTemplate_sends
  client_Get_Job_sends client_Patch_sends client_Delete_Job_sends client_Create_Job_sends
  time_Now_Unix_sends go_sends : pass.

Ltac trace :=
  repeat first
    [ solve [eauto with pass]
    | apply issues_ret
    | apply issues_bind; [| intros]
    | progress cbv zeta
    | match goal with
      | |- issues _ (let '(_, _) := ?x in _) => destruct x
      | |- issues _ (match ?x with _ => _ end) => destruct x
      end ].

Lemma Reconcile_sends (request : string) : issues (pass_call E) (Reconcile E request).
Proof.
  unfold Reconcile, Reconcile_fence, Reconcile_recovered, Reconcile_arming,
    Reconcile_execution, arming_check, arming_start.
  trace.
Qed.

End Sends.

(** X26. A pass only appends to the calls made so far, and what it sends
    is confined: every patch touches [fencing/state] and
    [fencing/timestamp] only and sets the state to nothing but "pending"
    or "started", never to "fenced"; every template and job request and
    every job it creates is in the controller's namespace. *)
Theorem pass_sends_only_fencing_requests (E : Env) (request : string) (w : World) :
  let w' := (Reconcile E request w).2 in
  calls w' = calls w ++ new_calls w w'
  /\ Forall (pass_call E) (new_calls w w').
Proof.
  cbv zeta. destruct (Reconcile_sends E request w) as (l & Hl & Hok).
  by rewrite (new_calls_app _ _ _ Hl).
Qed.

(** ** Passes that stop early *)

(** X4. A request for a node the store does not have is benign: the pass
    returns no error and does nothing beyond the fetch. *)
Theorem missing_node_is_benign (E : Env) (w : World) (request : string) :
  fails E (length (calls w)) = false ->
  nodes w !! request = None ->
  let r := Reconcile E request w in
  r.1 = (Result_zero, None)
  /\ new_calls w r.2 = [GetNode request]
  /\ nodes r.2 = nodes w /\ jobs r.2 = jobs w /\ timers r.2 = timers w.
Proof.
  intros Hf Hn. cbv zeta. rewrite Reconcile_node_not_found by done. cbn [fst snd].
  split_and!; [done|solve_new_calls|done|done|done].
Qed.

Lemma missing_node_is_benign_witness :
  let r := Reconcile (sample_env 1000) "n2" lost_world in
  r.1 = (Result_zero, None)
  /\ new_calls lost_world r.2 = [GetNode "n2"]
  /\ nodes r.2 = nodes lost_world /\ jobs r.2 = jobs lost_world
  /\ timers r.2 = timers lost_world.
Proof.
  apply (missing_node_is_benign (sample_env 1000) lost_world "n2"); reflexivity.
Defined.

(** X5. When the fetch of the node fails for another reason, the pass
    returns that error, which asks for a retry, and does nothing else. *)
Theorem node_fetch_error_is_returned (E : Env) (w : World) (request : string) :
  fails E (length (calls w)) = true ->
  let r := Reconcile E request w in
  r.1 = (Result_zero, Some ServerError)
  /\ new_calls w r.2 = [GetNode request]
  /\ nodes r.2 = nodes w /\ jobs r.2 = jobs w /\ timers r.2 = timers w.
Proof.
  intros Hf. cbv zeta. rewrite Reconcile_get_failed by done. cbn [fst snd].
  split_and!; [done|solve_new_calls|done|done|done].
Qed.

Lemma node_fetch_error_is_returned_witness :
  let r := Reconcile (flaky_env 0) "n1" lost_world in
  r.1 = (Result_zero, Some ServerError)
  /\ new_calls lost_world r.2 = [GetNode "n1"]
  /\ nodes r.2 = nodes lost_world /\ jobs r.2 = jobs lost_world
  /\ timers r.2 = timers lost_world.
Proof.
  apply (node_fetch_error_is_returned (flaky_env 0) lost_world "n1"); reflexivity.
Defined.

(** X6. A node that has no Ready condition is left alone, whatever its
    annotations say. *)
Theorem node_without_ready_condition_is_ignored (E : Env) (w : World) (name : string)
    (node : Node) :
  nodes w !! name = Some node ->
  fails E (length (calls w)) = false ->
  ready_condition node = None ->
  let r := Reconcile E name w in
  r.1 = (Result_zero, None)
  /\ new_calls w r.2 = [GetNode name]
  /\ nodes r.2 = nodes w /\ jobs r.2 = jobs w /\ timers r.2 = timers w.
Proof.
  intros Hn Hf Hc. cbv zeta.
  rewrite (Reconcile_no_condition E w name node Hn Hf Hc). cbn [fst snd].
  split_and!; [done|solve_new_calls|done|done|done].
Qed.

Lemma node_without_ready_condition_is_ignored_witness :
  let w := sample_world unreported_node [plain_template] [] in
  let r := Reconcile (sample_env 1000) "n1" w in
  r.1 = (Result_zero, None)
  /\ new_calls w r.2 = [GetNode "n1"]
  /\ nodes r.2 = nodes w /\ jobs r.2 = jobs w /\ timers r.2 = timers w.
Proof.
  apply (node_without_ready_condition_is_ignored (sample_env 1000)
           (sample_world unreported_node [plain_template] []) "n1" unreported_node);
    reflexivity.
Defined.

(** X7. A node whose Ready condition has a reason other than
    "NodeStatusUnknown" is left alone unless it is recovering: in
    particular, while the state is "started" the job is neither looked
    at nor created again. *)
Theorem reachable_node_is_ignored (E : Env) (w : World) (name : string) (node : Node)
    (c : NodeCondition) :
  nodes w !! name = Some node ->
  fails E (length (calls w)) = false ->
  ready_condition node = Some c ->
  Reason c ≠ "NodeStatusUnknown" ->
  (Status c = ConditionTrue ->
   fencing_state node ≠ "pending" /\ fencing_state node ≠ "fenced") ->
  fencing_state node ≠ "recovered" ->
  let r := Reconcile E name w in
  r.1 = (Result_zero, None)
  /\ new_calls w r.2 = [GetNode name]
  /\ nodes r.2 = nodes w /\ jobs r.2 = jobs w /\ timers r.2 = timers w.
Proof.
  unfold ready_condition, fencing_state. intros Hn Hf Hc Hr Hp Hrec. cbv zeta.
  assert (Reconcile E name w = ((Result_zero, None), add_call (GetNode name) w)) as ->.
  { unfold Reconcile. unfold_monad.
    rewrite client_Get_Node_run, Hf, Hn.
    destruct (GetNodeCondition _ _) as [i oc]. cbn in Hc. subst oc.
    destruct (bool_decide (Status c = ConditionTrue)) eqn:Ht;
      [ apply bool_decide_eq_true in Ht; destruct (Hp Ht) as [Hpe Hfe];
        rewrite (bool_decide_eq_false_2 _ Hpe), (bool_decide_eq_false_2 _ Hfe); cbn [orb] | ];
      cbv beta iota zeta;
      rewrite (bool_decide_eq_true_2 _ Hrec), (bool_decide_eq_true_2 _ Hr); cbn [andb];
      by destruct (bool_decide (_ = "fenced")). }
  cbn [fst snd]. split_and!; [done|solve_new_calls|done|done|done].
Qed.

Lemma reachable_node_is_ignored_witness :
  let node := sample_node "n1" [("fencing/enabled", "true"); ("fencing/state", "started")]
                "False" "KubeletNotReady" in
  let w := sample_world node [plain_template] [sample_job "fence-n1" ["Complete"]] in
  let r := Reconcile (sample_env 1000) "n1" w in
  r.1 = (Result_zero, None)
  /\ new_calls w r.2 = [GetNode "n1"]
  /\ nodes r.2 = nodes w /\ jobs r.2 = jobs w /\ timers r.2 = timers w.
Proof.
  apply (reachable_node_is_ignored (sample_env 1000) _ "n1"
           (sample_node "n1" [("fencing/enabled", "true"); ("fencing/state", "started")]
              "False" "KubeletNotReady")
           {| Type_ := "Ready"; Status := "False"; Reason := "KubeletNotReady" |});
    try reflexivity; vm_compute; discriminate.
Defined.

(** X8. An unreachable node (Ready reason "NodeStatusUnknown") whose
    [fencing/enabled] annotation is not "true" is left alone once the
    pass reaches that test: its state is neither "fenced" nor "recovered",
    it is not a Ready node in state "pending", and its template is
    fetched.  Be the state absent, "pending", "started" or any other
    string, after the two fetches the pass does nothing. *)
Theorem disabled_node_is_ignored (E : Env) (w : World) (name : string) (node : Node)
    (c : NodeCondition) (podTemplate : PodTemplate) :
  nodes w !! name = Some node ->
  fails E (length (calls w)) = false ->
  ready_condition node = Some c ->
  Reason c = "NodeStatusUnknown" ->
  (Status c = ConditionTrue -> fencing_state node ≠ "pending") ->
  fencing_state node ≠ "fenced" ->
  fencing_state node ≠ "recovered" ->
  fetched_template E w node = Some podTemplate ->
  index (Annotations (node_meta node)) "fencing/enabled" ≠ "true" ->
  let r := Reconcile E name w in
  r.1 = (Result_zero, None)
  /\ new_calls w r.2 = [GetNode name; GetPodTemplate (Namespace_ E) (template_name node)]
  /\ nodes r.2 = nodes w /\ jobs r.2 = jobs w /\ timers r.2 = timers w.
Proof.
  intros Hn Hf Hc Hr Hp Hfe Hrec Htpl Hen. cbv zeta.
  rewrite (Reconcile_fences E w name node c podTemplate Hn Hf Hc Hr Htpl Hp Hfe).
  unfold Reconcile_fence. decide_tests. unfold_monad. cbn [fst snd].
  split_and!; [done|solve_new_calls|done|done|done].
Qed.

Lemma disabled_node_is_ignored_witness :
  let w := sample_world (lost_node [("fencing/enabled", "false"); ("fencing/state", "started")])
             [plain_template] [] in
  let r := Reconcile (sample_env 1000) "n1" w in
  r.1 = (Result_zero, None)
  /\ new_calls w r.2 = [GetNode "n1"; GetPodTemplate "fencing" "fencing"]
  /\ nodes r.2 = nodes w /\ jobs r.2 = jobs w /\ timers r.2 = timers w.
Proof.
  apply (disabled_node_is_ignored (sample_env 1000) _ "n1"
           (lost_node [("fencing/enabled", "false"); ("fencing/state", "started")])
           {| Type_ := "Ready"; Status := "Unknown"; Reason := "NodeStatusUnknown" |}
           plain_template);
    try reflexivity; vm_compute; discriminate.
Defined.

(** ** Recovery when something is missing or fails *)

(** X9. Once the node is fetched, the pass over a recovering node never
    returns an error: whatever fails afterwards, the patch, the fetch of
    the template, the lookup or the deletion of the job, is swallowed
    and no retry is asked for. *)
Theorem recovery_never_returns_error (E : Env) (w : World) (name : string) (node : Node)
    (c : NodeCondition) :
  nodes w !! name = Some node ->
  fails E (length (calls w)) = false ->
  ready_condition node = Some c ->
  Status c = ConditionTrue ->
  fencing_state node = "pending" \/ fencing_state node = "fenced" ->
  (Reconcile E name w).1 = (Result_zero, None).
Proof.
  intros Hn Hf Hc Ht Hs.
  rewrite (Reconcile_recovering E w name node Hn Hf c Hc Ht Hs). cbv zeta.
  match goal with |- context [if ?b then _ else _] => destruct b end; [done|].
  apply Reconcile_recovered_frame.
Qed.

Lemma recovery_never_returns_error_witness :
  (Reconcile (flaky_env 1) "n1" recovering_world).1 = (Result_zero, None)
  /\ (Reconcile (flaky_env 4) "n1" recovering_world).1 = (Result_zero, None).
Proof.
  split.
  - apply (recovery_never_returns_error (flaky_env 1) recovering_world "n1" recovering_node
             {| Type_ := "Ready"; Status := "True"; Reason := "KubeletReady" |});
      try reflexivity. by left.
  - apply (recovery_never_returns_error (flaky_env 4) recovering_world "n1" recovering_node
             {| Type_ := "Ready"; Status := "True"; Reason := "KubeletReady" |});
      try reflexivity. by left.
Defined.

(** X10. When the template of a recovering node is not found, the pass
    clears the fencing annotations and stops there: the job of the
    earlier attempt, if any, stays in the store. *)
Theorem recovery_without_template_keeps_job (E : Env) (w : World) (name : string)
    (node : Node) (c : NodeCondition) :
  nodes w !! name = Some node ->
  Name (node_meta node) = name ->
  ready_condition node = Some c ->
  Status c = ConditionTrue ->
  fencing_state node = "pending" \/ fencing_state node = "fenced" ->
  fails E (length (calls w)) = false ->
  fails E (S (length (calls w))) = false ->
  fails E (S (S (length (calls w)))) = false ->
  podTemplates w !! (Namespace_ E, template_name node) = None ->
  let r := Reconcile E name w in
  r.1 = (Result_zero, None)
  /\ new_calls w r.2
     = [GetNode name; PatchNode name patch_recovered;
        GetPodTemplate (Namespace_ E) (template_name node)]
  /\ nodes r.2 = <[name := patch_node patch_recovered node]> (nodes w)
  /\ jobs r.2 = jobs w.
Proof.
  intros Hn Hname Hc Ht Hs Hf0 Hf1 Hf2 Htpl. cbv zeta.
  rewrite (Reconcile_recovering E w name node Hn Hf0 c Hc Ht Hs).
  rewrite client_Patch_run, length_calls_add_call, Hf1, Hname. cbv zeta.
  cbn [nodes add_call]. rewrite Hn. cbn [fst snd].
  rewrite template_name_recovered.
  rewrite client_Get_PodTemplate_run. cbn [calls put_nodes].
  rewrite !length_calls_add_call, Hf2. cbn [fst snd podTemplates put_nodes add_call].
  rewrite Htpl. cbn [fst snd IsNotFound].
  split_and!; [done|solve_new_calls|done|done].
Qed.

Lemma recovery_without_template_keeps_job_witness :
  let w := sample_world recovering_node [] [sample_job "fence-n1" ["Failed"]] in
  let r := Reconcile (sample_env 1000) "n1" w in
  r.1 = (Result_zero, None)
  /\ new_calls w r.2
     = [GetNode "n1"; PatchNode "n1" patch_recovered; GetPodTemplate "fencing" "fencing"]
  /\ nodes r.2 = <["n1" := patch_node patch_recovered recovering_node]> (nodes w)
  /\ jobs r.2 = jobs w.
Proof.
  apply (recovery_without_template_keeps_job (sample_env 1000)
           (sample_world recovering_node [] [sample_job "fence-n1" ["Failed"]])
           "n1" recovering_node
           {| Type_ := "Ready"; Status := "True"; Reason := "KubeletReady" |});
    try reflexivity. by left.
Defined.

(** X11. When the patch that clears the annotations of a recovering node
    fails, the pass goes on all the same: the node keeps its fencing
    annotations, the job is deleted, and no error is returned. *)
Theorem failed_recovery_patch_is_swallowed (E : Env) (w : World) (name : string)
    (node : Node) (c : NodeCondition) (podTemplate : PodTemplate) (found : Job) :
  jobs_wf w ->
  nodes w !! name = Some node ->
  ready_condition node = Some c ->
  Status c = ConditionTrue ->
  fencing_state node = "pending" \/ fencing_state node = "fenced" ->
  podTemplates w !! (Namespace_ E, template_name node) = Some podTemplate ->
  jobs w !! (Namespace_ E, job_name node podTemplate) = Some found ->
  (forall n, fails E n = bool_decide (n = S (length (calls w)))) ->
  let ns := Namespace_ E in
  let jn := job_name node podTemplate in
  let r := Reconcile E name w in
  r.1 = (Result_zero, None)
  /\ new_calls w r.2
     = [GetNode name; PatchNode (Name (node_meta node)) patch_recovered;
        GetPodTemplate ns (template_name node); GetJob ns jn; DeleteJob ns jn]
  /\ nodes r.2 = nodes w
  /\ jobs r.2 = delete (ns, jn) (jobs w).
Proof.
  intros Hwf Hn Hc Ht Hs Htpl Hj Hfails. cbv zeta.
  assert (fails E (length (calls w)) = false) as Hf0
    by (rewrite Hfails; apply bool_decide_eq_false_2; lia).
  rewrite (Reconcile_recovering E w name node Hn Hf0 c Hc Ht Hs).
  rewrite client_Patch_run, length_calls_add_call, Hfails.
  rewrite (bool_decide_eq_true_2 _ eq_refl). cbv zeta. cbn [fst snd].
  rewrite client_Get_PodTemplate_run, !length_calls_add_call, Hfails.
  rewrite bool_decide_eq_false_2 by lia. cbn [fst snd podTemplates add_call].
  rewrite Htpl. cbn [fst snd IsNotFound].
  unfold Reconcile_recovered. unfold_monad.
  rewrite client_Get_Job_run, !length_calls_add_call, Hfails.
  rewrite bool_decide_eq_false_2 by lia.
  change (Name (job_meta (newJobForNode (Namespace_ E) node podTemplate)))
    with (job_name node podTemplate).
  change (Namespace (job_meta (newJobForNode (Namespace_ E) node podTemplate)))
    with (Namespace_ E).
  cbn [jobs add_call]. rewrite Hj.
  rewrite client_Delete_Job_run, !length_calls_add_call, Hfails.
  rewrite bool_decide_eq_false_2 by lia. cbv zeta.
  rewrite (Hwf _ _ Hj). cbn [jobs add_call fst snd]. rewrite Hj. cbn [fst snd].
  split_and!; [done|solve_new_calls|done|done].
Qed.

Lemma failed_recovery_patch_is_swallowed_witness :
  let r := Reconcile (flaky_env 1) "n1" recovering_world in
  r.1 = (Result_zero, None)
  /\ new_calls recovering_world r.2
     = [GetNode "n1"; PatchNode "n1" patch_recovered; GetPodTemplate "fencing" "fencing";
        GetJob "fencing" "fence-n1"; DeleteJob "fencing" "fence-n1"]
  /\ nodes r.2 = nodes recovering_world
  /\ jobs r.2 = delete ("fencing", "fence-n1") (jobs recovering_world).
Proof.
  assert (jobs_wf recovering_world) as Hwf by (unfold jobs_wf; by_compute).
  apply (failed_recovery_patch_is_swallowed (flaky_env 1) recovering_world "n1"
           recovering_node
           {| Type_ := "Ready"; Status := "True"; Reason := "KubeletReady" |}
           plain_template (sample_job "fence-n1" ["Failed"]) Hwf);
    try reflexivity. by left.
Defined.

(** ** Errors that ask for a retry *)

(** X12. For an enabled node that reaches the arming phase (its state
    is neither "started" nor "fenced" nor "recovered", and it is not a
    Ready node in state "pending") with a timeout that parses to zero or
    to a negative number, the patch to "started" is the only patch of the
    pass: when it fails, the pass returns the error and leaves the node,
    the jobs and the timers as they were. *)
Theorem start_patch_failure_is_returned (E : Env) (w : World) (name : string) (node : Node)
    (c : NodeCondition) (podTemplate : PodTemplate) (timeout : Z) :
  nodes w !! name = Some node ->
  fails E (length (calls w)) = false ->
  ready_condition node = Some c ->
  Reason c = "NodeStatusUnknown" ->
  index (Annotations (node_meta node)) "fencing/enabled" = "true" ->
  (Status c = ConditionTrue -> fencing_state node ≠ "pending") ->
  fencing_state node ≠ "fenced" ->
  fencing_state node ≠ "recovered" ->
  fencing_state node ≠ "started" ->
  fetched_template E w node = Some podTemplate ->
  Atoi (timeout_string node podTemplate) = (timeout, None) ->
  timeout <= 0 ->
  fails E (S (S (length (calls w)))) = true ->
  let r := Reconcile E name w in
  r.1 = (Result_zero, Some ServerError)
  /\ new_calls w r.2
     = [GetNode name; GetPodTemplate (Namespace_ E) (template_name node);
        PatchNode (Name (node_meta node)) patch_started]
  /\ nodes r.2 = nodes w /\ jobs r.2 = jobs w /\ timers r.2 = timers w.
Proof.
  intros Hn Hf Hc Hr Hen Hp Hfe Hrec Hs Htpl Hto Hle Hfail. cbv zeta.
  rewrite (Reconcile_arms E w name node c podTemplate Hn Hf Hc Hr Htpl Hen Hp Hfe Hrec Hs).
  rewrite (Reconcile_arming_now E node podTemplate _ _ timeout Hto Hle).
  unfold arming_start. unfold_monad.
  rewrite client_Patch_run, !length_calls_add_call, Hfail. cbv zeta. cbn [fst snd].
  split_and!; [done|solve_new_calls|done|done|done].
Qed.

Lemma start_patch_failure_is_returned_witness :
  let r := Reconcile (flaky_env 2) "n1" lost_world in
  r.1 = (Result_zero, Some ServerError)
  /\ new_calls lost_world r.2
     = [GetNode "n1"; GetPodTemplate "fencing" "fencing"; PatchNode "n1" patch_started]
  /\ nodes r.2 = nodes lost_world /\ jobs r.2 = jobs lost_world
  /\ timers r.2 = timers lost_world.
Proof.
  apply (start_patch_failure_is_returned (flaky_env 2) lost_world "n1"
           (lost_node [("fencing/enabled", "true")])
           {| Type_ := "Ready"; Status := "Unknown"; Reason := "NodeStatusUnknown" |}
           plain_template 0);
    try reflexivity; vm_compute; discriminate.
Defined.

(** X13. When the patch that records "pending" and the timestamp fails, the
    pass returns the error: the node is as it was and no timer is armed,
    so the retry sees the node for the first time again. *)
Theorem pending_patch_failure_is_returned (E : Env) (w : World) (name : string)
    (node : Node) (c : NodeCondition) (podTemplate : PodTemplate) (timeout : Z) :
  nodes w !! name = Some node ->
  fails E (length (calls w)) = false ->
  ready_condition node = Some c ->
  Reason c = "NodeStatusUnknown" ->
  index (Annotations (node_meta node)) "fencing/enabled" = "true" ->
  Annotations (node_meta node) !! "fencing/state" = None ->
  parsed_timestamp node = 0 ->
  fetched_template E w node = Some podTemplate ->
  Atoi (timeout_string node podTemplate) = (timeout, None) ->
  0 < timeout ->
  fails E (S (S (length (calls w)))) = true ->
  let r := Reconcile E name w in
  let now := wrap64 (clock E (ticks w)) in
  r.1 = (Result_zero, Some ServerError)
  /\ new_calls w r.2
     = [GetNode name; GetPodTemplate (Namespace_ E) (template_name node);
        PatchNode (Name (node_meta node)) (patch_pending (FormatInt now))]
  /\ nodes r.2 = nodes w /\ jobs r.2 = jobs w /\ timers r.2 = timers w.
Proof.
  intros Hn Hf Hc Hr Hen Hst Hts Htpl Hto Hpos Hfail. cbv zeta.
  assert (fencing_state node = "") as Hfs by (unfold fencing_state, index; by rewrite Hst).
  rewrite (Reconcile_arms E w name node c podTemplate Hn Hf Hc Hr Htpl Hen)
    by (rewrite Hfs; done).
  unfold Reconcile_arming. rewrite Hto, (proj2 (Z.ltb_lt 0 timeout) Hpos).
  unfold parsed_timestamp in Hts. destruct (ParseInt _) as [ts e]. cbn [fst] in Hts.
  subst ts. rewrite Hfs, (bool_decide_eq_true_2 ("" = "")) by done. cbn [andb Z.eqb].
  unfold time_Now_Unix. unfold_monad.
  rewrite client_Patch_run. cbv zeta. cbn [calls tick].
  rewrite !length_calls_add_call, Hfail. cbn [fst snd].
  split_and!; [done|solve_new_calls|done|done|done].
Qed.

Lemma pending_patch_failure_is_returned_witness :
  let w := sample_world timed_node [plain_template] [] in
  let r := Reconcile (flaky_env 2) "n1" w in
  r.1 = (Result_zero, Some ServerError)
  /\ new_calls w r.2
     = [GetNode "n1"; GetPodTemplate "fencing" "fencing";
        PatchNode "n1" (patch_pending "1000")]
  /\ nodes r.2 = nodes w /\ jobs r.2 = jobs w /\ timers r.2 = timers w.
Proof.
  apply (pending_patch_failure_is_returned (flaky_env 2)
           (sample_world timed_node [plain_template] []) "n1" timed_node
           {| Type_ := "Ready"; Status := "Unknown"; Reason := "NodeStatusUnknown" |}
           plain_template 60);
    reflexivity.
Defined.

Section ExecutionErrors.
Variables (E : Env) (w : World) (name : string) (node : Node) (c : NodeCondition).
Variable podTemplate : PodTemplate.
Hypothesis Hnode : nodes w !! name = Some node.
Hypothesis Hget : fails E (length (calls w)) = false.
Hypothesis Hready : ready_condition node = Some c.
Hypothesis Hreason : Reason c = "NodeStatusUnknown".
Hypothesis Henabled : index (Annotations (node_meta node)) "fencing/enabled" = "true".
Hypothesis Hstarted : fencing_state node = "started".
Hypothesis Htpl : fetched_template E w node = Some podTemplate.

(** The execution phase when the lookup of the job fails. *)
Lemma execution_lookup_failed :
  fails E (S (S (length (calls w)))) = true ->
  Reconcile E name w
  = ((Result_zero, Some ServerError),
     add_call (GetJob (Namespace_ E) (job_name node podTemplate))
       (add_call (GetPodTemplate (Namespace_ E) (template_name node))
          (add_call (GetNode name) w))).
Proof.
  intros Hfail.
  rewrite (Reconcile_executes E w name node c podTemplate Hnode Hget Hready Hreason Htpl
             Henabled Hstarted).
  unfold Reconcile_execution. unfold_monad.
  by rewrite client_Get_Job_run, !length_calls_add_call, Hfail.
Qed.

(** The execution phase when the finished job cannot be deleted. *)
Lemma execution_delete_failed (found : Job) :
  jobs_wf w ->
  jobs w !! (Namespace_ E, job_name node podTemplate) = Some found ->
  job_finished found = true ->
  fails E (S (S (length (calls w)))) = false ->
  fails E (S (S (S (length (calls w))))) = true ->
  Reconcile E name w
  = ((Result_zero, Some ServerError),
     add_call (DeleteJob (Namespace_ E) (job_name node podTemplate))
       (add_call (GetJob (Namespace_ E) (job_name node podTemplate))
          (add_call (GetPodTemplate (Namespace_ E) (template_name node))
             (add_call (GetNode name) w)))).
Proof.
  intros Hwf Hj Hfin Hok Hfail.
  rewrite (Reconcile_executes E w name node c podTemplate Hnode Hget Hready Hreason Htpl
             Henabled Hstarted).
  unfold Reconcile_execution. unfold_monad.
  rewrite client_Get_Job_run, !length_calls_add_call, Hok.
  change (Name (job_meta (newJobForNode (Namespace_ E) node podTemplate)))
    with (job_name node podTemplate).
  change (Namespace (job_meta (newJobForNode (Namespace_ E) node podTemplate)))
    with (Namespace_ E).
  cbn [jobs add_call]. rewrite Hj.
  unfold job_finished in Hfin.
  destruct (GetJobCondition _ JobComplete) as [i [jc|]];
    destruct (GetJobCondition _ JobFailed) as [i' [jf|]]; cbn [snd] in Hfin.
  4: { rewrite !(bool_decide_eq_false_2 (is_Some None)) in Hfin by (by intros [? ?]).
       discriminate. }
  all: rewrite client_Delete_Job_run, !length_calls_add_call, Hfail; cbv zeta.
  all: by rewrite (Hwf _ _ Hj).
Qed.

(** The execution phase when the finished job is deleted and the new
    one cannot be created. *)
Lemma execution_create_failed (found : Job) :
  jobs_wf w ->
  jobs w !! (Namespace_ E, job_name node podTemplate) = Some found ->
  job_finished found = true ->
  fails E (S (S (length (calls w)))) = false ->
  fails E (S (S (S (length (calls w))))) = false ->
  fails E (S (S (S (S (length (calls w)))))) = true ->
  Reconcile E name w
  = ((Result_zero, Some ServerError),
     add_call (CreateJob (newJobForNode (Namespace_ E) node podTemplate))
       (put_jobs (delete (Namespace_ E, job_name node podTemplate) (jobs w))
          (add_call (DeleteJob (Namespace_ E) (job_name node podTemplate))
             (add_call (GetJob (Namespace_ E) (job_name node podTemplate))
                (add_call (GetPodTemplate (Namespace_ E) (template_name node))
                   (add_call (GetNode name) w)))))).
Proof.
  intros Hwf Hj Hfin Hok Hok' Hfail.
  rewrite (Reconcile_executes E w name node c podTemplate Hnode Hget Hready Hreason Htpl
             Henabled Hstarted).
  unfold Reconcile_execution. unfold_monad.
  rewrite client_Get_Job_run, !length_calls_add_call, Hok.
  change (Name (job_meta (newJobForNode (Namespace_ E) node podTemplate)))
    with (job_name node podTemplate).
  change (Namespace (job_meta (newJobForNode (Namespace_ E) node podTemplate)))
    with (Namespace_ E).
  cbn [jobs add_call]. rewrite Hj.
  unfold job_finished in Hfin.
  destruct (GetJobCondition _ JobComplete) as [i [jc|]];
    destruct (GetJobCondition _ JobFailed) as [i' [jf|]]; cbn [snd] in Hfin.
  4: { rewrite !(bool_decide_eq_false_2 (is_Some None)) in Hfin by (by intros [? ?]).
       discriminate. }
  all: rewrite client_Delete_Job_run, !length_calls_add_call, Hok'; cbv zeta.
  all: rewrite (Hwf _ _ Hj); cbn [jobs add_call fst snd]; rewrite Hj.
  all: rewrite client_Create_Job_run; cbv zeta; cbn [calls put_jobs].
  all: by rewrite !length_calls_add_call, Hfail.
Qed.

End ExecutionErrors.

(** X14. In the execution phase, when the lookup of the job fails for a
    reason other than not-found, the pass returns the error and neither
    deletes nor creates a job. *)
Theorem job_lookup_failure_is_returned (E : Env) (w : World) (name : string) (node : Node)
    (c : NodeCondition) (podTemplate : PodTemplate) :
  nodes w !! name = Some node ->
  fails E (length (calls w)) = false ->
  ready_condition node = Some c ->
  Reason c = "NodeStatusUnknown" ->
  index (Annotations (node_meta node)) "fencing/enabled" = "true" ->
  fencing_state node = "started" ->
  fetched_template E w node = Some podTemplate ->
  fails E (S (S (length (calls w)))) = true ->
  let r := Reconcile E name w in
  r.1 = (Result_zero, Some ServerError)
  /\ new_calls w r.2
     = [GetNode name; GetPodTemplate (Namespace_ E) (template_name node);
        GetJob (Namespace_ E) (job_name node podTemplate)]
  /\ nodes r.2 = nodes w /\ jobs r.2 = jobs w.
Proof.
  intros Hn Hf Hc Hr Hen Hs Htpl Hfail. cbv zeta.
  rewrite (execution_lookup_failed E w name node c podTemplate) by done. cbn [fst snd].
  split_and!; [done|solve_new_calls|done|done].
Qed.

Lemma job_lookup_failure_is_returned_witness :
  let r := Reconcile (flaky_env 2) "n1" (started_world ["Complete"]) in
  r.1 = (Result_zero, Some ServerError)
  /\ new_calls (started_world ["Complete"]) r.2
     = [GetNode "n1"; GetPodTemplate "fencing" "fencing"; GetJob "fencing" "fence-n1"]
  /\ nodes r.2 = nodes (started_world ["Complete"])
  /\ jobs r.2 = jobs (started_world ["Complete"]).
Proof.
  apply (job_lookup_failure_is_returned (flaky_env 2) (started_world ["Complete"]) "n1"
           started_node
           {| Type_ := "Ready"; Status := "Unknown"; Reason := "NodeStatusUnknown" |}
           plain_template);
    reflexivity.
Defined.

(** X15. In the execution phase, when the finished job cannot be deleted,
    the pass returns the error and creates nothing: the old job is still
    there for the retry. *)
Theorem job_delete_failure_is_returned (E : Env) (w : World) (name : string) (node : Node)
    (c : NodeCondition) (podTemplate : PodTemplate) (found : Job) :
  jobs_wf w ->
  nodes w !! name = Some node ->
  fails E (length (calls w)) = false ->
  ready_condition node = Some c ->
  Reason c = "NodeStatusUnknown" ->
  index (Annotations (node_meta node)) "fencing/enabled" = "true" ->
  fencing_state node = "started" ->
  fetched_template E w node = Some podTemplate ->
  jobs w !! (Namespace_ E, job_name node podTemplate) = Some found ->
  job_finished found = true ->
  fails E (S (S (length (calls w)))) = false ->
  fails E (S (S (S (length (calls w))))) = true ->
  let ns := Namespace_ E in
  let jn := job_name node podTemplate in
  let r := Reconcile E name w in
  r.1 = (Result_zero, Some ServerError)
  /\ new_calls w r.2
     = [GetNode name; GetPodTemplate ns (template_name node); GetJob ns jn; DeleteJob ns jn]
  /\ nodes r.2 = nodes w /\ jobs r.2 = jobs w.
Proof.
  intros Hwf Hn Hf Hc Hr Hen Hs Htpl Hj Hfin Hok Hfail. cbv zeta.
  rewrite (execution_delete_failed E w name node c podTemplate Hn Hf Hc Hr Hen Hs Htpl found)
    by done.
  cbn [fst snd]. split_and!; [done|solve_new_calls|done|done].
Qed.

Lemma job_delete_failure_is_returned_witness :
  let r := Reconcile (flaky_env 3) "n1" (started_world ["Complete"]) in
  r.1 = (Result_zero, Some ServerError)
  /\ new_calls (started_world ["Complete"]) r.2
     = [GetNode "n1"; GetPodTemplate "fencing" "fencing"; GetJob "fencing" "fence-n1";
        DeleteJob "fencing" "fence-n1"]
  /\ nodes r.2 = nodes (started_world ["Complete"])
  /\ jobs r.2 = jobs (started_world ["Complete"]).
Proof.
  assert (jobs_wf (started_world ["Complete"])) as Hwf by (unfold jobs_wf; by_compute).
  apply (job_delete_failure_is_returned (flaky_env 3) (started_world ["Complete"]) "n1"
           started_node
           {| Type_ := "Ready"; Status := "Unknown"; Reason := "NodeStatusUnknown" |}
           plain_template (sample_job "fence-n1" ["Complete"]) Hwf);
    reflexivity.
Defined.

(** X16. In the execution phase, when the finished job is deleted and the
    creation of the new one fails, the pass returns the error and the
    node is left without a job until the retry. *)
Theorem job_create_failure_leaves_no_job (E : Env) (w : World) (name : string) (node : Node)
    (c : NodeCondition) (podTemplate : PodTemplate) (found : Job) :
  jobs_wf w ->
  nodes w !! name = Some node ->
  fails E (length (calls w)) = false ->
  ready_condition node = Some c ->
  Reason c = "NodeStatusUnknown" ->
  index (Annotations (node_meta node)) "fencing/enabled" = "true" ->
  fencing_state node = "started" ->
  fetched_template E w node = Some podTemplate ->
  jobs w !! (Namespace_ E, job_name node podTemplate) = Some found ->
  job_finished found = true ->
  fails E (S (S (length (calls w)))) = false ->
  fails E (S (S (S (length (calls w))))) = false ->
  fails E (S (S (S (S (length (calls w)))))) = true ->
  let ns := Namespace_ E in
  let jn := job_name node podTemplate in
  let r := Reconcile E name w in
  r.1 = (Result_zero, Some ServerError)
  /\ new_calls w r.2
     = [GetNode name; GetPodTemplate ns (template_name node); GetJob ns jn; DeleteJob ns jn;
        CreateJob (newJobForNode ns node podTemplate)]
  /\ jobs r.2 = delete (ns, jn) (jobs w)
  /\ jobs r.2 !! (ns, jn) = None.
Proof.
  intros Hwf Hn Hf Hc Hr Hen Hs Htpl Hj Hfin Hok Hok' Hfail. cbv zeta.
  rewrite (execution_create_failed E w name node c podTemplate Hn Hf Hc Hr Hen Hs Htpl found)
    by done.
  cbn [fst snd jobs put_jobs add_call].
  split_and!; [done|solve_new_calls|done|apply lookup_delete_eq].
Qed.

Lemma job_create_failure_leaves_no_job_witness :
  let r := Reconcile (flaky_env 4) "n1" (started_world ["Failed"]) in
  r.1 = (Result_zero, Some ServerError)
  /\ jobs r.2 = delete ("fencing", "fence-n1") (jobs (started_world ["Failed"]))
  /\ jobs r.2 !! ("fencing", "fence-n1") = None.
Proof.
  assert (jobs_wf (started_world ["Failed"])) as Hwf by (unfold jobs_wf; by_compute).
  pose proof (job_create_failure_leaves_no_job (flaky_env 4) (started_world ["Failed"]) "n1"
                started_node
                {| Type_ := "Ready"; Status := "Unknown"; Reason := "NodeStatusUnknown" |}
                plain_template (sample_job "fence-n1" ["Failed"]) Hwf
                eq_refl eq_refl eq_refl eq_refl eq_refl eq_refl eq_refl eq_refl eq_refl
                eq_refl eq_refl eq_refl)
    as (H1 & _ & H3 & H4).
  cbv zeta. by split_and!.
Defined.

(** X3. A job counts as finished as soon as one of its conditions has the
    type Complete or Failed, wherever it stands in the list and whatever
    its status: in the execution phase, with a working client, such a
    job is deleted and created anew. *)
Theorem job_with_finish_condition_is_replaced (E : Env) (w : World) (name : string)
    (node : Node) (c : NodeCondition) (podTemplate : PodTemplate) (found : Job)
    (jc : JobCondition) :
  reliable E ->
  jobs_wf w ->
  nodes w !! name = Some node ->
  ready_condition node = Some c ->
  Reason c = "NodeStatusUnknown" ->
  index (Annotations (node_meta node)) "fencing/enabled" = "true" ->
  fencing_state node = "started" ->
  podTemplates w !! (Namespace_ E, template_name node) = Some podTemplate ->
  jobs w !! (Namespace_ E, job_name node podTemplate) = Some found ->
  jc ∈ job_Conditions (job_status found) ->
  job_cond_Type jc = JobComplete \/ job_cond_Type jc = JobFailed ->
  let ns := Namespace_ E in
  let jn := job_name node podTemplate in
  let job := newJobForNode ns node podTemplate in
  let r := Reconcile E name w in
  r.1 = (Result_zero, None)
  /\ new_calls w r.2
     = [GetNode name; GetPodTemplate ns (template_name node); GetJob ns jn; DeleteJob ns jn;
        CreateJob job]
  /\ jobs r.2 = <[(ns, jn) := job]> (jobs w).
Proof.
  intros Hrel Hwf Hn Hc Hr Hen Hs Htpl Hj Hin Hty. cbv zeta.
  assert (job_finished found = true) as Hfin by (apply job_finished_iff; eauto).
  rewrite (Reconcile_executes E w name node c podTemplate Hn (Hrel _) Hc Hr)
    by (rewrite ?fetched_template_reliable; done).
  rewrite Reconcile_execution_run by done. cbv zeta.
  change (Name (job_meta (newJobForNode (Namespace_ E) node podTemplate)))
    with (job_name node podTemplate).
  change (Namespace (job_meta (newJobForNode (Namespace_ E) node podTemplate)))
    with (Namespace_ E).
  cbn [fst snd jobs add_call]. rewrite Hj, Hfin.
  split_and!; [done|solve_new_calls|done].
Qed.

Lemma job_with_finish_condition_is_replaced_witness :
  let found :=
    {| job_meta := job_meta (sample_job "fence-n1" []);
       job_spec := job_spec (sample_job "fence-n1" []);
       job_status :=
         {| job_Conditions :=
              [ {| job_cond_Type := "Suspended"; job_cond_Status := "False" |};
                {| job_cond_Type := "Complete"; job_cond_Status := "False" |} ] |} |} in
  let w := sample_world started_node [plain_template] [found] in
  let job := newJobForNode "fencing" started_node plain_template in
  let r := Reconcile (sample_env 1000) "n1" w in
  r.1 = (Result_zero, None)
  /\ new_calls w r.2
     = [GetNode "n1"; GetPodTemplate "fencing" "fencing"; GetJob "fencing" "fence-n1";
        DeleteJob "fencing" "fence-n1"; CreateJob job]
  /\ jobs r.2 = <[("fencing", "fence-n1") := job]> (jobs w).
Proof.
  cbv zeta.
  eapply (job_with_finish_condition_is_replaced (sample_env 1000) _ "n1" started_node
            {| Type_ := "Ready"; Status := "Unknown"; Reason := "NodeStatusUnknown" |}
            plain_template _
            {| job_cond_Type := "Complete"; job_cond_Status := "False" |});
    try reflexivity.
  - intros n. reflexivity.
  - unfold jobs_wf. by_compute.
  - apply list_elem_of_further, list_elem_of_here.
  - by left.
Defined.

(** ** The timeout *)

(** X17. For an enabled node that reaches the arming phase (its state
    is neither "started" nor "fenced" nor "recovered", and it is not a
    Ready node in state "pending"), with a client that does not fail, a
    timeout that parses to zero or to a negative number starts the
    fencing at once, whatever timestamp the node carries and whether its
    state is absent or already "pending": the pass patches the state to
    "started" without reading the clock and arms no timer. *)
Theorem nonpositive_timeout_starts_at_once (E : Env) (w : World) (name : string)
    (node : Node) (c : NodeCondition) (podTemplate : PodTemplate) (timeout : Z) :
  reliable E ->
  nodes w !! name = Some node ->
  Name (node_meta node) = name ->
  ready_condition node = Some c ->
  Reason c = "NodeStatusUnknown" ->
  index (Annotations (node_meta node)) "fencing/enabled" = "true" ->
  (Status c = ConditionTrue -> fencing_state node ≠ "pending") ->
  fencing_state node ≠ "fenced" ->
  fencing_state node ≠ "recovered" ->
  fencing_state node ≠ "started" ->
  podTemplates w !! (Namespace_ E, template_name node) = Some podTemplate ->
  Atoi (timeout_string node podTemplate) = (timeout, None) ->
  timeout <= 0 ->
  let r := Reconcile E name w in
  r.1 = (Result_zero, None)
  /\ new_calls w r.2
     = [GetNode name; GetPodTemplate (Namespace_ E) (template_name node);
        PatchNode name patch_started]
  /\ nodes r.2 = <[name := patch_node patch_started node]> (nodes w)
  /\ ticks r.2 = ticks w /\ timers r.2 = timers w /\ jobs r.2 = jobs w.
Proof.
  intros Hrel Hn Hname Hc Hr Hen Hp Hfe Hrec Hs Htpl Hto Hle. cbv zeta.
  rewrite (Reconcile_arms E w name node c podTemplate Hn (Hrel _) Hc Hr)
    by (rewrite ?fetched_template_reliable; done).
  rewrite (Reconcile_arming_now E node podTemplate _ _ timeout Hto Hle).
  rewrite (arming_start_run E Hrel) by (by rewrite Hname). rewrite Hname. cbn [fst snd].
  split_and!; [done|solve_new_calls|done|done|done|done].
Qed.

Lemma nonpositive_timeout_starts_at_once_witness :
  let node := lost_node [("fencing/enabled", "true"); ("fencing/timeout", "-5");
                         ("fencing/state", "pending"); ("fencing/timestamp", "5000")] in
  let w := sample_world node [plain_template] [] in
  let r := Reconcile (sample_env 1000) "n1" w in
  r.1 = (Result_zero, None)
  /\ new_calls w r.2
     = [GetNode "n1"; GetPodTemplate "fencing" "fencing"; PatchNode "n1" patch_started]
  /\ nodes r.2 = <["n1" := patch_node patch_started node]> (nodes w)
  /\ ticks r.2 = ticks w /\ timers r.2 = timers w /\ jobs r.2 = jobs w.
Proof.
  apply (nonpositive_timeout_starts_at_once (sample_env 1000) _ "n1"
           (lost_node [("fencing/enabled", "true"); ("fencing/timeout", "-5");
                       ("fencing/state", "pending"); ("fencing/timestamp", "5000")])
           {| Type_ := "Ready"; Status := "Unknown"; Reason := "NodeStatusUnknown" |}
           plain_template (-5));
    try reflexivity; try (intros n; reflexivity); vm_compute; discriminate.
Defined.

(** The pass of a node seen before, with time remaining. *)
Lemma waiting_pass_run (E : Env) (w : World) (name : string) (node : Node)
    (c : NodeCondition) (podTemplate : PodTemplate) (timeout : Z) :
  nodes w !! name = Some node ->
  fails E (length (calls w)) = false ->
  ready_condition node = Some c ->
  Reason c = "NodeStatusUnknown" ->
  index (Annotations (node_meta node)) "fencing/enabled" = "true" ->
  (Status c = ConditionTrue -> fencing_state node ≠ "pending") ->
  fencing_state node ≠ "fenced" ->
  fencing_state node ≠ "recovered" ->
  fencing_state node ≠ "started" ->
  fetched_template E w node = Some podTemplate ->
  Atoi (timeout_string node podTemplate) = (timeout, None) ->
  0 < timeout ->
  fencing_state node ≠ "" \/ parsed_timestamp node ≠ 0 ->
  0 < remainTime timeout (wrap64 (clock E (ticks w))) (parsed_timestamp node) ->
  Reconcile E name w
  = ((Result_zero, None),
     add_timer
       {| timer_delay := remainTime timeout (wrap64 (clock E (ticks w))) (parsed_timestamp node);
          timer_node := Name (node_meta node); timer_patch := patch_timestamp |}
       (tick (add_call (GetPodTemplate (Namespace_ E) (template_name node))
                (add_call (GetNode name) w)))).
Proof.
  intros Hn Hf Hc Hr Hen Hp Hfe Hrec Hs Htpl Hto Hpos Hseen Hrem.
  rewrite (Reconcile_arms E w name node c podTemplate Hn Hf Hc Hr Htpl Hen Hp Hfe Hrec Hs).
  rewrite (Reconcile_arming_seen E node podTemplate _ _ timeout Hto Hpos Hseen).
  unfold arming_check, time_Now_Unix, go. unfold_monad. cbn [ticks add_call].
  by rewrite (proj2 (Z.ltb_lt _ _) Hrem).
Qed.

(** X18. A pass in the arming phase over a node seen before (its state
    is set or a timestamp is recorded; the state is neither "started"
    nor "fenced" nor "recovered", and the node is not Ready in state
    "pending") that finds time remaining arms exactly one timer: the goroutine captures the remaining seconds and the name of
    the node and will clear [fencing/timestamp] only.  Its sleep is
    [time.Duration(remainTime) * time.Second], which is the remaining
    time in nanoseconds as long as that is at most 9223372036 seconds.
    The pass reads the clock once, issues no call beyond the two fetches
    and returns no error. *)
Theorem waiting_pass_arms_one_timer (E : Env) (w : World) (name : string) (node : Node)
    (c : NodeCondition) (podTemplate : PodTemplate) (timeout : Z) :
  nodes w !! name = Some node ->
  fails E (length (calls w)) = false ->
  ready_condition node = Some c ->
  Reason c = "NodeStatusUnknown" ->
  index (Annotations (node_meta node)) "fencing/enabled" = "true" ->
  (Status c = ConditionTrue -> fencing_state node ≠ "pending") ->
  fencing_state node ≠ "fenced" ->
  fencing_state node ≠ "recovered" ->
  fencing_state node ≠ "started" ->
  fetched_template E w node = Some podTemplate ->
  Atoi (timeout_string node podTemplate) = (timeout, None) ->
  0 < timeout ->
  fencing_state node ≠ "" \/ parsed_timestamp node ≠ 0 ->
  let remain := remainTime timeout (wrap64 (clock E (ticks w))) (parsed_timestamp node) in
  0 < remain ->
  let r := Reconcile E name w in
  let timer := {| timer_delay := remain; timer_node := Name (node_meta node);
                  timer_patch := patch_timestamp |} in
  r.1 = (Result_zero, None)
  /\ timers r.2 = timers w ++ [timer]
  /\ timer_sleep timer = wrap64 (remain * 1000000000)
  /\ (remain <= 9223372036 -> timer_sleep timer = remain * 1000000000)
  /\ ticks r.2 = S (ticks w)
  /\ new_calls w r.2 = [GetNode name; GetPodTemplate (Namespace_ E) (template_name node)]
  /\ nodes r.2 = nodes w /\ jobs r.2 = jobs w.
Proof.
  intros Hn Hf Hc Hr Hen Hp Hfe Hrec Hs Htpl Hto Hpos Hseen remain Hrem. cbv zeta.
  rewrite (waiting_pass_run E w name node c podTemplate timeout) by done. cbn [fst snd].
  split_and!; [done|done|done| |done|solve_new_calls|done|done].
  intros Hle. unfold timer_sleep, time_Second. cbn [timer_delay]. fold remain.
  apply wrap64_small.
  assert (minInt64 = -9223372036854775808) as -> by reflexivity.
  assert (maxInt64 = 9223372036854775807) as -> by reflexivity.
  lia.
Qed.

Lemma waiting_pass_arms_one_timer_witness :
  let w := sample_world pending_node [plain_template] [] in
  let r := Reconcile (sample_env 1030) "n1" w in
  let timer := {| timer_delay := 30; timer_node := "n1"; timer_patch := patch_timestamp |} in
  r.1 = (Result_zero, None)
  /\ timers r.2 = [timer]
  /\ timer_sleep timer = 30000000000
  /\ ticks r.2 = 1%nat
  /\ new_calls w r.2 = [GetNode "n1"; GetPodTemplate "fencing" "fencing"]
  /\ nodes r.2 = nodes w /\ jobs r.2 = jobs w.
Proof.
  pose proof (waiting_pass_arms_one_timer (sample_env 1030)
                (sample_world pending_node [plain_template] []) "n1" pending_node
                {| Type_ := "Ready"; Status := "Unknown"; Reason := "NodeStatusUnknown" |}
                plain_template 60 eq_refl eq_refl eq_refl eq_refl eq_refl
                ltac:(discriminate) ltac:(discriminate) ltac:(discriminate)
                ltac:(discriminate) eq_refl eq_refl eq_refl
                ltac:(left; discriminate) eq_refl)
    as (H1 & H2 & _ & H4 & H5 & H6 & H7 & H8).
  cbv zeta. split_and!; [exact H1|exact H2| |exact H5|exact H6|exact H7|exact H8].
  apply H4. discriminate.
Defined.

(** Past 9223372036 seconds the product wraps: the sleep is negative,
    and a sleep that is not positive returns at once. *)
Example timer_sleep_wraps :
  timer_sleep {| timer_delay := 9223372037; timer_node := "n1";
                 timer_patch := patch_timestamp |} = -9223372036709551616.
Proof. reflexivity. Qed.

(** The pass of a pending node without a timestamp, the timeout being
    over by the clock. *)
Lemma pending_without_timestamp_run (E : Env) (w : World) (name : string) (node : Node)
    (c : NodeCondition) (podTemplate : PodTemplate) (timeout : Z) :
  reliable E ->
  nodes w !! name = Some node ->
  Name (node_meta node) = name ->
  ready_condition node = Some c ->
  Status c ≠ ConditionTrue ->
  Reason c = "NodeStatusUnknown" ->
  index (Annotations (node_meta node)) "fencing/enabled" = "true" ->
  fencing_state node = "pending" ->
  Annotations (node_meta node) !! "fencing/timestamp" = None ->
  podTemplates w !! (Namespace_ E, template_name node) = Some podTemplate ->
  Atoi (timeout_string node podTemplate) = (timeout, None) ->
  0 < timeout <= wrap64 (clock E (ticks w)) ->
  Reconcile E name w
  = ((Result_zero, None),
     put_nodes (<[name := patch_node patch_started node]> (nodes w))
       (add_call (PatchNode name patch_started)
          (tick (add_call (GetPodTemplate (Namespace_ E) (template_name node))
                   (add_call (GetNode name) w))))).
Proof.
  intros Hrel Hn Hname Hc Hnt Hr Hen Hs Hts Htpl Hto [Hpos Hnow].
  assert (parsed_timestamp node = 0) as Hparsed
    by (unfold parsed_timestamp, index; by rewrite Hts).
  rewrite (Reconcile_arms E w name node c podTemplate Hn (Hrel _) Hc Hr)
    by (rewrite ?fetched_template_reliable, ?Hs; done).
  rewrite (Reconcile_arming_seen E node podTemplate _ _ timeout Hto Hpos)
    by (left; by rewrite Hs).
  rewrite arming_check_run. cbv zeta. cbn [ticks add_call]. rewrite Hparsed.
  assert (remainTime timeout (wrap64 (clock E (ticks w))) 0 <= 0) as Hrem.
  { unfold remainTime. rewrite Z.sub_0_r.
    pose proof (wrap64_range (clock E (ticks w))) as Hrange.
    rewrite (wrap64_small (wrap64 _)) by done.
    assert (minInt64 = -9223372036854775808) as Hmin by reflexivity.
    assert (maxInt64 = 9223372036854775807) as Hmax by reflexivity.
    rewrite wrap64_small by lia. lia. }
  rewrite (proj2 (Z.ltb_ge _ _) Hrem).
  rewrite (arming_start_run E Hrel) by (by rewrite Hname). by rewrite Hname.
Qed.

(** X19. Once the timer has dropped the timestamp of a pending node, the
    next pass starts the fencing: with no timestamp to subtract, nothing
    remains of a timeout that is not above the time of the clock. *)
Theorem pending_without_timestamp_starts (E : Env) (w : World) (name : string) (node : Node)
    (c : NodeCondition) (podTemplate : PodTemplate) (timeout : Z) :
  reliable E ->
  nodes w !! name = Some node ->
  Name (node_meta node) = name ->
  ready_condition node = Some c ->
  Status c ≠ ConditionTrue ->
  Reason c = "NodeStatusUnknown" ->
  index (Annotations (node_meta node)) "fencing/enabled" = "true" ->
  fencing_state node = "pending" ->
  Annotations (node_meta node) !! "fencing/timestamp" = None ->
  podTemplates w !! (Namespace_ E, template_name node) = Some podTemplate ->
  Atoi (timeout_string node podTemplate) = (timeout, None) ->
  0 < timeout <= wrap64 (clock E (ticks w)) ->
  let r := Reconcile E name w in
  r.1 = (Result_zero, None)
  /\ new_calls w r.2
     = [GetNode name; GetPodTemplate (Namespace_ E) (template_name node);
        PatchNode name patch_started]
  /\ nodes r.2 = <[name := patch_node patch_started node]> (nodes w)
  /\ timers r.2 = timers w.
Proof.
  intros Hrel Hn Hname Hc Hnt Hr Hen Hs Hts Htpl Hto Hnow. cbv zeta.
  rewrite (pending_without_timestamp_run E w name node c podTemplate timeout) by done.
  cbn [fst snd]. split_and!; [done|solve_new_calls|done|done].
Qed.

Lemma pending_without_timestamp_starts_witness :
  let node := lost_node [("fencing/enabled", "true"); ("fencing/timeout", "60");
                         ("fencing/state", "pending")] in
  let w := sample_world node [plain_template] [] in
  let r := Reconcile (sample_env 1000) "n1" w in
  r.1 = (Result_zero, None)
  /\ new_calls w r.2
     = [GetNode "n1"; GetPodTemplate "fencing" "fencing"; PatchNode "n1" patch_started]
  /\ nodes r.2 = <["n1" := patch_node patch_started node]> (nodes w)
  /\ timers r.2 = timers w.
Proof.
  apply (pending_without_timestamp_starts (sample_env 1000) _ "n1"
           (lost_node [("fencing/enabled", "true"); ("fencing/timeout", "60");
                       ("fencing/state", "pending")])
           {| Type_ := "Ready"; Status := "Unknown"; Reason := "NodeStatusUnknown" |}
           plain_template 60);
    try reflexivity; try (intros n; reflexivity); try discriminate.
  vm_compute. split; [reflexivity|discriminate].
Defined.

Lemma patch_pending_other (s : string) (a : gmap string string) (k : string) :
  k ≠ "fencing/state" -> k ≠ "fencing/timestamp" ->
  apply_patch (patch_pending s) a !! k = a !! k.
Proof. intros ? ?. cbn. by rewrite !lookup_insert_ne. Qed.

(** X20. The timestamp a first pass records is what the next pass counts
    from.  After a pass that saw the node for the first time at [t0] and
    stopped with time remaining, the following pass, reading the clock at
    [t2], patches nothing while [timeout - (t2 - t0)] is positive and
    patches the state to "started" once it is not. *)
Theorem recorded_timestamp_drives_next_pass (E : Env) (w : World) (name : string)
    (node : Node) (c : NodeCondition) (podTemplate : PodTemplate) (timeout : Z) :
  reliable E ->
  nodes w !! name = Some node ->
  Name (node_meta node) = name ->
  ready_condition node = Some c ->
  Status c ≠ ConditionTrue ->
  Reason c = "NodeStatusUnknown" ->
  index (Annotations (node_meta node)) "fencing/enabled" = "true" ->
  Annotations (node_meta node) !! "fencing/state" = None ->
  Annotations (node_meta node) !! "fencing/timestamp" = None ->
  podTemplates w !! (Namespace_ E, template_name node) = Some podTemplate ->
  Atoi (timeout_string node podTemplate) = (timeout, None) ->
  0 < timeout ->
  let t0 := wrap64 (clock E (ticks w)) in
  let t1 := wrap64 (clock E (S (ticks w))) in
  let t2 := wrap64 (clock E (S (S (ticks w)))) in
  0 < remainTime timeout t1 t0 ->
  let first := Reconcile E name w in
  let second := Reconcile E name first.2 in
  let pending := patch_node (patch_pending (FormatInt t0)) node in
  let fetch := [GetNode name; GetPodTemplate (Namespace_ E) (template_name node)] in
  nodes first.2 = <[name := pending]> (nodes w)
  /\ second.1 = (Result_zero, None)
  /\ (0 < remainTime timeout t2 t0 ->
      new_calls first.2 second.2 = fetch /\ nodes second.2 = nodes first.2)
  /\ (remainTime timeout t2 t0 <= 0 ->
      new_calls first.2 second.2 = fetch ++ [PatchNode name patch_started]
      /\ nodes second.2 = <[name := patch_node patch_started pending]> (nodes w)).
Proof.
  intros Hrel Hn Hname Hc Hnt Hr Hen Hst Hts Htpl Hto Hpos t0 t1 t2 Hrem1. cbv zeta.
  assert (fencing_state node = "") as Hfs by (unfold fencing_state, index; by rewrite Hst).
  set (pending := patch_node (patch_pending (FormatInt t0)) node).
  set (w1 := add_timer
               {| timer_delay := remainTime timeout t1 t0; timer_node := name;
                  timer_patch := patch_timestamp |}
               (tick (put_nodes (<[name := pending]> (nodes w))
                        (add_call (PatchNode name (patch_pending (FormatInt t0)))
                           (tick (add_call (GetPodTemplate (Namespace_ E) (template_name node))
                                    (add_call (GetNode name) w))))))).
  assert (Reconcile E name w = ((Result_zero, None), w1)) as ->.
  { rewrite (Reconcile_arms E w name node c podTemplate Hn (Hrel _) Hc Hr)
      by (rewrite ?fetched_template_reliable, ?Hfs; done).
    rewrite (Reconcile_arming_first E node podTemplate _ _ timeout Hto Hpos Hfs);
      [| unfold parsed_timestamp, index; by rewrite Hts | apply Hrel | by rewrite Hname].
    cbv zeta. rewrite arming_check_run. cbv zeta.
    cbn [ticks put_nodes add_call tick]. rewrite Hname.
    fold t0 t1. rewrite (proj2 (Z.ltb_lt _ _) Hrem1). unfold w1, pending.
    cbn [patch_node node_meta set_Annotations Name nodes add_call]. by rewrite Hname. }
  cbn [fst snd].
  assert (template_name pending = template_name node) as Htn.
  { unfold template_name, pending. cbn [patch_node node_meta set_Annotations Annotations].
    by rewrite patch_pending_other. }
  assert (timeout_string pending podTemplate = timeout_string node podTemplate) as Hts'.
  { unfold timeout_string, pending. cbn [patch_node node_meta set_Annotations Annotations].
    by rewrite patch_pending_other. }
  assert (fencing_state pending = "pending") as Hfs'.
  { unfold fencing_state, index, pending.
    cbn [patch_node node_meta set_Annotations Annotations].
    by rewrite patch_pending_state. }
  assert (parsed_timestamp pending = t0) as Hparsed by apply parsed_timestamp_pending.
  assert (Name (node_meta pending) = name) as Hname' by exact Hname.
  assert (Reconcile E name w1
          = arming_check E pending timeout t0
              (add_call (GetPodTemplate (Namespace_ E) (template_name node))
                 (add_call (GetNode name) w1))) as ->.
  { rewrite (Reconcile_arms E w1 name pending c podTemplate).
    - rewrite (Reconcile_arming_seen E pending podTemplate _ _ timeout)
        by (rewrite ?Hts', ?Hfs'; auto).
      by rewrite Htn, Hparsed.
    - apply lookup_insert_eq.
    - apply Hrel.
    - done.
    - done.
    - by rewrite fetched_template_reliable, Htn.
    - unfold index, pending. cbn [patch_node node_meta set_Annotations Annotations].
      by rewrite patch_pending_other.
    - done.
    - by rewrite Hfs'.
    - by rewrite Hfs'.
    - by rewrite Hfs'. }
  rewrite arming_check_run. cbv zeta. cbn [ticks add_call add_timer tick put_nodes w1].
  fold t2.
  destruct (0 <? remainTime timeout t2 t0) eqn:Hrem2.
  - apply Z.ltb_lt in Hrem2. cbn [fst snd].
    split_and!; [done|done| |intros; lia].
    intros _. split; [solve_new_calls|done].
  - apply Z.ltb_ge in Hrem2.
    rewrite (arming_start_run E Hrel) by (rewrite Hname'; apply lookup_insert_eq).
    rewrite Hname'. cbn [fst snd].
    split_and!; [done|done|intros; lia|].
    intros _. split; [solve_new_calls|].
    cbn [nodes put_nodes add_call add_timer tick w1]. by rewrite insert_insert_eq.
Qed.

Lemma recorded_timestamp_drives_next_pass_witness :
  (let E := clock_env [1000; 1000; 1030] in
   let w := sample_world timed_node [plain_template] [] in
   let first := Reconcile E "n1" w in
   let second := Reconcile E "n1" first.2 in
   new_calls first.2 second.2 = [GetNode "n1"; GetPodTemplate "fencing" "fencing"]
   /\ nodes second.2 = nodes first.2)
  /\ (let E := clock_env [1000; 1000; 1075] in
      let w := sample_world timed_node [plain_template] [] in
      let first := Reconcile E "n1" w in
      let second := Reconcile E "n1" first.2 in
      new_calls first.2 second.2
      = [GetNode "n1"; GetPodTemplate "fencing" "fencing"; PatchNode "n1" patch_started]).
Proof.
  split.
  - pose proof (recorded_timestamp_drives_next_pass (clock_env [1000; 1000; 1030])
                  (sample_world timed_node [plain_template] []) "n1" timed_node
                  {| Type_ := "Ready"; Status := "Unknown"; Reason := "NodeStatusUnknown" |}
                  plain_template 60 (fun _ => eq_refl) eq_refl eq_refl eq_refl
                  ltac:(discriminate) eq_refl eq_refl eq_refl eq_refl eq_refl eq_refl
                  eq_refl eq_refl) as (_ & _ & H & _).
    exact (H eq_refl).
  - pose proof (recorded_timestamp_drives_next_pass (clock_env [1000; 1000; 1075])
                  (sample_world timed_node [plain_template] []) "n1" timed_node
                  {| Type_ := "Ready"; Status := "Unknown"; Reason := "NodeStatusUnknown" |}
                  plain_template 60 (fun _ => eq_refl) eq_refl eq_refl eq_refl
                  ltac:(discriminate) eq_refl eq_refl eq_refl eq_refl eq_refl eq_refl
                  eq_refl eq_refl) as (_ & _ & _ & H).
    exact (proj1 (H ltac:(discriminate))).
Defined.

(** ** A working client *)

Lemma Reconcile_arming_no_error (E : Env) (node : Node) (podTemplate : PodTemplate)
    (fencingState : string) (w : World) :
  reliable E ->
  nodes w !! Name (node_meta node) = Some node ->
  (Reconcile_arming E node podTemplate fencingState w).1 = (Result_zero, None).
Proof.
  intros Hrel Hn.
  destruct (Atoi (timeout_string node podTemplate)) as [timeout [e|]] eqn:Hto.
  { rewrite Reconcile_arming_unparsable; [done|by rewrite Hto]. }
  destruct (Z.le_gt_cases timeout 0) as [Hle|Hpos].
  { rewrite (Reconcile_arming_now E node podTemplate _ _ timeout Hto Hle).
    by rewrite (arming_start_run E Hrel). }
  destruct (decide (fencingState = "")) as [Hs|Hs];
    [destruct (decide (parsed_timestamp node = 0)) as [Ht|Ht]|].
  - rewrite (Reconcile_arming_first E node podTemplate _ _ timeout Hto Hpos Hs Ht (Hrel _) Hn).
    cbv zeta. rewrite arming_check_run. cbv zeta. destruct (0 <? _); [done|].
    rewrite (arming_start_run E Hrel); [done|].
    cbn [nodes put_nodes add_call tick patch_node node_meta set_Annotations Name].
    apply lookup_insert_eq.
  - rewrite (Reconcile_arming_seen E node podTemplate _ _ timeout Hto Hpos) by auto.
    rewrite arming_check_run. cbv zeta. destruct (0 <? _); [done|].
    by rewrite (arming_start_run E Hrel).
  - rewrite (Reconcile_arming_seen E node podTemplate _ _ timeout Hto Hpos) by auto.
    rewrite arming_check_run. cbv zeta. destruct (0 <? _); [done|].
    by rewrite (arming_start_run E Hrel).
Qed.

Lemma Reconcile_fence_no_error (E : Env) (node : Node) (podTemplate : PodTemplate)
    (fencingState : string) (w : World) :
  reliable E -> jobs_wf w ->
  nodes w !! Name (node_meta node) = Some node ->
  (Reconcile_fence E node podTemplate fencingState w).1 = (Result_zero, None).
Proof.
  intros Hrel Hwf Hn. unfold Reconcile_fence. cbv zeta.
  destruct (bool_decide (fencingState = "recovered")).
  { by rewrite Reconcile_recovered_run. }
  destruct (bool_decide (_ ≠ "true")); [done|].
  destruct (bool_decide (fencingState ≠ "started")).
  - by apply Reconcile_arming_no_error.
  - by rewrite Reconcile_execution_run.
Qed.

(** X21. With a client whose calls go through and stores that are well
    keyed, a pass never returns an error: whatever the node, its state
    and its annotations, no retry is asked for. *)
Theorem working_client_never_errors (E : Env) (w : World) (request : string) :
  reliable E -> nodes_wf w -> jobs_wf w ->
  (Reconcile E request w).1 = (Result_zero, None).
Proof.
  intros Hrel Hnwf Hjwf. unfold Reconcile. unfold_monad.
  rewrite client_Get_Node_run, Hrel.
  destruct (nodes w !! request) as [node|] eqn:Hn; [|done].
  pose proof (Hnwf _ _ Hn) as Hname. cbn in Hname.
  destruct (GetNodeCondition _ _) as [i [c|]]; [|done].
  destruct (bool_decide (Status c = ConditionTrue));
    [destruct (bool_decide (_ = "pending") || bool_decide (_ = "fenced"))|].
  - rewrite client_Patch_run, Hrel, Hname. cbv zeta. cbn [nodes add_call]. rewrite Hn.
    cbv beta iota. decide_tests. cbn [andb].
    rewrite client_Get_PodTemplate_run, Hrel. cbn [podTemplates put_nodes add_call].
    destruct (podTemplates w !! _); [|done]. cbn [IsNotFound].
    apply Reconcile_fence_no_error; [done|done|].
    cbn [nodes put_nodes add_call patch_node node_meta set_Annotations Name].
    rewrite Hname. apply lookup_insert_eq.
  - cbv beta iota. destruct (bool_decide (_ = "fenced")); [done|].
    destruct (bool_decide (_ ≠ "recovered") && bool_decide (_ ≠ "NodeStatusUnknown")); [done|].
    rewrite client_Get_PodTemplate_run, Hrel. cbn [podTemplates add_call].
    destruct (podTemplates w !! _); [|done]. cbn [IsNotFound].
    apply Reconcile_fence_no_error; [done|done|]. by rewrite Hname.
  - cbv beta iota. destruct (bool_decide (_ = "fenced")); [done|].
    destruct (bool_decide (_ ≠ "recovered") && bool_decide (_ ≠ "NodeStatusUnknown")); [done|].
    rewrite client_Get_PodTemplate_run, Hrel. cbn [podTemplates add_call].
    destruct (podTemplates w !! _); [|done]. cbn [IsNotFound].
    apply Reconcile_fence_no_error; [done|done|]. by rewrite Hname.
Qed.

Lemma working_client_never_errors_witness :
  (Reconcile (sample_env 1000) "n1" (started_world ["Failed"])).1 = (Result_zero, None).
Proof.
  apply (working_client_never_errors (sample_env 1000) (started_world ["Failed"]) "n1").
  - intros n. reflexivity.
  - unfold nodes_wf. by_compute.
  - unfold jobs_wf. by_compute.
Defined.

(** ** More on the job builder *)

(** X27. Apart from the fixed keys, [fencing/node], [fencing/id] and
    [fencing/after-hook], the job carries the annotations of the
    template's pod and nothing else: neither the node's nor the
    template's own annotations leak into it. *)
Theorem pod_annotations_pass_through (ns : string) (node : Node) (podTemplate : PodTemplate)
    (k : string) :
  k ∉ fixed_keys ->
  k ≠ "fencing/node" -> k ≠ "fencing/id" -> k ≠ "fencing/after-hook" ->
  Annotations (job_meta (newJobForNode ns node podTemplate)) !! k
  = Annotations (pod_meta (Template podTemplate)) !! k.
Proof.
  intros Hfixed Hn Hi Ha.
  rewrite newJobForNode_annotations, job_annotations_lookup by done.
  rewrite overrides_not_in by done.
  destruct (Annotations (pod_meta (Template podTemplate)) !! k) eqn:Hk; [done|].
  unfold default_annotations.
  apply not_elem_of_cons in Hfixed as [H1 Hfixed].
  apply not_elem_of_cons in Hfixed as [H2 Hfixed].
  apply not_elem_of_cons in Hfixed as [H3 _].
  by rewrite !lookup_insert_ne.
Qed.

Lemma pod_annotations_pass_through_witness :
  let node := lost_node [("team", "storage"); ("fencing/enabled", "true")] in
  let tpl := sample_template [("team", "infra")] "" [("sidecar", "off")] in
  Annotations (job_meta (newJobForNode "fencing" node tpl)) !! "sidecar" = Some "off"
  /\ Annotations (job_meta (newJobForNode "fencing" node tpl)) !! "team" = None
  /\ Annotations (job_meta (newJobForNode "fencing" node tpl)) !! "fencing/enabled" = None.
Proof.
  cbv zeta. split_and!.
  - rewrite (pod_annotations_pass_through "fencing"
               (lost_node [("team", "storage"); ("fencing/enabled", "true")])
               (sample_template [("team", "infra")] "" [("sidecar", "off")]) "sidecar");
      [reflexivity|by_compute|discriminate|discriminate|discriminate].
  - rewrite (pod_annotations_pass_through "fencing"
               (lost_node [("team", "storage"); ("fencing/enabled", "true")])
               (sample_template [("team", "infra")] "" [("sidecar", "off")]) "team");
      [reflexivity|by_compute|discriminate|discriminate|discriminate].
  - rewrite (pod_annotations_pass_through "fencing"
               (lost_node [("team", "storage"); ("fencing/enabled", "true")])
               (sample_template [("team", "infra")] "" [("sidecar", "off")])
               "fencing/enabled");
      [reflexivity|by_compute|discriminate|discriminate|discriminate].
Defined.

Lemma append_cancel_l (p s t : string) : p +:+ s = p +:+ t -> s = t.
Proof. induction p as [|ch p IH]; cbn; [done|]. intros [= H]. by apply IH. Qed.

(** X28. For one template the name of the job tells the node: two nodes
    have the same job name only if they have the same name. *)
Theorem job_name_tells_the_node (ns : string) (node node' : Node) (podTemplate : PodTemplate) :
  Name (job_meta (newJobForNode ns node podTemplate))
  = Name (job_meta (newJobForNode ns node' podTemplate)) ->
  Name (node_meta node) = Name (node_meta node').
Proof.
  rewrite !newJobForNode_name. intros H.
  apply append_cancel_l in H. by apply append_cancel_l in H.
Qed.

Lemma job_name_tells_the_node_witness :
  Name (node_meta (lost_node [])) = Name (node_meta (ready_node [("fencing/id", "7")])).
Proof.
  apply (job_name_tells_the_node "fencing" (lost_node []) (ready_node [("fencing/id", "7")])
           plain_template).
  reflexivity.
Defined.

(** ** Creation and recovery together *)

(** X29. The job the execution phase creates is the one recovery removes.
    After a pass that created the job of a node in state "started", let
    the node be marked "fenced" (or "pending") from outside and become
    Ready, its name and template unchanged: the next pass clears the
    fencing annotations and leaves the job store as it was before the
    job was created. *)
Theorem created_job_is_removed_on_recovery (E : Env) (w : World) (name : string)
    (node : Node) (c : NodeCondition) (podTemplate : PodTemplate)
    (node' : Node) (c' : NodeCondition) :
  reliable E ->
  jobs_wf w ->
  nodes w !! name = Some node ->
  Name (node_meta node) = name ->
  ready_condition node = Some c ->
  Reason c = "NodeStatusUnknown" ->
  index (Annotations (node_meta node)) "fencing/enabled" = "true" ->
  fencing_state node = "started" ->
  podTemplates w !! (Namespace_ E, template_name node) = Some podTemplate ->
  jobs w !! (Namespace_ E, job_name node podTemplate) = None ->
  Name (node_meta node') = name ->
  template_name node' = template_name node ->
  ready_condition node' = Some c' ->
  Status c' = ConditionTrue ->
  fencing_state node' = "pending" \/ fencing_state node' = "fenced" ->
  let key := (Namespace_ E, job_name node podTemplate) in
  let first := Reconcile E name w in
  let second := Reconcile E name (put_nodes (<[name := node']> (nodes first.2)) first.2) in
  jobs first.2 = <[key := newJobForNode (Namespace_ E) node podTemplate]> (jobs w)
  /\ second.1 = (Result_zero, None)
  /\ jobs second.2 = jobs w
  /\ nodes second.2 !! name = Some (patch_node patch_recovered node').
Proof.
  intros Hrel Hwf Hn Hname Hc Hr Hen Hs Htpl Hj Hname' Htn Hc' Ht' Hs'. cbv zeta.
  rewrite (Reconcile_executes E w name node c podTemplate Hn (Hrel _) Hc Hr)
    by (rewrite ?fetched_template_reliable; done).
  rewrite Reconcile_execution_absent by (done || apply Hrel).
  change (Name (job_meta (newJobForNode (Namespace_ E) node podTemplate)))
    with (job_name node podTemplate).
  change (Namespace (job_meta (newJobForNode (Namespace_ E) node podTemplate)))
    with (Namespace_ E).
  cbn [fst snd jobs nodes put_jobs add_call].
  set (job := newJobForNode (Namespace_ E) node podTemplate).
  set (w1 := put_nodes _ _).
  assert (jobs_wf w1) as Hwf1 by (by apply map_Forall_insert_2).
  assert (job_name (patch_node patch_recovered node') podTemplate = job_name node podTemplate)
    as Hjn.
  { unfold job_name. cbn [patch_node node_meta set_Annotations Name]. by rewrite Hname', Hname. }
  rewrite (Reconcile_recovering E w1 name node' (lookup_insert_eq _ _ _) (Hrel _) c' Hc' Ht' Hs').
  subst w1.
  rewrite client_Patch_run, Hrel, Hname'. cbv zeta. cbn [nodes add_call put_nodes].
  rewrite lookup_insert_eq. cbn [fst snd].
  rewrite template_name_recovered, Htn.
  rewrite client_Get_PodTemplate_run, Hrel. cbn [fst snd podTemplates put_nodes put_jobs add_call].
  rewrite Htpl. cbn [fst snd IsNotFound].
  rewrite Reconcile_recovered_run by done. cbv zeta.
  change (Name (job_meta (newJobForNode (Namespace_ E) (patch_node patch_recovered node')
                            podTemplate)))
    with (job_name (patch_node patch_recovered node') podTemplate).
  change (Namespace (job_meta (newJobForNode (Namespace_ E) (patch_node patch_recovered node')
                                 podTemplate)))
    with (Namespace_ E).
  rewrite Hjn. cbn [fst snd jobs put_nodes put_jobs add_call].
  rewrite lookup_insert_eq. cbn [jobs nodes put_nodes put_jobs add_call].
  split_and!; [done|done| |].
  - by rewrite delete_insert_eq, delete_id.
  - apply lookup_insert_eq.
Qed.

Lemma created_job_is_removed_on_recovery_witness :
  let w := sample_world started_node [plain_template] [] in
  let fenced := ready_node [("fencing/enabled", "true"); ("fencing/state", "fenced")] in
  let first := Reconcile (sample_env 1000) "n1" w in
  let second :=
    Reconcile (sample_env 1000) "n1" (put_nodes (<["n1" := fenced]> (nodes first.2)) first.2) in
  jobs first.2
  = <[("fencing", "fence-n1") := newJobForNode "fencing" started_node plain_template]> (jobs w)
  /\ second.1 = (Result_zero, None)
  /\ jobs second.2 = jobs w
  /\ nodes second.2 !! "n1" = Some (patch_node patch_recovered fenced).
Proof.
  apply (created_job_is_removed_on_recovery (sample_env 1000)
           (sample_world started_node [plain_template] []) "n1" started_node
           {| Type_ := "Ready"; Status := "Unknown"; Reason := "NodeStatusUnknown" |}
           plain_template
           (ready_node [("fencing/enabled", "true"); ("fencing/state", "fenced")])
           {| Type_ := "Ready"; Status := "True"; Reason := "KubeletReady" |});
    try reflexivity; try (intros n; reflexivity).
  - unfold jobs_wf. by_compute.
  - by right.
Defined.

(** ** The timer and the next pass *)




